(** * connect-valkey-glide: the session store adapter of src/index.ts

    A shallow embedding of [ValkeyStore] (key codec, TTL calculator, scan
    engine, operation facade and the callback/promise adapter [optionalCb])
    together with the properties of its specification.

    Modelling conventions.
    - JavaScript numbers that the store handles (millisecond timestamps,
      seconds, counts) are integers, modelled as [Z]; [Math.floor (x / 1000)]
      is [x / 1000] on [Z], which rounds towards minus infinity.
    - Strings are [string]; [s.length] is [String.length s].
    - The asynchronous operations are single request/response exchanges, so
      each one is sequenced as a state transformer on a [World]: the key-value
      client (an in-memory double with a call trace, scripted scan replies and
      an injectable fault table), the event emitter and the console.
    - The store is an event emitter: [emit] delivers an "error" event when
      a listener is attached and throws the error when none is, which is
      the state of a store right after its construction. A throw inside
      the handler of a promise chain leaves a rejection that nothing
      handles; the world keeps those too. *)

From Stdlib Require Import ZArith String Ascii List Bool Lia.
From stdpp Require Import gmap strings list.

Local Open Scope Z_scope.
Local Open Scope string_scope.

(** ** JavaScript values that reach the store *)

Inductive JsError : Type :=
| TypeError (message : string)
| Error (message : string)
| RequestError (message : string).

Inductive Result (A : Type) : Type :=
| Ok (a : A)
| Err (e : JsError).
Arguments Ok {A} a.
Arguments Err {A} e.

(** What a caller may pass where a session id is expected. *)
Inductive JsValue : Type :=
| JsUndefined
| JsNull
| JsBoolean (b : bool)
| JsNumber (n : Z)
| JsString (s : string)
| JsObject.

(** [cookie.expires]: a Date (its [getTime()]), a date-like string, or absent. *)
Inductive Expires : Type :=
| ExpiresUndefined
| ExpiresNull
| ExpiresDate (time : Z)
| ExpiresString (s : string).

(** [cookie.maxAge]: milliseconds, or absent. *)
Inductive MaxAge : Type :=
| MaxAgeUndefined
| MaxAgeNull
| MaxAgeNumber (ms : Z).

Record Cookie : Type := {
  expires : Expires;
  maxAge : MaxAge
}.

Record SessionData : Type := {
  cookie : option Cookie;
  fields : list (string * string)
}.

#[global] Instance Expires_eq_dec : EqDecision Expires.
Proof. solve_decision. Defined.
#[global] Instance MaxAge_eq_dec : EqDecision MaxAge.
Proof. solve_decision. Defined.
#[global] Instance Cookie_eq_dec : EqDecision Cookie.
Proof. solve_decision. Defined.
#[global] Instance SessionData_eq_dec : EqDecision SessionData.
Proof. solve_decision. Defined.

(** ** Configuration *)

Inductive ParseResult : Type :=
| ParseReturn (session : SessionData)
| ParseThrow (e : JsError)
| ParseResolve (session : SessionData)   (* a Promise that fulfils *)
| ParseReject (e : JsError).             (* a Promise that rejects *)

Record Serializer : Type := {
  parse : string -> ParseResult;
  stringify : SessionData -> Result string
}.

Inductive Ttl : Type :=
| TtlNumber (seconds : Z)
| TtlFunction (f : SessionData -> Z).

Record ValkeyStoreOptions : Type := {
  opt_prefix : option string;
  opt_ttl : option Ttl;
  opt_disableTTL : option bool;
  opt_disableTouch : option bool;
  opt_scanCount : option Z;
  opt_logErrors : option bool;
  opt_serializer : option Serializer
}.

Record Store : Type := {
  prefix : string;
  ttl : Ttl;
  disableTTL : bool;
  disableTouch : bool;
  logErrors : bool;
  scanCount : Z;
  serializer : Serializer
}.

(** ** The world the store acts on *)

Record ScanState : Type := {
  cursorId : string;
  finished : bool
}.

(** The two cursor variants: a string token, or an object with [isFinished]. *)
Inductive Cursor : Type :=
| SimpleCursor (token : string)
| ClusterScanCursor (state : ScanState).

Inductive ScanReply : Type :=
| ScanOk (nextCursor : Cursor) (scanKeys : list string)
| ScanFail (e : JsError).

Inductive ClientCall : Type :=
| CallGet (key : string)
| CallSet (key : string) (data : string) (expirySeconds : option Z)
| CallDel (keys : list string)
| CallExpire (key : string) (seconds : Z)
| CallMget (keys : list string)
| CallScan (cursor : Cursor) (pattern : string) (count : Z).

Record Entry : Type := {
  value : string;
  expiry : option Z
}.

Inductive EmitSite : Type :=
| ByHandleError     (* this.emit('error', error) in handleError *)
| ByOptionalCb.     (* errorEmitter.emit('error', err) in optionalCb *)

Inductive LogLine : Type :=
| ConsoleError (e : JsError)
| WarnInvalidSession (key : string)
| WarnLargeDataset (totalProcessed : Z).

Record World : Type := {
  db : gmap string Entry;
  isCluster : bool;
  scanReplies : list ScanReply;
  faults : ClientCall -> option JsError;
  calls : list ClientCall;
  events : list (EmitSite * JsError);
  listening : bool;
  unhandled : list JsError;
  console : list LogLine;
  now : Z;
  dateParse : string -> Z
}.

(** ** A state monad over [World] *)

Definition M (A : Type) : Type := World -> A * World.

Definition ret {A : Type} (a : A) : M A := fun w => (a, w).

Definition bind {A B : Type} (m : M A) (k : A -> M B) : M B :=
  fun w => let (a, w') := m w in k a w'.

Notation "'let*' x ':=' m 'in' k" := (bind m (fun x => k))
  (at level 10, x name, m at level 100, k at level 200).
Notation "'run' m 'in' k" := (bind m (fun _ => k))
  (at level 10, m at level 100, k at level 200).

Definition record_call (c : ClientCall) (w : World) : World :=
  {| db := db w; isCluster := isCluster w; scanReplies := scanReplies w;
     faults := faults w; calls := calls w ++ [c]; events := events w;
     listening := listening w; unhandled := unhandled w;
     console := console w; now := now w; dateParse := dateParse w |}.

Definition with_db (d : gmap string Entry) (w : World) : World :=
  {| db := d; isCluster := isCluster w; scanReplies := scanReplies w;
     faults := faults w; calls := calls w; events := events w;
     listening := listening w; unhandled := unhandled w;
     console := console w; now := now w; dateParse := dateParse w |}.

Definition with_scanReplies (rs : list ScanReply) (w : World) : World :=
  {| db := db w; isCluster := isCluster w; scanReplies := rs;
     faults := faults w; calls := calls w; events := events w;
     listening := listening w; unhandled := unhandled w;
     console := console w; now := now w; dateParse := dateParse w |}.

Definition with_events (es : list (EmitSite * JsError)) (w : World) : World :=
  {| db := db w; isCluster := isCluster w; scanReplies := scanReplies w;
     faults := faults w; calls := calls w; events := es;
     listening := listening w; unhandled := unhandled w;
     console := console w; now := now w; dateParse := dateParse w |}.

(** [store.on('error', listener)] and [store.removeAllListeners('error')]. *)
Definition with_listening (b : bool) (w : World) : World :=
  {| db := db w; isCluster := isCluster w; scanReplies := scanReplies w;
     faults := faults w; calls := calls w; events := events w;
     listening := b; unhandled := unhandled w;
     console := console w; now := now w; dateParse := dateParse w |}.

(** [emitter.emit('error', e)]. With a listener attached the event is
    delivered and [emit] returns ([true]); with none attached [emit] throws
    [e] ([false]), and no event is delivered to anyone. *)
Definition emit (site : EmitSite) (e : JsError) : M bool :=
  fun w =>
    if listening w then (true, with_events (events w ++ [(site, e)]) w)
    else (false, w).

(** A promise rejects with [e] and nothing handles the rejection. *)
Definition unhandledRejection (e : JsError) : M unit :=
  fun w =>
    (tt, {| db := db w; isCluster := isCluster w; scanReplies := scanReplies w;
            faults := faults w; calls := calls w; events := events w;
            listening := listening w; unhandled := unhandled w ++ [e];
            console := console w; now := now w; dateParse := dateParse w |}).

Definition log (l : LogLine) : M unit :=
  fun w =>
    (tt, {| db := db w; isCluster := isCluster w; scanReplies := scanReplies w;
            faults := faults w; calls := calls w; events := events w;
            listening := listening w; unhandled := unhandled w;
            console := console w ++ [l]; now := now w;
            dateParse := dateParse w |}).

Definition when (b : bool) (m : M unit) : M unit := if b then m else ret tt.

(** ** The key-value client double *)

Module Client.

(** A call is traced, then either faults or acts on the database. *)
Definition request {A : Type} (c : ClientCall)
    (act : gmap string Entry -> A * gmap string Entry) : M (Result A) :=
  fun w =>
    let w1 := record_call c w in
    match faults w c with
    | Some e => (Err e, w1)
    | None => let (a, d) := act (db w) in (Ok a, with_db d w1)
    end.

Definition get (key : string) : M (Result (option string)) :=
  request (CallGet key) (fun d => (value <$> d !! key, d)).

Definition set (key data : string) (expirySeconds : option Z)
    : M (Result unit) :=
  request (CallSet key data expirySeconds)
    (fun d => (tt, <[key := {| value := data; expiry := expirySeconds |}]> d)).

Definition del (keys : list string) : M (Result unit) :=
  request (CallDel keys)
    (fun d => (tt, foldr (fun k acc => delete k acc) d keys)).

(** EXPIRE with a non-positive time deletes the key. *)
Definition expire (key : string) (seconds : Z) : M (Result unit) :=
  request (CallExpire key seconds)
    (fun d =>
       match d !! key with
       | None => (tt, d)
       | Some e =>
           if (seconds <=? 0)%Z then (tt, delete key d)
           else (tt, <[key := {| value := value e; expiry := Some seconds |}]> d)
       end).

Definition mget (keys : list string) : M (Result (list (option string))) :=
  request (CallMget keys)
    (fun d => (map (fun k => value <$> d !! k) keys, d)).

(** The scan primitive answers with the next scripted reply; a script
    that has run dry answers nothing, and destructuring that throws. *)
Definition scan (cursor : Cursor) (pattern : string) (count : Z)
    : M ScanReply :=
  fun w =>
    let w1 := record_call (CallScan cursor pattern count) w in
    match scanReplies w with
    | [] => (ScanFail (TypeError "undefined is not iterable"), w1)
    | r :: rest => (r, with_scanReplies rest w1)
    end.

End Client.

(** ** JavaScript string helpers *)

(** [s.includes(c)] for a one-character needle. *)
Fixpoint includes (s : string) (c : ascii) : bool :=
  match s with
  | EmptyString => false
  | String a s' => if Ascii.eqb a c then true else includes s' c
  end.

Fixpoint string_drop (n : nat) (s : string) : string :=
  match n, s with
  | O, _ => s
  | S n', EmptyString => EmptyString
  | S n', String _ s' => string_drop n' s'
  end.

(** [s.replace(pat, '')] with a string pattern: only the first occurrence
    of [pat] is removed. *)
Fixpoint replace_first (pat s : string) : string :=
  if String.prefix pat s then string_drop (String.length pat) s
  else match s with
       | EmptyString => EmptyString
       | String a s' => String a (replace_first pat s')
       end.

Definition NUL : ascii := Ascii.zero.
Definition LF : ascii := "010"%char.
Definition CR : ascii := "013"%char.

(** ** Results of an operation *)

(** The plain object [sessions = {}] that [all] fills: its own properties,
    and the record that an assignment to [__proto__] has put in the place
    of [Object.prototype], if any. *)
Record SessionMap : Type := {
  own : gmap string SessionData;
  proto : option SessionData
}.

(** [sessions[sid] = session]: on a plain object the property
    [__proto__] is the accessor of the prototype, so that assignment
    replaces the prototype and adds no property. *)
Definition assign (sid : string) (session : SessionData) (sessions : SessionMap)
    : SessionMap :=
  if String.eqb sid "__proto__"
  then {| own := own sessions; proto := Some session |}
  else {| own := <[sid := session]> (own sessions); proto := proto sessions |}.

Definition no_sessions : SessionMap := {| own := ∅; proto := None |}.

Inductive Data : Type :=
| DUndefined
| DNull
| DSession (session : SessionData)
| DSessions (sessions : SessionMap)
| DNumber (n : Z)
| DStrings (l : list string).

(** What running the closure [fn] of an operation comes to: it throws
    before calling back, it calls [cb (err, data)] once, or it returns and
    never calls back (its promise chain ended in a rejection that nothing
    handles). *)
Inductive FnResult : Type :=
| FnThrew (e : JsError)
| FnCalledBack (err : option JsError) (data : Data)
| FnNeverCalledBack.

(** How a promise ends: resolved, rejected, or never settled. *)
Inductive Settled : Type :=
| Resolved (data : Data)
| Rejected (e : JsError)
| Pending.

Inductive Callback : Type :=
| NoCallback
| WithCallback.

(** What the caller observes: the invocations of the callback it passed,
    and how the promise returned by the async method settles. *)
Record Outcome : Type := {
  callbackArgs : list (option JsError * Data);
  returned : Settled
}.

Definition cb (err : option JsError) (data : Data) : M FnResult :=
  ret (FnCalledBack err data).

(** [optionalCb fn cb errorEmitter], followed by the [async] wrapper of the
    method that returns its value: a throw of [fn] rejects the promise in
    both modes (inside the Promise executor without a callback, through the
    async method with one). Without a callback, the promise settles when
    [fn] calls back, and not at all if it never does; the [emit] before
    [reject] throws when no listener is attached, inside the handler that
    called back, and leaves the promise unsettled. With a callback the
    async method resolves as soon as [fn] has returned. *)
Definition optionalCb (fn : M FnResult) (callback : Callback)
    (errorEmitter : bool) : M Outcome :=
  match callback with
  | NoCallback =>
      let* r := fn in
      match r with
      | FnThrew e => ret {| callbackArgs := []; returned := Rejected e |}
      | FnCalledBack (Some err) _ =>
          let* heard := (if errorEmitter then emit ByOptionalCb err
                         else ret true) in
          if heard then ret {| callbackArgs := []; returned := Rejected err |}
          else
            run unhandledRejection err in
            ret {| callbackArgs := []; returned := Pending |}
      | FnCalledBack None data =>
          ret {| callbackArgs := []; returned := Resolved data |}
      | FnNeverCalledBack => ret {| callbackArgs := []; returned := Pending |}
      end
  | WithCallback =>
      let* r := fn in
      match r with
      | FnThrew e => ret {| callbackArgs := []; returned := Rejected e |}
      | FnCalledBack err data =>
          ret {| callbackArgs := [(err, data)]; returned := Resolved DUndefined |}
      | FnNeverCalledBack =>
          ret {| callbackArgs := []; returned := Resolved DUndefined |}
      end
  end.

Module ValkeyStore.

(** The constructor; [json] stands for the JSON codec. *)
Definition constructor (json : Serializer) (options : ValkeyStoreOptions)
    : Store :=
  {| prefix := match opt_prefix options with
               | Some p => if String.eqb p EmptyString then "sess:" else p
               | None => "sess:"
               end;
     ttl := match opt_ttl options with
            | Some (TtlNumber n) => if (n =? 0)%Z then TtlNumber 86400 else TtlNumber n
            | Some (TtlFunction f) => TtlFunction f
            | None => TtlNumber 86400
            end;
     disableTTL := default false (opt_disableTTL options);
     disableTouch := default false (opt_disableTouch options);
     logErrors := match opt_logErrors options with
                  | Some false => false
                  | _ => true
                  end;
     scanCount := match opt_scanCount options with
                  | Some n => if (n =? 0)%Z then 100 else n
                  | None => 100
                  end;
     serializer := default json (opt_serializer options) |}.

(** [key(sid)]: validation, then [prefix + sid]. *)
Definition key (st : Store) (sid : JsValue) : Result string :=
  match sid with
  | JsString s =>
      if String.eqb s EmptyString then
        Err (TypeError "Session ID must be a non-empty string")
      else if includes s NUL || includes s LF || includes s CR then
        Err (Error "Invalid session ID format: contains control characters")
      else if (255 <? String.length s)%nat then
        Err (Error "Session ID too long: maximum 255 characters allowed")
      else Ok (String.append (prefix st) s)
  | _ => Err (TypeError "Session ID must be a non-empty string")
  end.

(** [handleError(error, callback)]; every call site passes its [cb]. When
    [emit] throws, [handleError] throws with it and [callback] is not
    reached: [Err] is that throw, [Ok] what [callback] came to. *)
Definition handleError (st : Store) (error : JsError)
    (callback : option JsError -> Data -> M FnResult) : M (Result FnResult) :=
  run when (logErrors st) (log (ConsoleError error)) in
  let* heard := emit ByHandleError error in
  if heard then
    let* done := callback (Some error) DUndefined in
    ret (Ok done)
  else ret (Err error).

(** [promise.catch((error) => { this.handleError(error, cb); })], and the
    [catch] block of the [async] closure of [all]: what [handleError]
    throws there rejects a promise that nothing handles, and the closure
    never calls back. *)
Definition catch_async (st : Store) (error : JsError) : M FnResult :=
  let* r := handleError st error cb in
  match r with
  | Ok done => ret done
  | Err e =>
      run unhandledRejection e in
      ret FnNeverCalledBack
  end.

(** [catch (error) { this.handleError(error, cb); }] in the synchronous
    part of a closure: what [handleError] throws leaves the closure. *)
Definition catch_sync (st : Store) (error : JsError) : M FnResult :=
  let* r := handleError st error cb in
  match r with
  | Ok done => ret done
  | Err e => ret (FnThrew e)
  end.

(** The [catch] block inside the [then] handler of [get]: what
    [handleError] throws there rejects the promise of [then], and the
    [catch] handler chained to it calls [handleError] once more. *)
Definition catch_in_then (st : Store) (error : JsError) : M FnResult :=
  let* r := handleError st error cb in
  match r with
  | Ok done => ret done
  | Err e => catch_async st e
  end.

Definition truthy_expires (e : Expires) : bool :=
  match e with
  | ExpiresDate _ => true
  | ExpiresString s => negb (String.eqb s EmptyString)
  | ExpiresUndefined | ExpiresNull => false
  end.

Definition truthy_maxAge (m : MaxAge) : bool :=
  match m with
  | MaxAgeNumber ms => negb (ms =? 0)%Z
  | MaxAgeUndefined | MaxAgeNull => false
  end.

(** [expires instanceof Date ? expires.getTime() : new Date(expires).getTime()];
    [getTTL] asks for it only when [expires] is truthy. *)
Definition getTime (w : World) (e : Expires) : Z :=
  match e with
  | ExpiresDate t => t
  | ExpiresString s => dateParse w s
  | ExpiresUndefined | ExpiresNull => dateParse w EmptyString
  end.

Definition maxAge_ms (m : MaxAge) : Z :=
  match m with
  | MaxAgeNumber ms => ms
  | MaxAgeUndefined | MaxAgeNull => 0
  end.

Definition default_ttl (st : Store) (session : SessionData) : Z :=
  match ttl st with
  | TtlFunction f => f session
  | TtlNumber n => n
  end.

Definition getTTL (st : Store) (w : World) (session : SessionData) : Z :=
  if disableTTL st then -1
  else
    let now := now w in
    match cookie session with
    | Some c =>
        if truthy_expires (expires c) then
          let expires := getTime w (expires c) in
          let ttl := (expires - now) / 1000 in
          Z.max 0 ttl
        else if truthy_maxAge (maxAge c) then
          maxAge_ms (maxAge c) / 1000
        else default_ttl st session
    | None => default_ttl st session
    end.

Definition isCursorFinished (cursor : Cursor) : bool :=
  match cursor with
  | ClusterScanCursor state => finished state
  | SimpleCursor token => String.eqb token "0"
  end.

Definition initialCursor (w : World) : Cursor :=
  if isCluster w then ClusterScanCursor {| cursorId := "0"; finished := false |}
  else SimpleCursor "0".

(** The do-while loop of [scanKeys]. Every step consumes one scripted
    reply, so [fuel] beyond the length of the script is never used up. *)
Fixpoint scanKeys_loop (fuel : nat) (st : Store) (pattern : string)
    (cursor : Cursor) (keys : list string) : M (Result (list string)) :=
  match fuel with
  | O => ret (Err (Error "scan did not finish"))
  | S fuel' =>
      let* reply := Client.scan cursor pattern (scanCount st) in
      match reply with
      | ScanFail e => ret (Err e)
      | ScanOk nextCursor scanKeys =>
          let keys := (keys ++ scanKeys)%list in
          let cursor := nextCursor in
          if isCursorFinished cursor then ret (Ok keys)
          else scanKeys_loop fuel' st pattern cursor keys
      end
  end.

Definition scanKeys {A : Type} (st : Store) (pattern : string)
    (onComplete : list string -> M A) : M (Result A) :=
  fun w =>
    let (r, w') :=
      scanKeys_loop (S (List.length (scanReplies w))) st pattern
        (initialCursor w) [] w in
    match r with
    | Ok keys => let (a, w'') := onComplete keys w' in (Ok a, w'')
    | Err e => (Err e, w')
    end.

(** The do-while loop of [scanAndProcessKeys]; [acc] is the state the
    batch handler closes over. *)
Fixpoint scanAndProcessKeys_loop {A : Type} (fuel : nat) (st : Store)
    (pattern : string) (onBatch : list string -> A -> M (Result A))
    (cursor : Cursor) (acc : A) : M (Result A) :=
  match fuel with
  | O => ret (Err (Error "scan did not finish"))
  | S fuel' =>
      let* reply := Client.scan cursor pattern (scanCount st) in
      match reply with
      | ScanFail e => ret (Err e)
      | ScanOk nextCursor scanKeys =>
          let* r := (if (0 <? List.length scanKeys)%nat
                     then onBatch scanKeys acc else ret (Ok acc)) in
          match r with
          | Err e => ret (Err e)
          | Ok acc' =>
              let cursor := nextCursor in
              if isCursorFinished cursor then ret (Ok acc')
              else scanAndProcessKeys_loop fuel' st pattern onBatch cursor acc'
          end
      end
  end.

Definition scanAndProcessKeys {A : Type} (st : Store) (pattern : string)
    (onBatch : list string -> A -> M (Result A)) (acc : A) : M (Result A) :=
  fun w =>
    scanAndProcessKeys_loop (S (List.length (scanReplies w))) st pattern
      onBatch (initialCursor w) acc w.

(** *** The operations *)

Definition get_fn (st : Store) (sid : JsValue) : M FnResult :=
  match key st sid with
  | Err e => ret (FnThrew e)
  | Ok key =>
      let* r := Client.get key in
      match r with
      | Err error => catch_async st error
      | Ok None => cb None DNull
      | Ok (Some data) =>
          if String.eqb data EmptyString then cb None DNull
          else
            match parse (serializer st) data with
            | ParseReturn parseResult => cb None (DSession parseResult)
            | ParseThrow error => catch_in_then st error
            | ParseResolve session => cb None (DSession session)
            | ParseReject error => catch_async st error
            end
      end
  end.

Definition get (st : Store) (sid : JsValue) (callback : Callback)
    : M Outcome :=
  optionalCb (get_fn st sid) callback true.

Definition set_fn (st : Store) (sid : JsValue) (session : SessionData)
    : M FnResult :=
  match key st sid with
  | Err e => ret (FnThrew e)
  | Ok key =>
      let* ttl := (fun w => (getTTL st w session, w)) in
      if (ttl <=? 0)%Z && negb (disableTTL st) then
        let* r := Client.del [key] in
        match r with
        | Ok _ => cb None DUndefined
        | Err error => catch_async st error
        end
      else
        match stringify (serializer st) session with
        | Err error => catch_sync st error
        | Ok sessionData =>
            let setOptions := if (0 <? ttl)%Z then Some ttl else None in
            let* r := Client.set key sessionData setOptions in
            match r with
            | Ok _ => cb None DUndefined
            | Err error => catch_async st error
            end
        end
  end.

Definition set (st : Store) (sid : JsValue) (session : SessionData)
    (callback : Callback) : M Outcome :=
  optionalCb (set_fn st sid session) callback true.

Definition destroy_fn (st : Store) (sid : JsValue) : M FnResult :=
  match key st sid with
  | Err e => ret (FnThrew e)
  | Ok key =>
      let* r := Client.del [key] in
      match r with
      | Ok _ => cb None DUndefined
      | Err error => catch_async st error
      end
  end.

Definition destroy (st : Store) (sid : JsValue) (callback : Callback)
    : M Outcome :=
  optionalCb (destroy_fn st sid) callback true.

Definition touch_fn (st : Store) (sid : JsValue) (session : SessionData)
    : M FnResult :=
  match key st sid with
  | Err e => ret (FnThrew e)
  | Ok key =>
      let* ttl := (fun w => (getTTL st w session, w)) in
      let* r := Client.expire key ttl in
      match r with
      | Ok _ => cb None DUndefined
      | Err error => catch_async st error
      end
  end.

Definition touch (st : Store) (sid : JsValue) (session : SessionData)
    (callback : Callback) : M Outcome :=
  if disableTouch st then
    ret {| callbackArgs := match callback with
                           | WithCallback => [(None, DUndefined)]
                           | NoCallback => []
                           end;
           returned := Resolved DUndefined |}
  else optionalCb (touch_fn st sid session) callback true.

(** A parse that answered with a Promise: what its [then]/[catch] chain
    does once [Promise.all] is awaited. *)
Inductive Deferred : Type :=
| DeferStore (sid : string) (session : SessionData)
| DeferWarn (key : string).

(** [values.forEach((data, index) => ...)]: [mget] answers one value per
    key of the chunk, so [data] is paired with [chunk[index]]. *)
Fixpoint all_forEach (st : Store) (entries : list (string * option string))
    (sessions : SessionMap) (parsePromises : list Deferred)
    : M (SessionMap * list Deferred) :=
  match entries with
  | [] => ret (sessions, parsePromises)
  | (chunk_index, None) :: rest =>
      all_forEach st rest sessions parsePromises
  | (chunk_index, Some data) :: rest =>
      if String.eqb data EmptyString then all_forEach st rest sessions parsePromises
      else
        let sid := replace_first (prefix st) chunk_index in
        match parse (serializer st) data with
        | ParseReturn parseResult =>
            all_forEach st rest (assign sid parseResult sessions) parsePromises
        | ParseThrow _ =>
            run when (logErrors st) (log (WarnInvalidSession chunk_index)) in
            all_forEach st rest sessions parsePromises
        | ParseResolve session =>
            all_forEach st rest sessions
              (parsePromises ++ [DeferStore sid session])
        | ParseReject _ =>
            all_forEach st rest sessions
              (parsePromises ++ [DeferWarn chunk_index])
        end
  end.

(** [await Promise.all(parsePromises)], the promises settling in order. *)
Fixpoint all_settle (st : Store) (parsePromises : list Deferred)
    (sessions : SessionMap) : M (SessionMap) :=
  match parsePromises with
  | [] => ret sessions
  | DeferStore sid session :: rest =>
      all_settle st rest (assign sid session sessions)
  | DeferWarn key :: rest =>
      run when (logErrors st) (log (WarnInvalidSession key)) in
      all_settle st rest sessions
  end.

Definition MAX_BATCH_SIZE : nat := 1000.

(** [for (let i = 0; i < keys.length; i += MAX_BATCH_SIZE)]; the loop runs
    at most [keys.length] times, which is the fuel it is given. *)
Fixpoint all_chunks (fuel : nat) (st : Store) (keys : list string) (i : nat)
    (acc : SessionMap * Z)
    : M (Result (SessionMap * Z)) :=
  match fuel with
  | O => ret (Ok acc)
  | S fuel' =>
      if (i <? List.length keys)%nat then
        let chunk := take MAX_BATCH_SIZE (drop i keys) in
        let* r := Client.mget chunk in
        match r with
        | Err e => ret (Err e)
        | Ok values =>
            let* fe := all_forEach st (combine chunk values) (fst acc) [] in
            let* sessions := all_settle st (snd fe) (fst fe) in
            let totalProcessed := (snd acc + Z.of_nat (List.length chunk))%Z in
            run when ((10000 <? totalProcessed)%Z && logErrors st)
                  (log (WarnLargeDataset totalProcessed)) in
            all_chunks fuel' st keys (i + MAX_BATCH_SIZE)%nat
              (sessions, totalProcessed)
        end
      else ret (Ok acc)
  end.

Definition all_onBatch (st : Store) (keys : list string)
    (acc : SessionMap * Z)
    : M (Result (SessionMap * Z)) :=
  if (List.length keys =? 0)%nat then ret (Ok acc)
  else all_chunks (List.length keys) st keys 0 acc.

Definition all_fn (st : Store) : M FnResult :=
  let pattern := String.append (prefix st) "*" in
  let* r := scanAndProcessKeys st pattern (all_onBatch st) (no_sessions, 0%Z) in
  match r with
  | Ok acc => cb None (DSessions (fst acc))
  | Err error => catch_async st error
  end.

Definition all (st : Store) (callback : Callback) : M Outcome :=
  optionalCb (all_fn st) callback true.

Definition length_fn (st : Store) : M FnResult :=
  let pattern := String.append (prefix st) "*" in
  let* r := scanKeys st pattern
              (fun keys => cb None (DNumber (Z.of_nat (List.length keys)))) in
  match r with
  | Ok done => ret done
  | Err error => catch_async st error
  end.

Definition length (st : Store) (callback : Callback) : M Outcome :=
  optionalCb (length_fn st) callback true.

Definition ids_fn (st : Store) : M FnResult :=
  let pattern := String.append (prefix st) "*" in
  let* r := scanKeys st pattern
              (fun keys =>
                 let sessionIds := map (replace_first (prefix st)) keys in
                 cb None (DStrings sessionIds)) in
  match r with
  | Ok done => ret done
  | Err error => catch_async st error
  end.

Definition ids (st : Store) (callback : Callback) : M Outcome :=
  optionalCb (ids_fn st) callback true.

Definition clear_fn (st : Store) : M FnResult :=
  let pattern := String.append (prefix st) "*" in
  let* r := scanKeys st pattern
              (fun keys =>
                 if (List.length keys =? 0)%nat then cb None DUndefined
                 else
                   let* r := Client.del keys in
                   match r with
                   | Ok _ => cb None DUndefined
                   | Err error => catch_async st error
                   end) in
  match r with
  | Ok done => ret done
  | Err error => catch_async st error
  end.

Definition clear (st : Store) (callback : Callback) : M Outcome :=
  optionalCb (clear_fn st) callback true.

(** [load(sid, callback)]: [get] with a wrapping callback; the promise
    that [get] returns is dropped. *)
Record LoadOutcome : Type := {
  load_callbackArgs : list (option JsError * Data);
  load_unhandledRejection : option JsError
}.

Definition load_callback (args : option JsError * Data)
    : option JsError * Data :=
  match args with
  | (Some err, _) => (Some err, DUndefined)
  | (None, DNull) => (None, DUndefined)
  | (None, session) => (None, session)
  end.

Definition load (st : Store) (sid : JsValue) : M LoadOutcome :=
  let* o := get st sid WithCallback in
  ret {| load_callbackArgs := map load_callback (callbackArgs o);
         load_unhandledRejection := match returned o with
                                    | Rejected e => Some e
                                    | Resolved _ | Pending => None
                                    end |}.

End ValkeyStore.

(** ** The specification's reading of the TTL rule

    The same priority order as [getTTL], with "present" read as "the field
    holds a date, a string or a number". *)

Definition expires_present (e : Expires) : bool :=
  match e with
  | ExpiresDate _ | ExpiresString _ => true
  | ExpiresUndefined | ExpiresNull => false
  end.

Definition maxAge_present (m : MaxAge) : bool :=
  match m with
  | MaxAgeNumber _ => true
  | MaxAgeUndefined | MaxAgeNull => false
  end.

Definition getTTL_as_specified (st : Store) (w : World) (record : SessionData)
    : Z :=
  match cookie record with
  | Some c =>
      if expires_present (expires c) then
        Z.max 0 ((ValkeyStore.getTime w (expires c) - now w) / 1000)
      else if maxAge_present (maxAge c) then
        ValkeyStore.maxAge_ms (maxAge c) / 1000
      else ValkeyStore.default_ttl st record
  | None => ValkeyStore.default_ttl st record
  end.

(** ** Sample stores, worlds and records *)

Module Sample.

Definition plain : SessionData :=
  {| cookie := Some {| expires := ExpiresUndefined; maxAge := MaxAgeUndefined |};
     fields := [("foo", "bar")] |}.

Definition with_expires (t : Z) : SessionData :=
  {| cookie := Some {| expires := ExpiresDate t; maxAge := MaxAgeUndefined |};
     fields := [] |}.

Definition with_maxAge (ms : Z) : SessionData :=
  {| cookie := Some {| expires := ExpiresUndefined; maxAge := MaxAgeNumber ms |};
     fields := [] |}.

(** A codec that knows one record. *)
Definition codec : Serializer :=
  {| parse := fun s => if String.eqb s "{foo:bar}" then ParseReturn plain
                       else ParseThrow (Error "Unexpected token");
     stringify := fun _ => Ok "{foo:bar}" |}.

(** A codec for one record, which it writes as the empty string; any
    other record is not serializable, any other text does not parse. *)
Definition blank_codec : Serializer :=
  {| parse := fun s => if String.eqb s EmptyString then ParseReturn plain
                       else ParseThrow (Error "Unexpected token");
     stringify := fun r => if decide (r = plain) then Ok EmptyString
                           else Err (TypeError "cannot serialize") |}.

Definition options : ValkeyStoreOptions :=
  {| opt_prefix := None; opt_ttl := None; opt_disableTTL := None;
     opt_disableTouch := None; opt_scanCount := None;
     opt_logErrors := None; opt_serializer := None |}.

Definition store : Store := ValkeyStore.constructor codec options.

Definition store_noTTL : Store :=
  {| prefix := "sess:"; ttl := TtlNumber 86400; disableTTL := true;
     disableTouch := false; logErrors := true; scanCount := 100;
     serializer := codec |}.

Definition store_noTouch : Store :=
  {| prefix := "sess:"; ttl := TtlNumber 86400; disableTTL := false;
     disableTouch := true; logErrors := true; scanCount := 100;
     serializer := codec |}.

Definition store_quiet : Store :=
  {| prefix := "sess:"; ttl := TtlNumber 86400; disableTTL := false;
     disableTouch := false; logErrors := false; scanCount := 100;
     serializer := codec |}.

Definition store_blank : Store :=
  {| prefix := "sess:"; ttl := TtlNumber 86400; disableTTL := false;
     disableTouch := false; logErrors := true; scanCount := 100;
     serializer := blank_codec |}.

(** A client that answers, [replies] being scripted for its scans, and a
    store with an "error" listener attached. *)
Definition world (d : gmap string Entry) (replies : list ScanReply) : World :=
  {| db := d; isCluster := false; scanReplies := replies;
     faults := fun _ => None; calls := []; events := [];
     listening := true; unhandled := []; console := [];
     now := 1000000; dateParse := fun _ => 0 |}.

Definition empty_world : World := world ∅ [].

(** Every request to the client is refused; an "error" listener is
    attached to the store. *)
Definition offline_world : World :=
  {| db := ∅; isCluster := false; scanReplies := [];
     faults := fun _ => Some (RequestError "connection closed");
     calls := []; events := []; listening := true; unhandled := [];
     console := [];
     now := 1000000; dateParse := fun _ => 0 |}.

(** The same world with no "error" listener on the store, as it is right
    after the constructor. *)
Definition unheard (w : World) : World := with_listening false w.

(** A codec whose [stringify] throws (a record with a cycle, say). *)
Definition throwing_codec : Serializer :=
  {| parse := fun _ => ParseThrow (Error "Unexpected token");
     stringify := fun _ => Err (TypeError "Converting circular structure") |}.

Definition store_throwing : Store :=
  {| prefix := "sess:"; ttl := TtlNumber 86400; disableTTL := false;
     disableTouch := false; logErrors := true; scanCount := 100;
     serializer := throwing_codec |}.

(** One parsable and one unparsable entry, scanned in two steps. *)
Definition mixed_db : gmap string Entry :=
  {[ "sess:a" := {| value := "{foo:bar}"; expiry := None |};
     "sess:b" := {| value := "garbage"; expiry := None |} ]}.

Definition mixed_world : World :=
  world mixed_db [ScanOk (SimpleCursor "5") ["sess:a"];
                  ScanOk (SimpleCursor "0") ["sess:b"]].



(** One entry whose value is the empty string. *)
Definition blank_db : gmap string Entry :=
  {[ "sess:a" := {| value := EmptyString; expiry := None |} ]}.

Definition blank_world : World :=
  world blank_db [ScanOk (SimpleCursor "0") ["sess:a"]].

(** A client whose first scan fails. *)
Definition failing_scan_world : World :=
  world mixed_db [ScanFail (RequestError "connection closed")].




End Sample.

(** ** Every public operation at once *)

Inductive Operation : Type :=
| OpGet (sid : JsValue)
| OpSet (sid : JsValue) (session : SessionData)
| OpDestroy (sid : JsValue)
| OpTouch (sid : JsValue) (session : SessionData)
| OpAll
| OpLength
| OpIds
| OpClear.

Definition perform (st : Store) (op : Operation) (callback : Callback)
    : M Outcome :=
  match op with
  | OpGet sid => ValkeyStore.get st sid callback
  | OpSet sid session => ValkeyStore.set st sid session callback
  | OpDestroy sid => ValkeyStore.destroy st sid callback
  | OpTouch sid session => ValkeyStore.touch st sid session callback
  | OpAll => ValkeyStore.all st callback
  | OpLength => ValkeyStore.length st callback
  | OpIds => ValkeyStore.ids st callback
  | OpClear => ValkeyStore.clear st callback
  end.

(** The closure that an operation hands to [optionalCb]. *)
Definition fn_of (st : Store) (op : Operation) : M FnResult :=
  match op with
  | OpGet sid => ValkeyStore.get_fn st sid
  | OpSet sid session => ValkeyStore.set_fn st sid session
  | OpDestroy sid => ValkeyStore.destroy_fn st sid
  | OpTouch sid session => ValkeyStore.touch_fn st sid session
  | OpAll => ValkeyStore.all_fn st
  | OpLength => ValkeyStore.length_fn st
  | OpIds => ValkeyStore.ids_fn st
  | OpClear => ValkeyStore.clear_fn st
  end.

Definition sid_of (op : Operation) : option JsValue :=
  match op with
  | OpGet sid | OpSet sid _ | OpDestroy sid | OpTouch sid _ => Some sid
  | OpAll | OpLength | OpIds | OpClear => None
  end.

Definition is_touch (op : Operation) : bool :=
  match op with
  | OpTouch _ _ => true
  | _ => false
  end.

(** ** Session identifiers, in the words of the specification *)

Definition control_characters : list ascii := [NUL; LF; CR].

Inductive InvalidSid : JsValue -> Prop :=
| invalid_undefined : InvalidSid JsUndefined
| invalid_null : InvalidSid JsNull
| invalid_boolean b : InvalidSid (JsBoolean b)
| invalid_number n : InvalidSid (JsNumber n)
| invalid_object : InvalidSid JsObject
| invalid_empty : InvalidSid (JsString EmptyString)
| invalid_control s c :
    In c control_characters -> In c (list_ascii_of_string s) ->
    InvalidSid (JsString s)
| invalid_long s : (255 < String.length s)%nat -> InvalidSid (JsString s).

Inductive ValidationError : JsError -> Prop :=
| validation_type :
    ValidationError (TypeError "Session ID must be a non-empty string")
| validation_control :
    ValidationError
      (Error "Invalid session ID format: contains control characters")
| validation_long :
    ValidationError
      (Error "Session ID too long: maximum 255 characters allowed").

(** ** Outcomes, as a caller tells them apart *)

(** Success with value [data], seen through the callback or the promise. *)
Definition succeeded (callback : Callback) (data : Data) : Outcome :=
  match callback with
  | WithCallback =>
      {| callbackArgs := [(None, data)]; returned := Resolved DUndefined |}
  | NoCallback => {| callbackArgs := []; returned := Resolved data |}
  end.

(** Failure with [e], delivered to the callback or by rejection. *)
Definition failed (callback : Callback) (e : JsError) : Outcome :=
  match callback with
  | WithCallback =>
      {| callbackArgs := [(Some e, DUndefined)]; returned := Resolved DUndefined |}
  | NoCallback => {| callbackArgs := []; returned := Rejected e |}
  end.

(** A failure that reaches nobody: the callback is not invoked, and the
    promise of a call without callback never settles. *)
Definition undelivered (callback : Callback) : Outcome :=
  match callback with
  | WithCallback => {| callbackArgs := []; returned := Resolved DUndefined |}
  | NoCallback => {| callbackArgs := []; returned := Pending |}
  end.

(** The world after [handleError] on a store that is listened to. *)
Definition reported (st : Store) (e : JsError) (w : World) : World :=
  {| db := db w; isCluster := isCluster w; scanReplies := scanReplies w;
     faults := faults w; calls := calls w;
     events := events w ++ [(ByHandleError, e)];
     listening := listening w; unhandled := unhandled w;
     console := console w ++ (if logErrors st then [ConsoleError e] else []);
     now := now w; dateParse := dateParse w |}.

(** The world after [handleError] has thrown, in a promise chain, on a
    store that nobody listens to. *)
Definition dropped (st : Store) (e : JsError) (w : World) : World :=
  {| db := db w; isCluster := isCluster w; scanReplies := scanReplies w;
     faults := faults w; calls := calls w; events := events w;
     listening := listening w; unhandled := unhandled w ++ [e];
     console := console w ++ (if logErrors st then [ConsoleError e] else []);
     now := now w; dateParse := dateParse w |}.

(** The callback received what the promise settled with. *)
Definition same_result (with_cb without_cb : Outcome) : Prop :=
  match returned without_cb with
  | Resolved data => callbackArgs with_cb = [(None, data)]
  | Rejected e => callbackArgs with_cb = [(Some e, DUndefined)]
  | Pending => False
  end.

(** The events emitted between two worlds. *)
Definition emitted (w w' : World) : list (EmitSite * JsError) :=
  drop (List.length (events w)) (events w').

(** The client calls issued between two worlds. *)
Definition issued (w w' : World) : list ClientCall :=
  drop (List.length (calls w)) (calls w').

(** ** Scripts of scan replies *)

Definition reply_of (step : Cursor * list string) : ScanReply :=
  ScanOk (fst step) (snd step).

Definition unfinished (step : Cursor * list string) : Prop :=
  ValkeyStore.isCursorFinished (fst step) = false.

(** The world after scan calls [cs], with [rest] left of the script. *)
Definition after_scans (w : World) (cs : list ClientCall)
    (rest : list ScanReply) : World :=
  {| db := db w; isCluster := isCluster w; scanReplies := rest;
     faults := faults w; calls := calls w ++ cs; events := events w;
     listening := listening w; unhandled := unhandled w;
     console := console w; now := now w; dateParse := dateParse w |}.

Definition scan_calls (st : Store) (pattern : string) (cursors : list Cursor)
    : list ClientCall :=
  map (fun cursor => CallScan cursor pattern (scanCount st)) cursors.

(** ** What the enumerating loops leave alone *)

(** The scan, multi-get and logging steps change the call trace, the
    script and the console only. *)
Record frame (w w1 : World) : Prop := {
  frame_db : db w1 = db w;
  frame_faults : faults w1 = faults w;
  frame_events : events w1 = events w;
  frame_listening : listening w1 = listening w
}.

(** The multi-get and logging steps leave the scan script alone too. *)
Record still (w w1 : World) : Prop := {
  still_frame : frame w w1;
  still_script : scanReplies w1 = scanReplies w
}.

Definition keeps {A : Type} (R : World -> World -> Prop) (m : M A) : Prop :=
  forall w, R w (snd (m w)).

Definition preserves {A : Type} (m : M A) : Prop := keeps frame m.

(** The error argument that [fn] called back with went through
    [handleError], which emitted it once. *)
Definition handled (r : FnResult) : list (EmitSite * JsError) :=
  match r with
  | FnCalledBack (Some e) _ => [(ByHandleError, e)]
  | FnCalledBack None _ | FnThrew _ | FnNeverCalledBack => []
  end.

Definition calls_back_well (r : FnResult) : Prop :=
  match r with
  | FnCalledBack (Some _) data => data = DUndefined
  | FnCalledBack None _ | FnThrew _ | FnNeverCalledBack => True
  end.

(** No event is delivered, no listener attached or removed. *)
Definition silent {A : Type} (m : M A) : Prop :=
  forall w, events (snd (m w)) = events w
            /\ listening (snd (m w)) = listening w.

Definition reports (m : M FnResult) : Prop :=
  forall w, events (snd (m w)) = (events w ++ handled (fst (m w)))%list
            /\ calls_back_well (fst (m w))
            /\ listening (snd (m w)) = listening w.

Definition called_back (r : FnResult) : Prop :=
  match r with
  | FnCalledBack _ _ => True
  | FnThrew _ | FnNeverCalledBack => False
  end.

(** With no listener attached, the closure does not call back with an
    error. *)
Definition mute (m : M FnResult) : Prop :=
  forall w, listening w = false ->
            forall e data, fst (m w) <> FnCalledBack (Some e) data.

(** With a listener attached, the closure calls back. *)
Definition calls_back (m : M FnResult) : Prop :=
  forall w, listening w = true -> called_back (fst (m w)).

(** ** What [all] reads off the stored keys *)


Definition stored (d : gmap string Entry) (k : string) : option string :=
  value <$> d !! k.







Definition under_prefix (st : Store) (K : list string) : Prop :=
  forall k, In k K -> String.prefix (prefix st) k = true.

(** The slices of at most [MAX_BATCH_SIZE] keys in which [all] fetches a
    batch, from index [i] on. *)
Fixpoint chunks_from (fuel : nat) (keys : list string) (i : nat)
    : list (list string) :=
  match fuel with
  | O => []
  | S fuel' =>
      if (i <? List.length keys)%nat then
        take ValkeyStore.MAX_BATCH_SIZE (drop i keys)
        :: chunks_from fuel' keys (i + ValkeyStore.MAX_BATCH_SIZE)
      else []
  end.

Definition chunks (keys : list string) : list (list string) :=
  chunks_from (List.length keys) keys 0.





(** ** Relations between the worlds before and after an operation *)

Definition same_db (w w1 : World) : Prop := db w1 = db w.

Definition same_console (w w1 : World) : Prop := console w1 = console w.

Definition same_faults (w w1 : World) : Prop := faults w1 = faults w.

(** Keys other than [k] hold what they held. *)
Definition same_elsewhere (k : string) (w w1 : World) : Prop :=
  forall k', k' <> k -> db w1 !! k' = db w !! k'.

(** The calls issued in between all satisfy [P]. *)
Definition calls_only (P : ClientCall -> Prop) (w w1 : World) : Prop :=
  exists cs, calls w1 = (calls w ++ cs)%list /\ Forall P cs.

(** A scan with the pattern and the count hint of the store. *)
Definition store_scan (st : Store) (c : ClientCall) : Prop :=
  exists cursor,
    c = CallScan cursor (String.append (prefix st) "*") (scanCount st).

(** A scan of the store, or a multi-get of 1 to [MAX_BATCH_SIZE] keys. *)
Definition scan_or_bounded_mget (st : Store) (c : ClientCall) : Prop :=
  store_scan st c
  \/ exists ks, c = CallMget ks
               /\ (0 < List.length ks <= ValkeyStore.MAX_BATCH_SIZE)%nat.

(** The operations that only read. *)
Definition reading (op : Operation) : bool :=
  match op with
  | OpGet _ | OpAll | OpLength | OpIds => true
  | OpSet _ _ | OpDestroy _ | OpTouch _ _ | OpClear => false
  end.

(** What a batch handler [h] without effects makes of the batches of a
    scan: empty batches are not handed over, the first failure ends it. *)
Fixpoint run_batches {A : Type} (h : list string -> A -> Result A) (acc : A)
    (batches : list (list string)) : Result A :=
  match batches with
  | [] => Ok acc
  | ks :: rest =>
      if (0 <? List.length ks)%nat then
        match h ks acc with
        | Ok acc' => run_batches h acc' rest
        | Err e => Err e
        end
      else run_batches h acc rest
  end.

Definition bad_sid : string := String "b" (String LF (String "d" EmptyString)).

(** * Properties *)

(** ** TTL calculator *)

Example getTTL_default : ValkeyStore.getTTL Sample.store Sample.empty_world Sample.plain = 86400.
Proof. reflexivity. Qed.

Example getTTL_future :
  ValkeyStore.getTTL Sample.store Sample.empty_world (Sample.with_expires 1060999) = 60.
Proof. reflexivity. Qed.

Example getTTL_negative_maxAge :
  ValkeyStore.getTTL Sample.store Sample.empty_world (Sample.with_maxAge (-1500)) = -2.
Proof. reflexivity. Qed.

(** C1, as stated, fails: a record whose [cookie.maxAge] is present and
    equal to 0 does not get [floor(0 / 1000) = 0] but the default ttl,
    because [getTTL] tests the field for truthiness. *)
Lemma getTTL_maxAge_zero_falls_back :
  ValkeyStore.getTTL Sample.store Sample.empty_world (Sample.with_maxAge 0) = 86400
  /\ getTTL_as_specified Sample.store Sample.empty_world (Sample.with_maxAge 0) = 0
  /\ ValkeyStore.getTTL Sample.store Sample.empty_world (Sample.with_maxAge 0)
     <> getTTL_as_specified Sample.store Sample.empty_world (Sample.with_maxAge 0).
Proof. repeat split; discriminate. Qed.

Lemma floor_div_1000 (x : Z) : 1000 * (x / 1000) <= x < 1000 * (x / 1000) + 1000.
Proof. pose proof (Z.div_mod x 1000) as H. pose proof (Z.mod_pos_bound x 1000). lia. Qed.

(** C1 (amended): with [disableTTL = false], [getTTL] returns
    [max(0, floor((expires - now) / 1000))] when [cookie.expires] is a Date
    or a non-empty string (never negative, and exactly 0 once [expires] is
    not after [now]); otherwise [floor(maxAge / 1000)], unclamped, when
    [cookie.maxAge] is a non-zero number; otherwise the configured default,
    which is applied to the whole record when it is a function. *)
Theorem getTTL_cases (st : Store) (w : World) (record : SessionData) :
  disableTTL st = false ->
  (forall c, cookie record = Some c ->
     ValkeyStore.truthy_expires (expires c) = true ->
     let t := ValkeyStore.getTime w (expires c) in
     ValkeyStore.getTTL st w record = Z.max 0 ((t - now w) / 1000)
     /\ 0 <= ValkeyStore.getTTL st w record
     /\ (t <= now w -> ValkeyStore.getTTL st w record = 0)
     /\ (now w < t ->
         1000 * ValkeyStore.getTTL st w record <= t - now w
           < 1000 * ValkeyStore.getTTL st w record + 1000))
  /\ (forall c ms, cookie record = Some c ->
     ValkeyStore.truthy_expires (expires c) = false ->
     maxAge c = MaxAgeNumber ms -> ms <> 0 ->
     ValkeyStore.getTTL st w record = ms / 1000
     /\ 1000 * ValkeyStore.getTTL st w record <= ms
          < 1000 * ValkeyStore.getTTL st w record + 1000
     /\ (ms < 0 -> ValkeyStore.getTTL st w record < 0))
  /\ ((cookie record = None \/
       exists c, cookie record = Some c
         /\ ValkeyStore.truthy_expires (expires c) = false
         /\ ValkeyStore.truthy_maxAge (maxAge c) = false) ->
     forall f n,
       (ttl st = TtlFunction f -> ValkeyStore.getTTL st w record = f record)
       /\ (ttl st = TtlNumber n -> ValkeyStore.getTTL st w record = n)).
Proof.
  intros Hd. unfold ValkeyStore.getTTL. rewrite Hd.
  split; [|split].
  - intros c Hc Ht. cbv zeta. rewrite Hc, Ht.
    set (t := ValkeyStore.getTime w (expires c)).
    pose proof (floor_div_1000 (t - now w)) as Hfl.
    repeat split; try lia.
  - intros c ms Hc Ht Hm Hnz. rewrite Hc, Ht, Hm. simpl.
    destruct (Z.eqb_spec ms 0) as [->|_]; [congruence|]. simpl.
    pose proof (floor_div_1000 ms) as Hfl.
    repeat split; try lia.
  - intros Hcase f n. unfold ValkeyStore.default_ttl.
    destruct Hcase as [Hc | (c & Hc & Ht & Hm)]; rewrite Hc; [|rewrite Ht, Hm];
      split; intros ->; reflexivity.
Qed.

Lemma getTTL_cases_witness :
  ValkeyStore.getTTL Sample.store Sample.empty_world (Sample.with_expires 5) = 0
  /\ ValkeyStore.getTTL Sample.store Sample.empty_world (Sample.with_maxAge 2500) = 2
  /\ ValkeyStore.getTTL Sample.store Sample.empty_world Sample.plain = 86400.
Proof.
  split; [|split].
  - pose proof (getTTL_cases Sample.store Sample.empty_world
                  (Sample.with_expires 5) eq_refl) as (Hexp & _ & _).
    destruct (Hexp _ eq_refl eq_refl) as (_ & _ & Hpast & _).
    apply Hpast. vm_compute. discriminate.
  - pose proof (getTTL_cases Sample.store Sample.empty_world
                  (Sample.with_maxAge 2500) eq_refl) as (_ & Hmax & _).
    destruct (Hmax _ 2500 eq_refl eq_refl eq_refl) as (Heq & _); [lia|].
    exact Heq.
  - pose proof (getTTL_cases Sample.store Sample.empty_world
                  Sample.plain eq_refl) as (_ & _ & Hdef).
    refine (proj2 (Hdef _ (fun _ => 0) 86400) eq_refl).
    right. eexists. repeat split; reflexivity.
Defined.

(** ** Key codec *)

Lemma includes_In (s : string) (c : ascii) :
  includes s c = true <-> In c (list_ascii_of_string s).
Proof.
  induction s as [|a s IH]; simpl.
  - split; [discriminate | tauto].
  - destruct (Ascii.eqb_spec a c) as [->|Hne].
    + split; auto.
    + rewrite IH. split; [auto | intros [?|?]; [contradiction | assumption]].
Qed.

Lemma key_rejects (st : Store) (sid : JsValue) :
  InvalidSid sid -> exists e, ValkeyStore.key st sid = Err e /\ ValidationError e.
Proof.
  intros Hinv. destruct Hinv as [| |b|n| | |s c Hc Hin|s Hlen]; simpl;
    try (eexists; split; [reflexivity | constructor]).
  - destruct (String.eqb s EmptyString); [eexists; split; [reflexivity | constructor]|].
    assert (includes s NUL || includes s LF || includes s CR = true) as ->.
    { apply includes_In in Hin. simpl in Hc.
      destruct Hc as [<-|[<-|[<-|[]]]]; rewrite Hin; simpl;
        rewrite ?orb_true_r; reflexivity. }
    eexists; split; [reflexivity | constructor].
  - destruct (String.eqb s EmptyString); [eexists; split; [reflexivity | constructor]|].
    destruct (includes s NUL || includes s LF || includes s CR);
      [eexists; split; [reflexivity | constructor]|].
    apply Nat.ltb_lt in Hlen. rewrite Hlen.
    eexists; split; [reflexivity | constructor].
Qed.

Lemma key_accepts (st : Store) (s : string) :
  ~ InvalidSid (JsString s) ->
  ValkeyStore.key st (JsString s) = Ok (String.append (prefix st) s).
Proof.
  intros Hval. simpl.
  destruct (String.eqb_spec s EmptyString) as [->|_]; [destruct Hval; constructor|].
  destruct (includes s NUL) eqn:H0.
  { destruct Hval. apply includes_In in H0.
    eapply invalid_control; [|exact H0]. simpl; auto. }
  destruct (includes s LF) eqn:H1.
  { destruct Hval. apply includes_In in H1.
    eapply invalid_control; [|exact H1]. simpl; auto. }
  destruct (includes s CR) eqn:H2.
  { destruct Hval. apply includes_In in H2.
    eapply invalid_control; [|exact H2]. simpl; auto. }
  simpl. destruct (Nat.ltb_spec 255 (String.length s)) as [Hlen|_];
    [destruct Hval; apply invalid_long; exact Hlen | reflexivity].
Qed.

Lemma key_Ok_valid (st : Store) (sid : JsValue) (k : string) :
  ValkeyStore.key st sid = Ok k ->
  exists s, sid = JsString s /\ k = String.append (prefix st) s
            /\ ~ InvalidSid sid.
Proof.
  intros Hk. destruct sid as [| |b|n|s|]; try discriminate.
  exists s. split; [reflexivity|].
  assert (~ InvalidSid (JsString s)) as Hval.
  { intros Hinv. destruct (key_rejects st _ Hinv) as (e & He & _). congruence. }
  rewrite (key_accepts st s Hval) in Hk. split; [congruence | exact Hval].
Qed.

(** An operation that reaches a failing [key(sid)] stops there. *)
Lemma fn_of_invalid (st : Store) (op : Operation) (sid : JsValue) (e : JsError) :
  sid_of op = Some sid -> ValkeyStore.key st sid = Err e ->
  forall w, fn_of st op w = (FnThrew e, w).
Proof.
  intros Hsid Hkey w.
  destruct op; simpl in Hsid; try discriminate; injection Hsid as ->; simpl;
    unfold ValkeyStore.get_fn, ValkeyStore.set_fn, ValkeyStore.destroy_fn,
      ValkeyStore.touch_fn; rewrite Hkey; reflexivity.
Qed.

Lemma perform_optionalCb (st : Store) (op : Operation) (callback : Callback) :
  is_touch op && disableTouch st = false ->
  perform st op callback = optionalCb (fn_of st op) callback true.
Proof.
  destruct op; simpl; try reflexivity.
  intros Hoff. unfold ValkeyStore.touch. rewrite Hoff. reflexivity.
Qed.

(** C5, as stated, fails for [touch]: with [disableTouch] the empty sid is
    not validated and the operation succeeds. *)
Lemma touch_disabled_accepts_empty_sid :
  InvalidSid (JsString EmptyString)
  /\ ValkeyStore.touch Sample.store_noTouch (JsString EmptyString) Sample.plain NoCallback
       Sample.empty_world
     = ({| callbackArgs := []; returned := Resolved DUndefined |},
        Sample.empty_world).
Proof. split; [constructor | reflexivity]. Qed.

(** C5 (amended): for every invalid sid (not a string, empty, containing
    NUL, LF or CR, or longer than 255 characters), [get], [set], [destroy],
    and [touch] when [disableTouch] is off, end in a rejection with the
    validation error thrown by [key], the callback is not invoked, and the
    world is untouched: no client call, no event, no log line. [load] drops
    that rejection and does not invoke its callback either. For a valid
    sid, [key(sid)] is [prefix + sid]. *)
Theorem invalid_sid_rejected (st : Store) (op : Operation) (sid : JsValue) :
  sid_of op = Some sid ->
  is_touch op && disableTouch st = false ->
  InvalidSid sid ->
  exists e,
    ValidationError e
    /\ ValkeyStore.key st sid = Err e
    /\ (forall callback w,
          perform st op callback w
          = ({| callbackArgs := []; returned := Rejected e |}, w))
    /\ (forall w,
          ValkeyStore.load st sid w
          = ({| ValkeyStore.load_callbackArgs := [];
                ValkeyStore.load_unhandledRejection := Some e |}, w))
    /\ (forall s, ~ InvalidSid (JsString s) ->
          ValkeyStore.key st (JsString s) = Ok (String.append (prefix st) s)).
Proof.
  intros Hsid Htouch Hinv.
  destruct (key_rejects st sid Hinv) as (e & Hkey & He).
  exists e. split; [exact He|]. split; [exact Hkey|].
  split; [|split].
  - intros callback w. rewrite perform_optionalCb by exact Htouch.
    unfold optionalCb, bind.
    destruct callback; rewrite (fn_of_invalid st op sid e Hsid Hkey); reflexivity.
  - intros w. unfold ValkeyStore.load, ValkeyStore.get, optionalCb, bind.
    pose proof (fn_of_invalid st (OpGet sid) sid e eq_refl Hkey w) as Hfn.
    simpl in Hfn. rewrite Hfn. reflexivity.
  - apply key_accepts.
Qed.

Lemma invalid_sid_rejected_witness :
  exists e,
    ValidationError e
    /\ ValkeyStore.key Sample.store (JsString bad_sid) = Err e
    /\ (forall callback w,
          perform Sample.store (OpGet (JsString bad_sid)) callback w
          = ({| callbackArgs := []; returned := Rejected e |}, w))
    /\ (forall w,
          ValkeyStore.load Sample.store (JsString bad_sid) w
          = ({| ValkeyStore.load_callbackArgs := [];
                ValkeyStore.load_unhandledRejection := Some e |}, w))
    /\ (forall s, ~ InvalidSid (JsString s) ->
          ValkeyStore.key Sample.store (JsString s)
          = Ok (String.append (prefix Sample.store) s)).
Proof.
  apply (invalid_sid_rejected Sample.store (OpGet (JsString bad_sid))
           (JsString bad_sid)).
  - reflexivity.
  - reflexivity.
  - apply (invalid_control _ LF); simpl; auto.
Defined.

(** ** The callback/promise adapter *)

Lemma optionalCb_success (fn : M FnResult) (callback : Callback) (w w1 : World)
    (data : Data) :
  fn w = (FnCalledBack None data, w1) ->
  optionalCb fn callback true w = (succeeded callback data, w1).
Proof.
  intros Hfn. unfold optionalCb, bind. destruct callback; rewrite Hfn; reflexivity.
Qed.

Lemma emit_heard (site : EmitSite) (e : JsError) (w : World) :
  listening w = true ->
  emit site e w = (true, with_events (events w ++ [(site, e)]) w).
Proof. intros Hl. unfold emit. rewrite Hl. reflexivity. Qed.

Lemma emit_unheard (site : EmitSite) (e : JsError) (w : World) :
  listening w = false -> emit site e w = (false, w).
Proof. intros Hl. unfold emit. rewrite Hl. reflexivity. Qed.

Lemma optionalCb_failure (fn : M FnResult) (callback : Callback) (w w1 : World)
    (e : JsError) :
  fn w = (FnCalledBack (Some e) DUndefined, w1) ->
  listening w1 = true ->
  optionalCb fn callback true w
  = (failed callback e,
     match callback with
     | NoCallback => with_events (events w1 ++ [(ByOptionalCb, e)]) w1
     | WithCallback => w1
     end).
Proof.
  intros Hfn Hl. unfold optionalCb, bind.
  destruct callback; rewrite Hfn; [|reflexivity].
  rewrite (emit_heard _ _ _ Hl). reflexivity.
Qed.

(** What [handleError] comes to, with and without a listener. *)
Lemma handleError_heard (st : Store) (e : JsError) (w : World) :
  listening w = true ->
  ValkeyStore.handleError st e cb w
  = (Ok (FnCalledBack (Some e) DUndefined),
     with_events (events (snd (when (logErrors st) (log (ConsoleError e)) w))
                  ++ [(ByHandleError, e)])
       (snd (when (logErrors st) (log (ConsoleError e)) w))).
Proof.
  intros Hl. unfold ValkeyStore.handleError, bind.
  destruct (when _ _ w) as [[] w1] eqn:Hlog.
  assert (listening w1 = true) as Hl1.
  { destruct (logErrors st); simpl in Hlog; injection Hlog as <-; exact Hl. }
  rewrite (emit_heard _ _ _ Hl1). reflexivity.
Qed.

Lemma handleError_unheard (st : Store) (e : JsError) (w : World) :
  listening w = false ->
  ValkeyStore.handleError st e cb w
  = (Err e, snd (when (logErrors st) (log (ConsoleError e)) w)).
Proof.
  intros Hl. unfold ValkeyStore.handleError, bind.
  destruct (when _ _ w) as [[] w1] eqn:Hlog.
  assert (listening w1 = false) as Hl1.
  { destruct (logErrors st); simpl in Hlog; injection Hlog as <-; exact Hl. }
  rewrite (emit_unheard _ _ _ Hl1). reflexivity.
Qed.

Lemma catch_async_heard (st : Store) (e : JsError) (w : World) :
  listening w = true ->
  ValkeyStore.catch_async st e w
  = (FnCalledBack (Some e) DUndefined,
     with_events (events (snd (when (logErrors st) (log (ConsoleError e)) w))
                  ++ [(ByHandleError, e)])
       (snd (when (logErrors st) (log (ConsoleError e)) w))).
Proof.
  intros Hl. unfold ValkeyStore.catch_async, bind.
  rewrite (handleError_heard st e w Hl). reflexivity.
Qed.

Lemma catch_sync_heard (st : Store) (e : JsError) (w : World) :
  listening w = true ->
  ValkeyStore.catch_sync st e w = ValkeyStore.catch_async st e w.
Proof.
  intros Hl. unfold ValkeyStore.catch_sync, ValkeyStore.catch_async, bind.
  rewrite (handleError_heard st e w Hl). reflexivity.
Qed.

Lemma catch_in_then_heard (st : Store) (e : JsError) (w : World) :
  listening w = true ->
  ValkeyStore.catch_in_then st e w = ValkeyStore.catch_async st e w.
Proof.
  intros Hl. unfold ValkeyStore.catch_in_then, ValkeyStore.catch_async, bind.
  rewrite (handleError_heard st e w Hl). reflexivity.
Qed.

Lemma issued_one (w : World) (c : ClientCall) :
  issued w (record_call c w) = [c].
Proof. unfold issued. simpl. rewrite drop_app_length. reflexivity. Qed.

(** ** Single-key operations on a client that answers *)

Lemma set_fn_deletes (st : Store) (sid : JsValue) (k : string)
    (session : SessionData) (w : World) :
  ValkeyStore.key st sid = Ok k ->
  disableTTL st = false ->
  ValkeyStore.getTTL st w session <= 0 ->
  faults w (CallDel [k]) = None ->
  ValkeyStore.set_fn st sid session w
  = (FnCalledBack None DUndefined,
     with_db (delete k (db w)) (record_call (CallDel [k]) w)).
Proof.
  intros Hk Hd Httl Hf. unfold ValkeyStore.set_fn. rewrite Hk.
  unfold bind. apply Z.leb_le in Httl. rewrite Httl, Hd. simpl.
  unfold Client.del, Client.request. rewrite Hf. reflexivity.
Qed.

Lemma set_fn_writes (st : Store) (sid : JsValue) (k data : string)
    (session : SessionData) (w : World) :
  ValkeyStore.key st sid = Ok k ->
  (disableTTL st = true \/ 0 < ValkeyStore.getTTL st w session) ->
  stringify (serializer st) session = Ok data ->
  let setOptions := if (0 <? ValkeyStore.getTTL st w session)%Z
                    then Some (ValkeyStore.getTTL st w session) else None in
  faults w (CallSet k data setOptions) = None ->
  ValkeyStore.set_fn st sid session w
  = (FnCalledBack None DUndefined,
     with_db (<[k := {| value := data; expiry := setOptions |}]> (db w))
       (record_call (CallSet k data setOptions) w)).
Proof.
  intros Hk Hcase Hs setOptions Hf. unfold ValkeyStore.set_fn. rewrite Hk.
  unfold bind.
  assert ((ValkeyStore.getTTL st w session <=? 0)%Z && negb (disableTTL st)
          = false) as ->.
  { destruct Hcase as [-> | Hpos]; [apply andb_false_r|].
    apply andb_false_intro1. apply Z.leb_gt. exact Hpos. }
  rewrite Hs. fold setOptions.
  unfold Client.set, Client.request. rewrite Hf. reflexivity.
Qed.

Lemma get_fn_absent (st : Store) (sid : JsValue) (k : string) (w : World) :
  ValkeyStore.key st sid = Ok k ->
  faults w (CallGet k) = None ->
  db w !! k = None ->
  ValkeyStore.get_fn st sid w = (FnCalledBack None DNull, record_call (CallGet k) w).
Proof.
  intros Hk Hf Hdb. unfold ValkeyStore.get_fn. rewrite Hk.
  unfold bind, Client.get, Client.request. rewrite Hf, Hdb. simpl.
  destruct w; reflexivity.
Qed.

Lemma get_fn_present (st : Store) (sid : JsValue) (k : string) (w : World)
    (e : Entry) :
  ValkeyStore.key st sid = Ok k ->
  faults w (CallGet k) = None ->
  db w !! k = Some e ->
  ValkeyStore.get_fn st sid w
  = (let w1 := record_call (CallGet k) w in
     if String.eqb (value e) EmptyString then (FnCalledBack None DNull, w1)
     else match parse (serializer st) (value e) with
          | ParseReturn session | ParseResolve session =>
              (FnCalledBack None (DSession session), w1)
          | ParseThrow error => ValkeyStore.catch_in_then st error w1
          | ParseReject error => ValkeyStore.catch_async st error w1
          end).
Proof.
  intros Hk Hf Hdb. unfold ValkeyStore.get_fn. rewrite Hk.
  unfold bind, Client.get, Client.request. rewrite Hf, Hdb. simpl.
  replace (with_db (db w) (record_call (CallGet k) w))
    with (record_call (CallGet k) w) by (destruct w; reflexivity).
  destruct (String.eqb (value e) EmptyString); [reflexivity|].
  destruct (parse (serializer st) (value e)); reflexivity.
Qed.

(** C2: for a valid sid and a client that answers, [set] with a derived
    TTL <= 0 and [disableTTL = false] issues one delete of the key and no
    write, so that a [get] right after yields null; otherwise it serializes
    the record and issues one write, with expiry [ttl] seconds when
    [ttl > 0] and with no expiry option when [disableTTL] is set (the TTL
    then being the sentinel -1). *)
Theorem set_deletes_or_writes (st : Store) (sid : JsValue) (k : string)
    (session : SessionData) (w : World) (callback : Callback) :
  ValkeyStore.key st sid = Ok k ->
  (forall c, faults w c = None) ->
  let ttl := ValkeyStore.getTTL st w session in
  (disableTTL st = false -> ttl <= 0 ->
     exists w1,
       ValkeyStore.set st sid session callback w
       = (succeeded callback DUndefined, w1)
       /\ issued w w1 = [CallDel [k]]
       /\ db w1 = delete k (db w)
       /\ forall callback',
            fst (ValkeyStore.get st sid callback' w1)
            = succeeded callback' DNull)
  /\ (forall data, stringify (serializer st) session = Ok data ->
      (disableTTL st = false -> 0 < ttl ->
         exists w1,
           ValkeyStore.set st sid session callback w
           = (succeeded callback DUndefined, w1)
           /\ issued w w1 = [CallSet k data (Some ttl)]
           /\ db w1 = <[k := {| value := data; expiry := Some ttl |}]> (db w))
      /\ (disableTTL st = true ->
         ttl = -1
         /\ exists w1,
           ValkeyStore.set st sid session callback w
           = (succeeded callback DUndefined, w1)
           /\ issued w w1 = [CallSet k data None]
           /\ db w1 = <[k := {| value := data; expiry := None |}]> (db w))).
Proof.
  intros Hk Hf ttl. split.
  - intros Hd Hle. eexists. split; [|split; [|split]].
    + apply optionalCb_success. apply (set_fn_deletes st sid k); auto.
    + apply (issued_one w).
    + reflexivity.
    + intros callback'. unfold ValkeyStore.get.
      erewrite optionalCb_success; [reflexivity|].
      apply (get_fn_absent st sid k); [exact Hk | apply Hf |].
      simpl. apply lookup_delete_eq.
  - intros data Hs. split.
    + intros Hd Hpos.
      pose proof (set_fn_writes st sid k data session w Hk (or_intror Hpos) Hs)
        as Hset. cbv zeta in Hset.
      apply Z.ltb_lt in Hpos. fold ttl in Hset. rewrite Hpos in Hset.
      eexists. split; [|split].
      * apply optionalCb_success. apply Hset. apply Hf.
      * apply (issued_one w).
      * reflexivity.
    + intros Hd.
      assert (ttl = -1) as Httl.
      { unfold ttl, ValkeyStore.getTTL. rewrite Hd. reflexivity. }
      split; [exact Httl|].
      pose proof (set_fn_writes st sid k data session w Hk (or_introl Hd) Hs)
        as Hset. cbv zeta in Hset.
      fold ttl in Hset. rewrite Httl in Hset. simpl in Hset.
      eexists. split; [|split].
      * apply optionalCb_success. apply Hset. apply Hf.
      * apply (issued_one w).
      * reflexivity.
Qed.

Lemma set_deletes_or_writes_witness :
  (exists w1,
     ValkeyStore.set Sample.store (JsString "abc") (Sample.with_expires 5)
       WithCallback Sample.empty_world
     = (succeeded WithCallback DUndefined, w1)
     /\ issued Sample.empty_world w1 = [CallDel ["sess:abc"]]
     /\ db w1 = delete "sess:abc" (db Sample.empty_world)
     /\ forall callback',
          fst (ValkeyStore.get Sample.store (JsString "abc") callback' w1)
          = succeeded callback' DNull)
  /\ (exists w1,
     ValkeyStore.set Sample.store (JsString "abc") Sample.plain
       WithCallback Sample.empty_world
     = (succeeded WithCallback DUndefined, w1)
     /\ issued Sample.empty_world w1
        = [CallSet "sess:abc" "{foo:bar}" (Some 86400)]
     /\ db w1 = <["sess:abc" := {| value := "{foo:bar}"; expiry := Some 86400 |}]>
                  (db Sample.empty_world))
  /\ (ValkeyStore.getTTL Sample.store_noTTL Sample.empty_world Sample.plain = -1
      /\ exists w1,
     ValkeyStore.set Sample.store_noTTL (JsString "abc") Sample.plain
       WithCallback Sample.empty_world
     = (succeeded WithCallback DUndefined, w1)
     /\ issued Sample.empty_world w1 = [CallSet "sess:abc" "{foo:bar}" None]
     /\ db w1 = <["sess:abc" := {| value := "{foo:bar}"; expiry := None |}]>
                  (db Sample.empty_world)).
Proof.
  split; [|split].
  - refine (proj1 (set_deletes_or_writes Sample.store (JsString "abc")
      "sess:abc" (Sample.with_expires 5) Sample.empty_world WithCallback
      eq_refl (fun _ => eq_refl)) eq_refl _).
    vm_compute. discriminate.
  - refine (proj1 (proj2 (set_deletes_or_writes Sample.store (JsString "abc")
      "sess:abc" Sample.plain Sample.empty_world WithCallback
      eq_refl (fun _ => eq_refl)) "{foo:bar}" eq_refl) eq_refl _).
    vm_compute. reflexivity.
  - refine (proj2 (proj2 (set_deletes_or_writes Sample.store_noTTL
      (JsString "abc") "sess:abc" Sample.plain Sample.empty_world WithCallback
      eq_refl (fun _ => eq_refl)) "{foo:bar}" eq_refl) eq_refl).
Defined.

(** C8 does not hold of the code: with a serializer whose [parse] inverts
    its [stringify] on every record it serializes, and which writes the
    record [Sample.plain] as the empty string, [set] of that record under
    a valid sid, with a derived TTL > 0, succeeds, and the [get] that
    follows yields null instead of the record: [get] takes the empty
    stored value for a missing key and does not consult [parse]. *)
Theorem set_then_get_empty_serialization :
  ValkeyStore.key Sample.store_blank (JsString "abc") = Ok "sess:abc"
  /\ disableTTL Sample.store_blank = false
  /\ 0 < ValkeyStore.getTTL Sample.store_blank Sample.empty_world Sample.plain
  /\ (forall r data, stringify (serializer Sample.store_blank) r = Ok data ->
        parse (serializer Sample.store_blank) data = ParseReturn r)
  /\ stringify (serializer Sample.store_blank) Sample.plain = Ok EmptyString
  /\ fst (ValkeyStore.set Sample.store_blank (JsString "abc") Sample.plain
            NoCallback Sample.empty_world)
     = succeeded NoCallback DUndefined
  /\ fst (ValkeyStore.get Sample.store_blank (JsString "abc") NoCallback
            (snd (ValkeyStore.set Sample.store_blank (JsString "abc")
                    Sample.plain NoCallback Sample.empty_world)))
     = succeeded NoCallback DNull
  /\ succeeded NoCallback DNull <> succeeded NoCallback (DSession Sample.plain).
Proof.
  repeat split; try discriminate.
  simpl. intros r data. destruct (decide (r = Sample.plain)) as [->|Hne];
    [|discriminate].
  intros [= <-]. reflexivity.
Qed.

(** X25: for a valid sid, a client that answers, [disableTTL = false], a
    derived TTL > 0, and a record that [stringify] writes as a non-empty
    string which [parse] reads back as that record (directly or through a
    promise), [set] followed by [get] yields that record. *)
Theorem set_then_get (st : Store) (sid : JsValue) (k data : string)
    (session : SessionData) (w : World) (callback callback' : Callback) :
  ValkeyStore.key st sid = Ok k ->
  (forall c, faults w c = None) ->
  disableTTL st = false ->
  0 < ValkeyStore.getTTL st w session ->
  stringify (serializer st) session = Ok data ->
  data <> EmptyString ->
  (parse (serializer st) data = ParseReturn session
   \/ parse (serializer st) data = ParseResolve session) ->
  exists w1,
    ValkeyStore.set st sid session callback w
    = (succeeded callback DUndefined, w1)
    /\ fst (ValkeyStore.get st sid callback' w1)
       = succeeded callback' (DSession session).
Proof.
  intros Hk Hf Hd Hpos Hs Hne Hparse.
  pose proof (set_fn_writes st sid k data session w Hk (or_intror Hpos) Hs)
    as Hset. cbv zeta in Hset. specialize (Hset (Hf _)).
  eexists. split; [apply optionalCb_success; exact Hset|].
  unfold ValkeyStore.get. erewrite optionalCb_success; [reflexivity|].
  erewrite (get_fn_present st sid k); [|exact Hk|apply Hf|apply lookup_insert_eq].
  simpl. destruct (String.eqb_spec data EmptyString) as [->|_]; [congruence|].
  destruct Hparse as [-> | ->]; reflexivity.
Qed.

Lemma set_then_get_witness :
  exists w1,
    ValkeyStore.set Sample.store (JsString "abc") Sample.plain NoCallback
      Sample.empty_world
    = (succeeded NoCallback DUndefined, w1)
    /\ fst (ValkeyStore.get Sample.store (JsString "abc") WithCallback w1)
       = succeeded WithCallback (DSession Sample.plain).
Proof.
  apply (set_then_get Sample.store (JsString "abc") "sess:abc" "{foo:bar}"
           Sample.plain Sample.empty_world NoCallback WithCallback).
  - reflexivity.
  - intros c. reflexivity.
  - reflexivity.
  - vm_compute. reflexivity.
  - reflexivity.
  - discriminate.
  - left. reflexivity.
Defined.

(** ** Touch *)

Lemma touch_fn_expires (st : Store) (sid : JsValue) (k : string)
    (session : SessionData) (w : World) :
  ValkeyStore.key st sid = Ok k ->
  exists r w1,
    ValkeyStore.touch_fn st sid session w = (r, w1)
    /\ issued w w1 = [CallExpire k (ValkeyStore.getTTL st w session)].
Proof.
  intros Hk. unfold ValkeyStore.touch_fn. rewrite Hk.
  unfold bind, Client.expire, Client.request.
  destruct (faults w _) as [e|].
  - unfold ValkeyStore.catch_async, ValkeyStore.handleError, bind, cb, ret,
      when, emit, log, unhandledRejection.
    destruct (logErrors st); simpl; destruct (listening w);
      do 2 eexists; (split; [reflexivity|]);
      unfold issued; simpl; rewrite drop_app_length; reflexivity.
  - destruct (db w !! k) as [e|]; [destruct (_ <=? 0)%Z|];
      do 2 eexists; (split; [reflexivity|]);
      unfold issued; simpl; rewrite drop_app_length; reflexivity.
Qed.

(** C4: with [disableTTL], [getTTL] is the sentinel -1 and [set] writes
    with no expiry option, but [touch] hands the sentinel to the
    set-expiry primitive: it calls [expire(key, -1)]. *)
Theorem touch_passes_sentinel_to_expire :
  disableTTL Sample.store_noTTL = true
  /\ ValkeyStore.getTTL Sample.store_noTTL Sample.empty_world Sample.plain = -1
  /\ issued Sample.empty_world
       (snd (ValkeyStore.set Sample.store_noTTL (JsString "abc") Sample.plain
               NoCallback Sample.empty_world))
     = [CallSet "sess:abc" "{foo:bar}" None]
  /\ issued Sample.empty_world
       (snd (ValkeyStore.touch Sample.store_noTTL (JsString "abc") Sample.plain
               NoCallback Sample.empty_world))
     = [CallExpire "sess:abc" (-1)].
Proof. repeat split. Qed.

(** With the key in place, that [expire(key, -1)] removes it. *)
Example touch_with_disableTTL_removes_session :
  let w1 := snd (ValkeyStore.set Sample.store_noTTL (JsString "abc")
                   Sample.plain NoCallback Sample.empty_world) in
  let w2 := snd (ValkeyStore.touch Sample.store_noTTL (JsString "abc")
                   Sample.plain NoCallback w1) in
  fst (ValkeyStore.get Sample.store_noTTL (JsString "abc") NoCallback w1)
  = succeeded NoCallback (DSession Sample.plain)
  /\ fst (ValkeyStore.get Sample.store_noTTL (JsString "abc") NoCallback w2)
     = succeeded NoCallback DNull.
Proof. vm_compute. split; reflexivity. Qed.

(** C9: with [disableTouch], [touch] returns at once for every sid, valid
    or not, and every record: [key] is not consulted, the world (client
    trace, database, events, console) is exactly as before, and the
    callback is invoked with no error, or the promise resolves. *)
Theorem touch_disabled_is_noop (st : Store) (sid : JsValue)
    (session : SessionData) (callback : Callback) (w : World) :
  disableTouch st = true ->
  ValkeyStore.touch st sid session callback w
  = (succeeded callback DUndefined, w)
  /\ issued w (snd (ValkeyStore.touch st sid session callback w)) = []
  /\ emitted w (snd (ValkeyStore.touch st sid session callback w)) = [].
Proof.
  intros Hoff. unfold ValkeyStore.touch. rewrite Hoff.
  unfold issued, emitted, ret. simpl. rewrite !drop_all.
  destruct callback; repeat split.
Qed.

Lemma touch_disabled_is_noop_witness :
  InvalidSid JsNull
  /\ ValkeyStore.touch Sample.store_noTouch JsNull Sample.plain WithCallback
       Sample.offline_world
     = (succeeded WithCallback DUndefined, Sample.offline_world).
Proof.
  split; [constructor|].
  apply (touch_disabled_is_noop Sample.store_noTouch JsNull Sample.plain
           WithCallback Sample.offline_world eq_refl).
Defined.

(** ** Scan engine *)

Lemma after_scans_step (w : World) (c : ClientCall) (cs : list ClientCall)
    (mid rest : list ScanReply) :
  after_scans (with_scanReplies mid (record_call c w)) cs rest
  = after_scans w (c :: cs) rest.
Proof. unfold after_scans. simpl. rewrite <- app_assoc. reflexivity. Qed.

Lemma scanKeys_loop_finishes (st : Store) (pattern : string)
    (c : Cursor) (ks : list string) (rest : list ScanReply)
    (steps : list (Cursor * list string)) :
  Forall unfinished steps ->
  ValkeyStore.isCursorFinished c = true ->
  forall fuel cursor keys w,
    (List.length steps < fuel)%nat ->
    scanReplies w = (map reply_of steps ++ ScanOk c ks :: rest)%list ->
    ValkeyStore.scanKeys_loop fuel st pattern cursor keys w
    = (Ok (keys ++ concat (map snd steps) ++ ks)%list,
       after_scans w (scan_calls st pattern (cursor :: map fst steps)) rest).
Proof.
  intros Hun Hfin. induction Hun as [|[c1 ks1] steps Hc1 Hun IH];
    intros fuel cursor keys w Hfuel Hscript;
    (destruct fuel as [|fuel]; [simpl in Hfuel; lia|]); simpl;
    unfold bind, Client.scan; rewrite Hscript; simpl.
  - rewrite Hfin. unfold ret. f_equal.
  - unfold unfinished in Hc1. simpl in Hc1. rewrite Hc1.
    rewrite (IH fuel c1 (keys ++ ks1)%list); [| simpl in Hfuel; lia | reflexivity].
    rewrite after_scans_step, <- !app_assoc. reflexivity.
Qed.

Lemma scanKeys_loop_fails (st : Store) (pattern : string) (e : JsError)
    (rest : list ScanReply) (steps : list (Cursor * list string)) :
  Forall unfinished steps ->
  forall fuel cursor keys w,
    (List.length steps < fuel)%nat ->
    scanReplies w = (map reply_of steps ++ ScanFail e :: rest)%list ->
    ValkeyStore.scanKeys_loop fuel st pattern cursor keys w
    = (Err e,
       after_scans w (scan_calls st pattern (cursor :: map fst steps)) rest).
Proof.
  intros Hun. induction Hun as [|[c1 ks1] steps Hc1 Hun IH];
    intros fuel cursor keys w Hfuel Hscript;
    (destruct fuel as [|fuel]; [simpl in Hfuel; lia|]); simpl;
    unfold bind, Client.scan; rewrite Hscript; simpl.
  - reflexivity.
  - unfold unfinished in Hc1. simpl in Hc1. rewrite Hc1.
    rewrite (IH fuel c1 (keys ++ ks1)%list); [| simpl in Hfuel; lia | reflexivity].
    rewrite after_scans_step. reflexivity.
Qed.

Lemma issued_after_scans (w : World) (cs : list ClientCall)
    (rest : list ScanReply) :
  issued w (after_scans w cs rest) = cs.
Proof. unfold issued. simpl. apply drop_app_length. Qed.

(** C3: when the scan primitive answers with steps whose cursors all fail
    the completion test and then with one whose cursor passes it,
    [scanKeys] issues one scan per step, each with the cursor returned by
    the step before (the first with the initial cursor of the topology),
    the pattern and [scanCount], stops right there, and hands over the
    concatenation of the keys of every step. The completion test of a
    string cursor is equality with "0", that of a cluster cursor is its
    own [isFinished]. When the primitive fails before any cursor passes
    the test, the enumeration is not complete: [scanKeys] fails with that
    error and hands over no keys. *)
Theorem scanKeys_collects (st : Store) (pattern : string)
    (steps : list (Cursor * list string)) (c : Cursor) (ks : list string)
    (rest : list ScanReply) (w : World) :
  Forall unfinished steps ->
  ValkeyStore.isCursorFinished c = true ->
  scanReplies w = (map reply_of steps ++ ScanOk c ks :: rest)%list ->
  (exists w',
     ValkeyStore.scanKeys st pattern ret w
     = (Ok (concat (map snd steps) ++ ks)%list, w')
     /\ issued w w'
        = scan_calls st pattern (ValkeyStore.initialCursor w :: map fst steps)
     /\ scanReplies w' = rest
     /\ db w' = db w /\ events w' = events w)
  /\ (forall token,
        ValkeyStore.isCursorFinished (SimpleCursor token) = true <-> token = "0")
  /\ (forall state,
        ValkeyStore.isCursorFinished (ClusterScanCursor state) = finished state)
  /\ (ValkeyStore.initialCursor w
      = if isCluster w
        then ClusterScanCursor {| cursorId := "0"; finished := false |}
        else SimpleCursor "0")
  /\ (forall e w0,
        scanReplies w0 = (map reply_of steps ++ ScanFail e :: rest)%list ->
        fst (ValkeyStore.scanKeys st pattern ret w0) = Err e).
Proof.
  intros Hun Hfin Hscript. split; [|split; [|split; [|split]]].
  - eexists. unfold ValkeyStore.scanKeys.
    rewrite (scanKeys_loop_finishes st pattern c ks rest steps Hun Hfin);
      [| rewrite Hscript, length_app, length_map; simpl; lia | exact Hscript].
    unfold ret. simpl. split; [reflexivity|].
    split; [apply issued_after_scans|]. repeat split.
  - intros token. simpl. apply String.eqb_eq.
  - reflexivity.
  - reflexivity.
  - intros e w0 Hscript0. unfold ValkeyStore.scanKeys.
    rewrite (scanKeys_loop_fails st pattern e rest steps Hun);
      [reflexivity | rewrite Hscript0, length_app, length_map; simpl; lia
      | exact Hscript0].
Qed.

Lemma scanKeys_collects_witness :
  exists w',
    ValkeyStore.scanKeys Sample.store "sess:*" ret
      (Sample.world ∅ [ScanOk (SimpleCursor "17") ["sess:a"; "sess:b"];
                       ScanOk (SimpleCursor "0") ["sess:c"]])
    = (Ok ["sess:a"; "sess:b"; "sess:c"], w')
    /\ issued (Sample.world ∅ [ScanOk (SimpleCursor "17") ["sess:a"; "sess:b"];
                               ScanOk (SimpleCursor "0") ["sess:c"]]) w'
       = [CallScan (SimpleCursor "0") "sess:*" 100;
          CallScan (SimpleCursor "17") "sess:*" 100]
    /\ scanReplies w' = []
    /\ db w' = ∅ /\ events w' = [].
Proof.
  refine (proj1 (scanKeys_collects Sample.store "sess:*"
            [(SimpleCursor "17", ["sess:a"; "sess:b"])] (SimpleCursor "0")
            ["sess:c"] [] (Sample.world ∅ _) _ eq_refl eq_refl)).
  constructor; [reflexivity | constructor].
Defined.

(** ** Frame lemmas for the enumerating loops *)

#[global] Instance frame_preorder : PreOrder frame.
Proof.
  split.
  - intros w. split; reflexivity.
  - intros w1 w2 w3 [] []. split; congruence.
Qed.

#[global] Instance still_preorder : PreOrder still.
Proof.
  split.
  - intros w. split; reflexivity.
  - intros w1 w2 w3 [] []. split; [etrans; eassumption | congruence].
Qed.

Section Keeps.
Context (R : World -> World -> Prop) `{!PreOrder R}.

Lemma keeps_ret {A : Type} (a : A) : keeps R (ret a).
Proof. intros w. reflexivity. Qed.

Lemma keeps_bind {A B : Type} (m : M A) (k : A -> M B) :
  keeps R m -> (forall a, keeps R (k a)) -> keeps R (bind m k).
Proof.
  intros Hm Hk w. unfold bind. specialize (Hm w).
  destruct (m w) as [a w1]. simpl in Hm. etrans; [exact Hm | apply Hk].
Qed.

Lemma keeps_when (b : bool) (m : M unit) : keeps R m -> keeps R (when b m).
Proof. intros Hm. destruct b; [exact Hm | apply keeps_ret]. Qed.
End Keeps.

Lemma keeps_frame {A : Type} (m : M A) : keeps still m -> preserves m.
Proof. intros Hm w. apply still_frame, Hm. Qed.

Lemma still_log (l : LogLine) : keeps still (log l).
Proof. intros w. repeat split. Qed.

Lemma still_mget (keys : list string) : keeps still (Client.mget keys).
Proof.
  intros w. unfold Client.mget, Client.request.
  destruct (faults w _); repeat split.
Qed.

Lemma preserves_scan (cursor : Cursor) (pattern : string) (count : Z) :
  preserves (Client.scan cursor pattern count).
Proof.
  intros w. unfold Client.scan. destruct (scanReplies w); split; reflexivity.
Qed.

Create HintDb frames.
#[local] Hint Resolve keeps_ret keeps_bind keeps_when still_log still_mget
  preserves_scan : frames.
#[local] Hint Unfold preserves : frames.
#[local] Hint Extern 1 (PreOrder _) => typeclasses eauto : frames.

Lemma preserves_scanKeys_loop (st : Store) (pattern : string) (fuel : nat) :
  forall cursor keys,
    preserves (ValkeyStore.scanKeys_loop fuel st pattern cursor keys).
Proof.
  induction fuel as [|fuel IH]; intros cursor keys; simpl.
  - apply keeps_ret, _.
  - apply keeps_bind; [apply _ | apply preserves_scan |].
    intros [c ks | e]; [|apply keeps_ret, _].
    destruct (ValkeyStore.isCursorFinished c); [apply keeps_ret, _ | apply IH].
Qed.

Lemma still_all_forEach (st : Store) (entries : list (string * option string)) :
  forall sessions parsePromises,
    keeps still (ValkeyStore.all_forEach st entries sessions parsePromises).
Proof.
  induction entries as [|[k [data|]] entries IH]; intros sessions promises;
    simpl; [apply keeps_ret, _ | | apply IH].
  destruct (String.eqb data EmptyString); [apply IH|].
  destruct (parse (serializer st) data); try apply IH.
  apply keeps_bind; [apply _ | apply keeps_when; [apply _ | apply still_log] |].
  intros _. apply IH.
Qed.

Lemma still_all_settle (st : Store) (parsePromises : list ValkeyStore.Deferred) :
  forall sessions, keeps still (ValkeyStore.all_settle st parsePromises sessions).
Proof.
  induction parsePromises as [|[sid r | k] rest IH]; intros sessions; simpl;
    [apply keeps_ret, _ | apply IH |].
  apply keeps_bind; [apply _ | apply keeps_when; [apply _ | apply still_log] |].
  intros _. apply IH.
Qed.

Lemma still_all_chunks (st : Store) (keys : list string) (fuel : nat) :
  forall i acc, keeps still (ValkeyStore.all_chunks fuel st keys i acc).
Proof.
  induction fuel as [|fuel IH]; intros i acc; simpl; [apply keeps_ret, _|].
  destruct (i <? List.length keys)%nat; [|apply keeps_ret, _].
  apply keeps_bind; [apply _ | apply still_mget |].
  intros [values | e]; [|apply keeps_ret, _].
  apply keeps_bind; [apply _ | apply still_all_forEach |]. intros fe.
  apply keeps_bind; [apply _ | apply still_all_settle |]. intros sessions.
  apply keeps_bind; [apply _ | apply keeps_when; [apply _ | apply still_log] |].
  intros _. apply IH.
Qed.

Lemma still_all_onBatch (st : Store) (keys : list string)
    (acc : SessionMap * Z) :
  keeps still (ValkeyStore.all_onBatch st keys acc).
Proof.
  unfold ValkeyStore.all_onBatch.
  destruct (List.length keys =? 0)%nat;
    [apply keeps_ret, _ | apply still_all_chunks].
Qed.

Lemma preserves_scanAndProcessKeys_loop {A : Type} (st : Store)
    (pattern : string) (onBatch : list string -> A -> M (Result A)) (fuel : nat) :
  (forall keys acc, preserves (onBatch keys acc)) ->
  forall cursor acc,
    preserves (ValkeyStore.scanAndProcessKeys_loop fuel st pattern onBatch cursor acc).
Proof.
  intros Hb. induction fuel as [|fuel IH]; intros cursor acc; simpl.
  - apply keeps_ret, _.
  - apply keeps_bind; [apply _ | apply preserves_scan |].
    intros [c ks | e]; [|apply keeps_ret, _].
    apply keeps_bind; [apply _ | |].
    + destruct (0 <? List.length ks)%nat; [apply Hb | apply keeps_ret, _].
    + intros [acc' | e]; [|apply keeps_ret, _].
      destruct (ValkeyStore.isCursorFinished c); [apply keeps_ret, _ | apply IH].
Qed.

(** ** The fuel of the loops is never used up *)

Lemma scanKeys_loop_fuel (st : Store) (pattern : string) (fuel1 : nat) :
  forall fuel2 cursor keys w,
    (List.length (scanReplies w) < fuel1)%nat ->
    (List.length (scanReplies w) < fuel2)%nat ->
    ValkeyStore.scanKeys_loop fuel1 st pattern cursor keys w
    = ValkeyStore.scanKeys_loop fuel2 st pattern cursor keys w.
Proof.
  induction fuel1 as [|fuel1 IH]; intros fuel2 cursor keys w H1 H2; [lia|].
  destruct fuel2 as [|fuel2]; [lia|]. simpl. unfold bind, Client.scan.
  destruct (scanReplies w) as [|[c ks | e] rest] eqn:Hscript; try reflexivity.
  destruct (ValkeyStore.isCursorFinished c); [reflexivity|].
  simpl in H1, H2. apply IH; simpl; lia.
Qed.

Lemma scanAndProcessKeys_loop_fuel {A : Type} (st : Store) (pattern : string)
    (onBatch : list string -> A -> M (Result A)) (fuel1 : nat) :
  (forall keys acc, keeps still (onBatch keys acc)) ->
  forall fuel2 cursor acc w,
    (List.length (scanReplies w) < fuel1)%nat ->
    (List.length (scanReplies w) < fuel2)%nat ->
    ValkeyStore.scanAndProcessKeys_loop fuel1 st pattern onBatch cursor acc w
    = ValkeyStore.scanAndProcessKeys_loop fuel2 st pattern onBatch cursor acc w.
Proof.
  intros Hb. induction fuel1 as [|fuel1 IH]; intros fuel2 cursor acc w H1 H2; [lia|].
  destruct fuel2 as [|fuel2]; [lia|]. simpl. unfold bind, Client.scan.
  destruct (scanReplies w) as [|[c ks | e] rest] eqn:Hscript; try reflexivity.
  set (w1 := with_scanReplies rest _).
  assert (keeps still (if (0 <? List.length ks)%nat then onBatch ks acc
                       else ret (Ok acc))) as Hstill.
  { destruct (0 <? List.length ks)%nat; [apply Hb | apply keeps_ret, _]. }
  specialize (Hstill w1). apply still_script in Hstill.
  destruct ((if (0 <? List.length ks)%nat then onBatch ks acc else ret (Ok acc)) w1)
    as [[acc' | e] w2]; [|reflexivity].
  destruct (ValkeyStore.isCursorFinished c); [reflexivity|].
  simpl in Hstill, H1, H2. apply IH; rewrite Hstill; simpl; lia.
Qed.

Lemma all_chunks_fuel (st : Store) (keys : list string) (fuel1 : nat) :
  forall fuel2 i acc w,
    (List.length keys - i <= fuel1)%nat ->
    (List.length keys - i <= fuel2)%nat ->
    ValkeyStore.all_chunks fuel1 st keys i acc w
    = ValkeyStore.all_chunks fuel2 st keys i acc w.
Proof.
  induction fuel1 as [|fuel1 IH]; intros fuel2 i acc w H1 H2.
  - destruct fuel2 as [|fuel2]; [reflexivity|]. simpl.
    destruct (Nat.ltb_spec i (List.length keys)); [lia | reflexivity].
  - destruct fuel2 as [|fuel2]; simpl;
      destruct (Nat.ltb_spec i (List.length keys)); try lia; try reflexivity.
    unfold bind. destruct (Client.mget _ w) as [[values | e] w1]; [|reflexivity].
    destruct (ValkeyStore.all_forEach _ _ _ _ w1) as [fe w2].
    destruct (ValkeyStore.all_settle _ _ _ w2) as [sessions w3].
    destruct (when _ _ w3) as [[] w4].
    apply IH; unfold ValkeyStore.MAX_BATCH_SIZE; lia.
Qed.

(** ** Every failure that is called back went through [handleError] *)

Lemma preserves_silent {A : Type} (m : M A) : preserves m -> silent m.
Proof.
  intros Hm w. split; [apply frame_events | apply frame_listening]; apply Hm.
Qed.

Lemma silent_request {A : Type} (c : ClientCall)
    (act : gmap string Entry -> A * gmap string Entry) :
  silent (Client.request c act).
Proof.
  intros w. unfold Client.request.
  destruct (faults w c); [split; reflexivity|].
  destruct (act (db w)). split; reflexivity.
Qed.

Lemma silent_log (b : bool) (l : LogLine) : silent (when b (log l)).
Proof. intros w. destruct b; split; reflexivity. Qed.

Lemma reports_cb (data : Data) : reports (cb None data).
Proof. intros w. simpl. rewrite app_nil_r. auto. Qed.

Lemma reports_threw (e : JsError) : reports (ret (FnThrew e)).
Proof. intros w. simpl. rewrite app_nil_r. auto. Qed.

Lemma reports_catch_async (st : Store) (error : JsError) :
  reports (ValkeyStore.catch_async st error).
Proof.
  intros w. destruct (silent_log (logErrors st) (ConsoleError error) w)
    as (Hev & Hli).
  destruct (listening w) eqn:Hl.
  - rewrite (catch_async_heard st error w Hl). simpl.
    rewrite Hev, Hli. auto.
  - unfold ValkeyStore.catch_async, bind.
    rewrite (handleError_unheard st error w Hl). simpl.
    rewrite Hev, Hli, app_nil_r. auto.
Qed.

Lemma reports_catch_sync (st : Store) (error : JsError) :
  reports (ValkeyStore.catch_sync st error).
Proof.
  intros w. destruct (listening w) eqn:Hl.
  - rewrite (catch_sync_heard st error w Hl), <- Hl. apply reports_catch_async.
  - destruct (silent_log (logErrors st) (ConsoleError error) w) as (Hev & Hli).
    unfold ValkeyStore.catch_sync, bind.
    rewrite (handleError_unheard st error w Hl). simpl.
    rewrite Hev, Hli, app_nil_r. auto.
Qed.

Lemma reports_catch_in_then (st : Store) (error : JsError) :
  reports (ValkeyStore.catch_in_then st error).
Proof.
  intros w. destruct (listening w) eqn:Hl.
  - rewrite (catch_in_then_heard st error w Hl), <- Hl.
    apply reports_catch_async.
  - destruct (silent_log (logErrors st) (ConsoleError error) w) as (Hev & Hli).
    unfold ValkeyStore.catch_in_then, bind.
    rewrite (handleError_unheard st error w Hl).
    rewrite <- Hev, <- Hl, <- Hli. apply reports_catch_async.
Qed.

Lemma reports_bind {A : Type} (m : M A) (k : A -> M FnResult) :
  silent m -> (forall a, reports (k a)) -> reports (bind m k).
Proof.
  intros Hm Hk w. unfold bind. destruct (Hm w) as (Hev & Hli).
  destruct (m w) as [a w1]. simpl in Hev, Hli. rewrite <- Hev, <- Hli. apply Hk.
Qed.

Lemma calls_back_cb (err : option JsError) (data : Data) : calls_back (cb err data).
Proof. intros w _. exact I. Qed.

Lemma calls_back_catch_async (st : Store) (error : JsError) :
  calls_back (ValkeyStore.catch_async st error).
Proof. intros w Hl. rewrite (catch_async_heard st error w Hl). exact I. Qed.

Lemma calls_back_catch_sync (st : Store) (error : JsError) :
  calls_back (ValkeyStore.catch_sync st error).
Proof.
  intros w Hl. rewrite (catch_sync_heard st error w Hl).
  apply calls_back_catch_async, Hl.
Qed.

Lemma calls_back_catch_in_then (st : Store) (error : JsError) :
  calls_back (ValkeyStore.catch_in_then st error).
Proof.
  intros w Hl. rewrite (catch_in_then_heard st error w Hl).
  apply calls_back_catch_async, Hl.
Qed.

Lemma calls_back_bind {A : Type} (m : M A) (k : A -> M FnResult) :
  silent m -> (forall a, calls_back (k a)) -> calls_back (bind m k).
Proof.
  intros Hm Hk w Hl. unfold bind. destruct (Hm w) as (_ & Hli).
  destruct (m w) as [a w1]. simpl in Hli. apply Hk. congruence.
Qed.

Lemma silent_getTTL (st : Store) (session : SessionData) :
  silent (fun w => (ValkeyStore.getTTL st w session, w)).
Proof. intros w. split; reflexivity. Qed.

#[local] Hint Resolve reports_cb reports_threw reports_catch_async
  reports_catch_sync reports_catch_in_then calls_back_cb
  calls_back_catch_async calls_back_catch_sync calls_back_catch_in_then
  silent_request silent_getTTL : frames.

(** [scanKeys] followed by the [.catch] that every caller attaches. *)
Lemma silent_scanKeys_loop (st : Store) (pattern : string) (fuel : nat)
    (cursor : Cursor) (keys : list string) :
  silent (ValkeyStore.scanKeys_loop fuel st pattern cursor keys).
Proof. apply preserves_silent, preserves_scanKeys_loop. Qed.

Lemma reports_scanKeys (st : Store) (pattern : string)
    (onComplete : list string -> M FnResult) :
  (forall keys, reports (onComplete keys)) ->
  reports (bind (ValkeyStore.scanKeys st pattern onComplete)
             (fun r => match r with
                       | Ok done => ret done
                       | Err error => ValkeyStore.catch_async st error
                       end)).
Proof.
  intros Hc w. unfold bind, ValkeyStore.scanKeys.
  destruct (silent_scanKeys_loop st pattern
              (S (List.length (scanReplies w))) (ValkeyStore.initialCursor w) [] w)
    as (Hev & Hli).
  destruct (ValkeyStore.scanKeys_loop _ _ _ _ _ w) as [[keys|e] w1];
    simpl in Hev, Hli.
  - specialize (Hc keys w1). destruct (onComplete keys w1) as [r w2].
    simpl in *. rewrite <- Hev, <- Hli. exact Hc.
  - rewrite <- Hev, <- Hli. apply reports_catch_async.
Qed.

Lemma calls_back_scanKeys (st : Store) (pattern : string)
    (onComplete : list string -> M FnResult) :
  (forall keys, calls_back (onComplete keys)) ->
  calls_back (bind (ValkeyStore.scanKeys st pattern onComplete)
                (fun r => match r with
                          | Ok done => ret done
                          | Err error => ValkeyStore.catch_async st error
                          end)).
Proof.
  intros Hc w Hl. unfold bind, ValkeyStore.scanKeys.
  destruct (silent_scanKeys_loop st pattern
              (S (List.length (scanReplies w))) (ValkeyStore.initialCursor w) [] w)
    as (_ & Hli).
  destruct (ValkeyStore.scanKeys_loop _ _ _ _ _ w) as [[keys|e'] w1];
    simpl in Hli.
  - specialize (Hc keys w1). destruct (onComplete keys w1) as [r w2].
    apply Hc. congruence.
  - apply calls_back_catch_async. congruence.
Qed.

Lemma silent_all_scan (st : Store) :
  silent (ValkeyStore.scanAndProcessKeys st (String.append (prefix st) "*")
            (ValkeyStore.all_onBatch st) (no_sessions, 0%Z)).
Proof.
  apply preserves_silent. intros w.
  apply preserves_scanAndProcessKeys_loop.
  intros keys acc. apply keeps_frame, still_all_onBatch.
Qed.

Lemma reports_fn_of (st : Store) (op : Operation) : reports (fn_of st op).
Proof.
  destruct op as [sid|sid session|sid|sid session| | | |]; simpl.
  - unfold ValkeyStore.get_fn. destruct (ValkeyStore.key st sid) as [k|e];
      [|apply reports_threw].
    apply reports_bind; [apply silent_request|].
    intros [[data|]|e]; auto with frames.
    destruct (String.eqb data EmptyString); auto with frames.
    destruct (parse (serializer st) data); auto with frames.
  - unfold ValkeyStore.set_fn. destruct (ValkeyStore.key st sid) as [k|e];
      [|apply reports_threw].
    apply reports_bind; [apply silent_getTTL|]. intros ttl.
    destruct ((ttl <=? 0)%Z && negb (disableTTL st)).
    + apply reports_bind; [apply silent_request|].
      intros [[]|e]; auto with frames.
    + destruct (stringify (serializer st) session) as [data|e]; auto with frames.
      apply reports_bind; [apply silent_request|].
      intros [[]|e]; auto with frames.
  - unfold ValkeyStore.destroy_fn. destruct (ValkeyStore.key st sid) as [k|e];
      [|apply reports_threw].
    apply reports_bind; [apply silent_request|].
    intros [[]|e]; auto with frames.
  - unfold ValkeyStore.touch_fn. destruct (ValkeyStore.key st sid) as [k|e];
      [|apply reports_threw].
    apply reports_bind; [apply silent_getTTL|]. intros ttl.
    apply reports_bind; [apply silent_request|].
    intros [[]|e]; auto with frames.
  - unfold ValkeyStore.all_fn. apply reports_bind; [apply silent_all_scan|].
    intros [acc|e]; auto with frames.
  - apply reports_scanKeys. auto with frames.
  - apply reports_scanKeys. auto with frames.
  - apply reports_scanKeys. intros keys.
    destruct (List.length keys =? 0)%nat; auto with frames.
    apply reports_bind; [apply silent_request|].
    intros [[]|e]; auto with frames.
Qed.

Lemma calls_back_fn_of (st : Store) (op : Operation) :
  (forall sid, sid_of op = Some sid -> exists k, ValkeyStore.key st sid = Ok k) ->
  calls_back (fn_of st op).
Proof.
  intros Hsid.
  destruct op as [sid|sid session|sid|sid session| | | |]; simpl;
    try (destruct (Hsid sid eq_refl) as (k & Hk)).
  - unfold ValkeyStore.get_fn. rewrite Hk.
    apply calls_back_bind; [apply silent_request|].
    intros [[data|]|e]; auto with frames.
    destruct (String.eqb data EmptyString); auto with frames.
    destruct (parse (serializer st) data); auto with frames.
  - unfold ValkeyStore.set_fn. rewrite Hk.
    apply calls_back_bind; [apply silent_getTTL|]. intros ttl.
    destruct ((ttl <=? 0)%Z && negb (disableTTL st)).
    + apply calls_back_bind; [apply silent_request|].
      intros [[]|e]; auto with frames.
    + destruct (stringify (serializer st) session) as [data|e]; auto with frames.
      apply calls_back_bind; [apply silent_request|].
      intros [[]|e]; auto with frames.
  - unfold ValkeyStore.destroy_fn. rewrite Hk.
    apply calls_back_bind; [apply silent_request|].
    intros [[]|e]; auto with frames.
  - unfold ValkeyStore.touch_fn. rewrite Hk.
    apply calls_back_bind; [apply silent_getTTL|]. intros ttl.
    apply calls_back_bind; [apply silent_request|].
    intros [[]|e]; auto with frames.
  - unfold ValkeyStore.all_fn. apply calls_back_bind; [apply silent_all_scan|].
    intros [acc|e]; auto with frames.
  - apply calls_back_scanKeys. auto with frames.
  - apply calls_back_scanKeys. auto with frames.
  - apply calls_back_scanKeys. intros keys.
    destruct (List.length keys =? 0)%nat; auto with frames.
    apply calls_back_bind; [apply silent_request|].
    intros [[]|e]; auto with frames.
Qed.

(** ** Callback mode against promise mode *)

(** What [optionalCb] makes of a closure that called back, in each mode,
    on a store that is listened to. *)
Lemma optionalCb_modes (fn : M FnResult) (w : World) :
  calls_back_well (fst (fn w)) ->
  called_back (fst (fn w)) ->
  listening (snd (fn w)) = true ->
  let with_cb := optionalCb fn WithCallback true w in
  let without_cb := optionalCb fn NoCallback true w in
  same_result (fst with_cb) (fst without_cb)
  /\ snd with_cb = snd (fn w)
  /\ snd without_cb
     = match returned (fst without_cb) with
       | Rejected e =>
           with_events (events (snd (fn w)) ++ [(ByOptionalCb, e)]) (snd (fn w))
       | Resolved _ | Pending => snd (fn w)
       end.
Proof.
  intros Hwell Hcalls Hl. unfold optionalCb, bind.
  destruct (fn w) as [[e | [e|] data |] w1]; simpl in *; try contradiction.
  - subst data. rewrite (emit_heard _ _ _ Hl). repeat split.
  - repeat split.
Qed.

(** Whether anyone listens or not, a success is seen alike in both modes. *)
Lemma optionalCb_success_modes (fn : M FnResult) (w : World) (data : Data) :
  let with_cb := optionalCb fn WithCallback true w in
  let without_cb := optionalCb fn NoCallback true w in
  (callbackArgs (fst with_cb) = [(None, data)]
   <-> returned (fst without_cb) = Resolved data)
  /\ (returned (fst without_cb) = Resolved data -> snd with_cb = snd without_cb).
Proof.
  unfold optionalCb, bind.
  destruct (fn w) as [[e | [e|] data' |] w1]; simpl.
  - split; [split|]; discriminate.
  - destruct (emit ByOptionalCb e w1) as [[] w2]; simpl;
      (split; [split|]; [intros [=] | discriminate | discriminate]).
  - split; [split|]; [intros [= ->] | intros [= ->] | ]; reflexivity.
  - split; [split|]; discriminate.
Qed.

(** C6, as stated, fails twice over. On an invalid sid, [get] with a
    callback never invokes it, while without one the promise rejects, and
    that promise-mode failure emits no "error" event. And on a store that
    nobody listens to, as it is after its construction, a failure is not
    delivered alike: when the client refuses the request, [handleError]
    throws at its [emit], so the callback is never invoked and the promise
    never settles; when [stringify] throws, the promise of [set] rejects in
    both modes, the callback is left out, and no event is emitted. *)
Lemma modes_differ_on_invalid_sid_and_unheard :
  (returned (fst (perform Sample.store (OpGet (JsString EmptyString)) NoCallback
                    Sample.empty_world))
   = Rejected (TypeError "Session ID must be a non-empty string")
   /\ callbackArgs (fst (perform Sample.store (OpGet (JsString EmptyString))
                           WithCallback Sample.empty_world)) = []
   /\ ~ same_result
         (fst (perform Sample.store (OpGet (JsString EmptyString)) WithCallback
                 Sample.empty_world))
         (fst (perform Sample.store (OpGet (JsString EmptyString)) NoCallback
                 Sample.empty_world))
   /\ emitted Sample.empty_world
        (snd (perform Sample.store (OpGet (JsString EmptyString)) NoCallback
                Sample.empty_world)) = [])
  /\ (ValkeyStore.key Sample.store (JsString "abc") = Ok "sess:abc"
      /\ fst (perform Sample.store (OpGet (JsString "abc")) WithCallback
                (Sample.unheard Sample.offline_world))
         = {| callbackArgs := []; returned := Resolved DUndefined |}
      /\ fst (perform Sample.store (OpGet (JsString "abc")) NoCallback
                (Sample.unheard Sample.offline_world))
         = {| callbackArgs := []; returned := Pending |}
      /\ emitted (Sample.unheard Sample.offline_world)
           (snd (perform Sample.store (OpGet (JsString "abc")) NoCallback
                   (Sample.unheard Sample.offline_world))) = []
      /\ unhandled
           (snd (perform Sample.store (OpGet (JsString "abc")) NoCallback
                   (Sample.unheard Sample.offline_world)))
         = [RequestError "connection closed"])
  /\ (fst (perform Sample.store_throwing (OpSet (JsString "abc") Sample.plain)
             WithCallback (Sample.unheard Sample.empty_world))
      = {| callbackArgs := [];
           returned := Rejected (TypeError "Converting circular structure") |}
      /\ fst (perform Sample.store_throwing (OpSet (JsString "abc") Sample.plain)
                NoCallback (Sample.unheard Sample.empty_world))
         = {| callbackArgs := [];
              returned := Rejected (TypeError "Converting circular structure") |}
      /\ emitted (Sample.unheard Sample.empty_world)
           (snd (perform Sample.store_throwing
                   (OpSet (JsString "abc") Sample.plain)
                   NoCallback (Sample.unheard Sample.empty_world))) = []).
Proof. repeat split. discriminate. Qed.

(** C6 (amended): for every public operation, the call with a callback and
    the call without one succeed together, with the same value and the
    same effects. When moreover the sid, if the operation takes one, passes
    [key] (or is never validated, [touch] being disabled) and an "error"
    listener is attached to the store, the two calls agree on failures
    too: the callback receives the value the promise resolves with, or the
    error it rejects with; the client sees the same calls and the
    database, the script and the console end up the same; and the
    promise-mode failure emits one more "error" event, after those of the
    callback mode. *)
Theorem dual_mode_equivalent (st : Store) (op : Operation) (w : World) :
  let with_cb := perform st op WithCallback w in
  let without_cb := perform st op NoCallback w in
  (forall data,
     (callbackArgs (fst with_cb) = [(None, data)]
      <-> returned (fst without_cb) = Resolved data)
     /\ (returned (fst without_cb) = Resolved data ->
         snd with_cb = snd without_cb))
  /\ ((forall sid, sid_of op = Some sid ->
         is_touch op && disableTouch st = true
         \/ exists k, ValkeyStore.key st sid = Ok k) ->
      listening w = true ->
      same_result (fst with_cb) (fst without_cb)
      /\ db (snd with_cb) = db (snd without_cb)
      /\ calls (snd with_cb) = calls (snd without_cb)
      /\ scanReplies (snd with_cb) = scanReplies (snd without_cb)
      /\ console (snd with_cb) = console (snd without_cb)
      /\ events (snd without_cb)
         = (events (snd with_cb)
            ++ match returned (fst without_cb) with
               | Rejected e => [(ByOptionalCb, e)]
               | Resolved _ | Pending => []
               end)%list).
Proof.
  destruct (is_touch op && disableTouch st) eqn:Htouch.
  - destruct op; try discriminate. simpl in Htouch. cbv zeta. simpl.
    unfold ValkeyStore.touch. rewrite Htouch. simpl. split.
    + intros data. split; [split; intros [= <-]; reflexivity | reflexivity].
    + intros _ _. repeat split. symmetry. apply app_nil_r.
  - cbv zeta. rewrite !perform_optionalCb by exact Htouch. split.
    + intros data. apply optionalCb_success_modes.
    + intros Hsid Hl.
      assert (calls_back (fn_of st op)) as Hcalls.
      { apply calls_back_fn_of. intros sid Hop.
        destruct (Hsid sid Hop) as [Hfalse | Hk]; [congruence | exact Hk]. }
      destruct (reports_fn_of st op w) as (_ & Hwell & Hli).
      destruct (optionalCb_modes (fn_of st op) w Hwell (Hcalls w Hl))
        as (Hsame & Hwith & Hwithout); [congruence|].
      split; [exact Hsame|]. rewrite Hwith, Hwithout.
      destruct (returned _); simpl; rewrite ?app_nil_r; repeat split.
Qed.

Lemma dual_mode_equivalent_witness :
  same_result
    (fst (perform Sample.store (OpGet (JsString "abc")) WithCallback
            Sample.offline_world))
    (fst (perform Sample.store (OpGet (JsString "abc")) NoCallback
            Sample.offline_world))
  /\ calls (snd (perform Sample.store (OpGet (JsString "abc")) WithCallback
                   Sample.offline_world))
     = calls (snd (perform Sample.store (OpGet (JsString "abc")) NoCallback
                     Sample.offline_world))
  /\ events (snd (perform Sample.store (OpGet (JsString "abc")) NoCallback
                    Sample.offline_world))
     = (events (snd (perform Sample.store (OpGet (JsString "abc")) WithCallback
                       Sample.offline_world))
        ++ [(ByOptionalCb, RequestError "connection closed")])%list.
Proof.
  destruct (proj2 (dual_mode_equivalent Sample.store (OpGet (JsString "abc"))
                     Sample.offline_world))
    as (Hsame & _ & Hcalls & _ & _ & Hevents).
  - intros sid [= <-]. right. exists "sess:abc". reflexivity.
  - reflexivity.
  - split; [exact Hsame|]. split; [exact Hcalls | exact Hevents].
Defined.

Example get_offline_in_both_modes :
  fst (perform Sample.store (OpGet (JsString "abc")) WithCallback
         Sample.offline_world)
  = failed WithCallback (RequestError "connection closed")
  /\ fst (perform Sample.store (OpGet (JsString "abc")) NoCallback
            Sample.offline_world)
     = failed NoCallback (RequestError "connection closed").
Proof. split; reflexivity. Qed.




(** ** Bulk listing *)

Lemma string_drop_app (p s : string) :
  string_drop (String.length p) (String.append p s) = s.
Proof. induction p as [|a p IH]; [destruct s|]; simpl; auto. Qed.

Lemma prefix_app (p s : string) : String.prefix p (String.append p s) = true.
Proof.
  induction p as [|a p IH]; simpl; [destruct s; reflexivity|].
  destruct (ascii_dec a a); [exact IH | contradiction].
Qed.

Lemma replace_first_drop (p k : string) :
  String.prefix p k = true ->
  replace_first p k = string_drop (String.length p) k.
Proof.
  intros Hp. destruct k as [|a k].
  - destruct p; [reflexivity | discriminate].
  - change (replace_first p (String a k))
      with (if String.prefix p (String a k)
            then string_drop (String.length p) (String a k)
            else String a (replace_first p k)).
    rewrite Hp. reflexivity.
Qed.

Lemma prefix_drop (p : string) :
  forall k, String.prefix p k = true ->
            String.append p (string_drop (String.length p) k) = k.
Proof.
  induction p as [|a p IH]; intros k Hp; simpl.
  - destruct k; reflexivity.
  - destruct k as [|b k]; simpl in Hp; [discriminate|].
    destruct (ascii_dec a b) as [->|]; [|discriminate].
    change (String b (String.append p (string_drop (String.length p) k))
            = String b k).
    f_equal. apply IH. exact Hp.
Qed.

Lemma replace_first_prefix (p k : string) :
  String.prefix p k = true ->
  String.append p (replace_first p k) = k.
Proof.
  intros Hp. rewrite (replace_first_drop p k Hp). apply prefix_drop. exact Hp.
Qed.

Lemma replace_first_app (p s : string) :
  replace_first p (String.append p s) = s.
Proof.
  rewrite (replace_first_drop p _ (prefix_app p s)). apply string_drop_app.
Qed.

























(** *** The multi-gets of a listing *)

Lemma chunks_from_step (fuel : nat) (keys : list string) (i : nat) :
  (i < List.length keys)%nat ->
  chunks_from (S fuel) keys i
  = take ValkeyStore.MAX_BATCH_SIZE (drop i keys)
    :: chunks_from fuel keys (i + ValkeyStore.MAX_BATCH_SIZE).
Proof.
  intros Hlt. change (chunks_from (S fuel) keys i)
    with (if (i <? List.length keys)%nat
          then take ValkeyStore.MAX_BATCH_SIZE (drop i keys)
               :: chunks_from fuel keys (i + ValkeyStore.MAX_BATCH_SIZE)
          else []).
  apply Nat.ltb_lt in Hlt. rewrite Hlt. reflexivity.
Qed.

Lemma chunks_from_done (fuel : nat) (keys : list string) (i : nat) :
  (List.length keys <= i)%nat -> chunks_from fuel keys i = [].
Proof.
  intros Hge. destruct fuel as [|fuel]; [reflexivity|].
  change (chunks_from (S fuel) keys i)
    with (if (i <? List.length keys)%nat
          then take ValkeyStore.MAX_BATCH_SIZE (drop i keys)
               :: chunks_from fuel keys (i + ValkeyStore.MAX_BATCH_SIZE)
          else []).
  apply Nat.ltb_ge in Hge. rewrite Hge. reflexivity.
Qed.

(** The chunks are the batch, cut in pieces of 1 to [MAX_BATCH_SIZE] keys. *)
Lemma chunks_from_concat (keys : list string) (fuel : nat) :
  forall i, (List.length keys - i <= fuel)%nat ->
            concat (chunks_from fuel keys i) = drop i keys.
Proof.
  induction fuel as [|fuel IH]; intros i Hfuel.
  - simpl. rewrite drop_ge by lia. reflexivity.
  - destruct (Nat.lt_ge_cases i (List.length keys)) as [Hlt|Hge].
    + rewrite (chunks_from_step fuel keys i Hlt).
      change (concat (?c :: ?r)) with (c ++ concat r)%list.
      rewrite IH by (unfold ValkeyStore.MAX_BATCH_SIZE; lia).
      rewrite <- drop_drop. apply take_drop.
    + rewrite (chunks_from_done _ keys i Hge), drop_ge by lia. reflexivity.
Qed.

Lemma chunks_concat (keys : list string) : concat (chunks keys) = keys.
Proof. unfold chunks. rewrite chunks_from_concat by lia. apply drop_0. Qed.

Lemma chunks_from_bounded (keys : list string) (fuel : nat) :
  forall i,
    Forall (fun chunk =>
              (0 < List.length chunk <= ValkeyStore.MAX_BATCH_SIZE)%nat)
      (chunks_from fuel keys i).
Proof.
  induction fuel as [|fuel IH]; intros i; [constructor|].
  destruct (Nat.lt_ge_cases i (List.length keys)) as [Hlt|Hge].
  - rewrite (chunks_from_step fuel keys i Hlt). constructor; [|apply IH].
    rewrite length_take, length_drop. unfold ValkeyStore.MAX_BATCH_SIZE. lia.
  - rewrite (chunks_from_done _ keys i Hge). constructor.
Qed.







Lemma scan_answers (cursor : Cursor) (pattern : string) (count : Z)
    (r : ScanReply) (rest : list ScanReply) (w : World) :
  scanReplies w = r :: rest ->
  Client.scan cursor pattern count w
  = (r, with_scanReplies rest (record_call (CallScan cursor pattern count) w)).
Proof. intros Hs. unfold Client.scan. rewrite Hs. reflexivity. Qed.



(** *** A multi-get that the client refuses *)










(** Nor is an entry logged whose stored value is the empty string, which
    the codec does not parse: [all] passes over it like over a missing key. *)
Example all_passes_over_empty_value :
  parse (serializer Sample.store) EmptyString = ParseThrow (Error "Unexpected token")
  /\ fst (ValkeyStore.all Sample.store NoCallback Sample.blank_world)
     = succeeded NoCallback (DSessions no_sessions)
  /\ console (snd (ValkeyStore.all Sample.store NoCallback Sample.blank_world))
     = [].
Proof. vm_compute. repeat split. Qed.



(** * Further properties of the store *)

(** ** What every operation keeps *)

Section Kept.
Context (R : World -> World -> Prop) `{!PreOrder R} (st : Store).

Hypothesis kept_log :
  forall (b : bool) l, (b = true -> logErrors st = true) -> keeps R (when b (log l)).
Hypothesis kept_emit : forall site e, keeps R (emit site e).
Hypothesis kept_unhandled : forall e, keeps R (unhandledRejection e).
Hypothesis kept_scan :
  forall cursor,
    keeps R (Client.scan cursor (String.append (prefix st) "*") (scanCount st)).
Hypothesis kept_mget :
  forall ks, (0 < List.length ks <= ValkeyStore.MAX_BATCH_SIZE)%nat ->
             keeps R (Client.mget ks).
Hypothesis kept_del_keys : forall ks, keeps R (Client.del ks).

Lemma kept_handleError (e : JsError) : keeps R (ValkeyStore.handleError st e cb).
Proof.
  unfold ValkeyStore.handleError.
  apply keeps_bind; [apply _ | apply kept_log; auto |]. intros _.
  apply keeps_bind; [apply _ | apply kept_emit |]. intros [|].
  - apply keeps_bind; [apply _ | apply keeps_ret, _ |]. intros done.
    apply keeps_ret, _.
  - apply keeps_ret, _.
Qed.

Lemma kept_catch_async (e : JsError) : keeps R (ValkeyStore.catch_async st e).
Proof.
  unfold ValkeyStore.catch_async.
  apply keeps_bind; [apply _ | apply kept_handleError |].
  intros [done | e']; [apply keeps_ret, _|].
  apply keeps_bind; [apply _ | apply kept_unhandled |]. intros _.
  apply keeps_ret, _.
Qed.

Lemma kept_catch_sync (e : JsError) : keeps R (ValkeyStore.catch_sync st e).
Proof.
  unfold ValkeyStore.catch_sync.
  apply keeps_bind; [apply _ | apply kept_handleError |].
  intros [done | e']; apply keeps_ret, _.
Qed.

Lemma kept_catch_in_then (e : JsError) : keeps R (ValkeyStore.catch_in_then st e).
Proof.
  unfold ValkeyStore.catch_in_then.
  apply keeps_bind; [apply _ | apply kept_handleError |].
  intros [done | e']; [apply keeps_ret, _ | apply kept_catch_async].
Qed.

Lemma kept_optionalCb (fn : M FnResult) (callback : Callback) :
  keeps R fn -> keeps R (optionalCb fn callback true).
Proof.
  intros Hfn. unfold optionalCb.
  destruct callback; (apply keeps_bind; [apply _ | exact Hfn |]).
  - intros [e | [e|] data |]; try (apply keeps_ret, _).
    apply keeps_bind; [apply _ | apply kept_emit |].
    intros [|]; [apply keeps_ret, _|].
    apply keeps_bind; [apply _ | apply kept_unhandled |]. intros _.
    apply keeps_ret, _.
  - intros [e | err data |]; apply keeps_ret, _.
Qed.

Lemma kept_scanKeys_loop (fuel : nat) :
  forall cursor keys,
    keeps R (ValkeyStore.scanKeys_loop fuel st (String.append (prefix st) "*")
               cursor keys).
Proof.
  induction fuel as [|fuel IH]; intros cursor keys; simpl.
  - apply keeps_ret, _.
  - apply keeps_bind; [apply _ | apply kept_scan |].
    intros [c ks | e]; [|apply keeps_ret, _].
    destruct (ValkeyStore.isCursorFinished c); [apply keeps_ret, _ | apply IH].
Qed.

Lemma kept_scanKeys (onComplete : list string -> M FnResult) :
  (forall keys, keeps R (onComplete keys)) ->
  keeps R (bind (ValkeyStore.scanKeys st (String.append (prefix st) "*") onComplete)
             (fun r => match r with
                       | Ok done => ret done
                       | Err error => ValkeyStore.catch_async st error
                       end)).
Proof.
  intros Hc w. unfold bind, ValkeyStore.scanKeys.
  pose proof (kept_scanKeys_loop (S (List.length (scanReplies w)))
                (ValkeyStore.initialCursor w) [] w) as Hloop.
  destruct (ValkeyStore.scanKeys_loop _ _ _ _ _ w) as [[keys|e] w1]; simpl in Hloop.
  - specialize (Hc keys w1). destruct (onComplete keys w1) as [r w2].
    simpl in *. etrans; eassumption.
  - etrans; [exact Hloop | apply kept_catch_async].
Qed.

Lemma kept_all_forEach (entries : list (string * option string)) :
  forall sessions parsePromises,
    keeps R (ValkeyStore.all_forEach st entries sessions parsePromises).
Proof.
  induction entries as [|[k [data|]] entries IH]; intros sessions promises;
    simpl; [apply keeps_ret, _ | | apply IH].
  destruct (String.eqb data EmptyString); [apply IH|].
  destruct (parse (serializer st) data); try apply IH.
  apply keeps_bind; [apply _ | apply kept_log; auto |]. intros _. apply IH.
Qed.

Lemma kept_all_settle (parsePromises : list ValkeyStore.Deferred) :
  forall sessions, keeps R (ValkeyStore.all_settle st parsePromises sessions).
Proof.
  induction parsePromises as [|[sid r | k] rest IH]; intros sessions; simpl;
    [apply keeps_ret, _ | apply IH |].
  apply keeps_bind; [apply _ | apply kept_log; auto |]. intros _. apply IH.
Qed.

Lemma kept_all_chunks (keys : list string) (fuel : nat) :
  forall i acc, keeps R (ValkeyStore.all_chunks fuel st keys i acc).
Proof.
  induction fuel as [|fuel IH]; intros i acc; simpl; [apply keeps_ret, _|].
  destruct (Nat.ltb_spec i (List.length keys)) as [Hlt|]; [|apply keeps_ret, _].
  apply keeps_bind; [apply _ | |].
  { apply kept_mget. rewrite length_take, length_drop.
    unfold ValkeyStore.MAX_BATCH_SIZE. lia. }
  intros [values | e]; [|apply keeps_ret, _].
  apply keeps_bind; [apply _ | apply kept_all_forEach |]. intros fe.
  apply keeps_bind; [apply _ | apply kept_all_settle |]. intros sessions.
  apply keeps_bind; [apply _ | apply kept_log |].
  - intros Hb. apply andb_true_iff in Hb. tauto.
  - intros _. apply IH.
Qed.

Lemma kept_all_fn : keeps R (ValkeyStore.all_fn st).
Proof.
  unfold ValkeyStore.all_fn. apply keeps_bind; [apply _ | |].
  - intros w. unfold ValkeyStore.scanAndProcessKeys.
    generalize (S (List.length (scanReplies w))) (ValkeyStore.initialCursor w)
      (no_sessions, 0%Z).
    intros fuel. revert w. induction fuel as [|fuel IH]; intros w cursor acc; simpl.
    + reflexivity.
    + apply (keeps_bind R); [apply kept_scan |].
      intros [c ks | e]; [|apply keeps_ret, _].
      apply keeps_bind; [apply _ | |].
      * destruct (0 <? List.length ks)%nat; [|apply keeps_ret, _].
        unfold ValkeyStore.all_onBatch.
        destruct (List.length ks =? 0)%nat;
          [apply keeps_ret, _ | apply kept_all_chunks].
      * intros [acc' | e]; [|apply keeps_ret, _].
        destruct (ValkeyStore.isCursorFinished c); [apply keeps_ret, _|].
        intros w'. apply IH.
  - intros [acc|e]; [apply keeps_ret, _ | apply kept_catch_async].
Qed.

Lemma kept_length_fn : keeps R (ValkeyStore.length_fn st).
Proof. apply kept_scanKeys. intros keys. apply keeps_ret, _. Qed.

Lemma kept_ids_fn : keeps R (ValkeyStore.ids_fn st).
Proof. apply kept_scanKeys. intros keys. apply keeps_ret, _. Qed.

Lemma kept_clear_fn : keeps R (ValkeyStore.clear_fn st).
Proof.
  apply kept_scanKeys. intros keys.
  destruct (List.length keys =? 0)%nat; [apply keeps_ret, _|].
  apply keeps_bind; [apply _ | apply kept_del_keys |].
  intros [[]|e]; [apply keeps_ret, _ | apply kept_catch_async].
Qed.

(** Reading one sid, given what the read of its key keeps. *)
Section ReadKey.
Context (sid : JsValue).

Hypothesis kept_get : forall k, ValkeyStore.key st sid = Ok k -> keeps R (Client.get k).

Lemma kept_get_fn : keeps R (ValkeyStore.get_fn st sid).
Proof.
  unfold ValkeyStore.get_fn. destruct (ValkeyStore.key st sid) as [k|e] eqn:Hk;
    [|apply keeps_ret, _].
  apply keeps_bind; [apply _ | apply kept_get; reflexivity |].
  intros [[data|]|e]; [| apply keeps_ret, _ | apply kept_catch_async].
  destruct (String.eqb data EmptyString); [apply keeps_ret, _|].
  destruct (parse (serializer st) data);
    (apply keeps_ret, _ || apply kept_catch_async || apply kept_catch_in_then).
Qed.

Lemma kept_load : keeps R (ValkeyStore.load st sid).
Proof.
  unfold ValkeyStore.load. apply keeps_bind; [apply _ | |].
  - apply kept_optionalCb, kept_get_fn.
  - intros o. apply keeps_ret, _.
Qed.

End ReadKey.

(** Writing one sid, given what the writes on its key keep. *)
Section WriteKey.
Context (sid : JsValue).

Hypothesis kept_set :
  forall k data o, ValkeyStore.key st sid = Ok k -> keeps R (Client.set k data o).
Hypothesis kept_del : forall k, ValkeyStore.key st sid = Ok k -> keeps R (Client.del [k]).
Hypothesis kept_expire :
  forall k seconds, ValkeyStore.key st sid = Ok k -> keeps R (Client.expire k seconds).

Lemma kept_set_fn (session : SessionData) : keeps R (ValkeyStore.set_fn st sid session).
Proof.
  unfold ValkeyStore.set_fn. destruct (ValkeyStore.key st sid) as [k|e] eqn:Hk;
    [|apply keeps_ret, _].
  apply keeps_bind; [apply _ | intros w; reflexivity |]. intros ttl.
  destruct ((ttl <=? 0)%Z && negb (disableTTL st)).
  - apply keeps_bind; [apply _ | apply kept_del; reflexivity |].
    intros [[]|e]; [apply keeps_ret, _ | apply kept_catch_async].
  - destruct (stringify (serializer st) session) as [data|e];
      [|apply kept_catch_sync].
    apply keeps_bind; [apply _ | apply kept_set; reflexivity |].
    intros [[]|e]; [apply keeps_ret, _ | apply kept_catch_async].
Qed.

Lemma kept_destroy_fn : keeps R (ValkeyStore.destroy_fn st sid).
Proof.
  unfold ValkeyStore.destroy_fn. destruct (ValkeyStore.key st sid) as [k|e] eqn:Hk;
    [|apply keeps_ret, _].
  apply keeps_bind; [apply _ | apply kept_del; reflexivity |].
  intros [[]|e]; [apply keeps_ret, _ | apply kept_catch_async].
Qed.

Lemma kept_touch (session : SessionData) (callback : Callback) :
  keeps R (ValkeyStore.touch st sid session callback).
Proof.
  unfold ValkeyStore.touch. destruct (disableTouch st); [apply keeps_ret, _|].
  apply kept_optionalCb. unfold ValkeyStore.touch_fn.
  destruct (ValkeyStore.key st sid) as [k|e] eqn:Hk; [|apply keeps_ret, _].
  apply keeps_bind; [apply _ | intros w; reflexivity |]. intros ttl.
  apply keeps_bind; [apply _ | apply kept_expire; reflexivity |].
  intros [[]|e]; [apply keeps_ret, _ | apply kept_catch_async].
Qed.

End WriteKey.
End Kept.

#[global] Instance same_db_preorder : PreOrder same_db.
Proof. split; [intros w; reflexivity | intros w1 w2 w3; unfold same_db; congruence]. Qed.

#[global] Instance same_console_preorder : PreOrder same_console.
Proof.
  split; [intros w; reflexivity | intros w1 w2 w3; unfold same_console; congruence].
Qed.

#[global] Instance same_elsewhere_preorder (k : string) : PreOrder (same_elsewhere k).
Proof.
  split; [intros w k' _; reflexivity|].
  intros w1 w2 w3 H12 H23 k' Hne. rewrite (H23 k' Hne). apply H12, Hne.
Qed.

#[global] Instance calls_only_preorder (P : ClientCall -> Prop) :
  PreOrder (calls_only P).
Proof.
  split.
  - intros w. exists []. rewrite app_nil_r. split; [reflexivity | constructor].
  - intros w1 w2 w3 (cs1 & H1 & P1) (cs2 & H2 & P2). exists (cs1 ++ cs2)%list.
    split; [rewrite H2, H1, app_assoc; reflexivity | apply Forall_app; auto].
Qed.

Lemma calls_only_issued (P : ClientCall -> Prop) (w w1 : World) :
  calls_only P w w1 -> Forall P (issued w w1).
Proof.
  intros (cs & Hcs & HP). unfold issued. rewrite Hcs, drop_app_length. exact HP.
Qed.

(** What the requests keep. *)

Lemma request_same_console {A : Type} (c : ClientCall)
    (act : gmap string Entry -> A * gmap string Entry) :
  keeps same_console (Client.request c act).
Proof.
  intros w. unfold Client.request. destruct (faults w c); [reflexivity|].
  destruct (act (db w)). reflexivity.
Qed.

Lemma request_calls_only {A : Type} (P : ClientCall -> Prop) (c : ClientCall)
    (act : gmap string Entry -> A * gmap string Entry) :
  P c -> keeps (calls_only P) (Client.request c act).
Proof.
  intros HP w. exists [c]. split; [|repeat constructor; exact HP].
  unfold Client.request. destruct (faults w c); [reflexivity|].
  destruct (act (db w)). reflexivity.
Qed.

Lemma request_same_elsewhere {A : Type} (k : string) (c : ClientCall)
    (act : gmap string Entry -> A * gmap string Entry) :
  (forall d k', k' <> k -> snd (act d) !! k' = d !! k') ->
  keeps (same_elsewhere k) (Client.request c act).
Proof.
  intros Hact w k' Hne. unfold Client.request. destruct (faults w c); [reflexivity|].
  specialize (Hact (db w) k' Hne). destruct (act (db w)). exact Hact.
Qed.

Lemma scan_calls_only (P : ClientCall -> Prop) (cursor : Cursor)
    (pattern : string) (count : Z) :
  P (CallScan cursor pattern count) ->
  keeps (calls_only P) (Client.scan cursor pattern count).
Proof.
  intros HP w. exists [CallScan cursor pattern count].
  split; [|repeat constructor; exact HP].
  unfold Client.scan. destruct (scanReplies w); reflexivity.
Qed.

Lemma scan_keeps_db_console (cursor : Cursor) (pattern : string) (count : Z) :
  keeps same_db (Client.scan cursor pattern count)
  /\ keeps same_console (Client.scan cursor pattern count)
  /\ forall k, keeps (same_elsewhere k) (Client.scan cursor pattern count).
Proof.
  split; [|split; [|intros k]]; intros w; unfold Client.scan;
    destruct (scanReplies w); try reflexivity; intros k' _; reflexivity.
Qed.

Lemma read_keeps_db {A : Type} (c : ClientCall) (f : gmap string Entry -> A) :
  keeps same_db (Client.request c (fun d => (f d, d))).
Proof. intros w. unfold Client.request. destruct (faults w c); reflexivity. Qed.

Lemma log_emit_keep (R : World -> World -> Prop) :
  (forall w l, R w (snd (log l w))) ->
  (forall w es, R w (with_events es w)) ->
  (forall w e, R w (snd (unhandledRejection e w))) ->
  Reflexive R ->
  (forall (b : bool) l, keeps R (when b (log l)))
  /\ (forall site e, keeps R (emit site e))
  /\ (forall e, keeps R (unhandledRejection e)).
Proof.
  intros Hlog Hemit Hunh Hrefl. split; [|split].
  - intros [] l w; [apply Hlog | apply Hrefl].
  - intros site e w. unfold emit.
    destruct (listening w); [apply Hemit | apply Hrefl].
  - intros e w. apply Hunh.
Qed.

(** X1: [get], [all], [length], [ids] and [load] only read: whatever the
    client answers, the database after them is the database before. *)
Theorem reading_keeps_database (st : Store) (op : Operation)
    (callback : Callback) (w : World) :
  reading op = true ->
  db (snd (perform st op callback w)) = db w
  /\ forall sid, db (snd (ValkeyStore.load st sid w)) = db w.
Proof.
  intros Hread.
  destruct (log_emit_keep same_db) as (Hlog & Hemit & Hunh); try reflexivity.
  { apply _. }
  assert (forall cursor, keeps same_db
            (Client.scan cursor (String.append (prefix st) "*") (scanCount st)))
    as Hscan by (intros cursor; apply scan_keeps_db_console).
  split.
  - destruct op; try discriminate; simpl; apply (kept_optionalCb same_db); auto.
    + apply (kept_get_fn same_db st); auto. intros k _. apply read_keeps_db.
    + apply (kept_all_fn same_db st); auto. intros ks _. apply read_keeps_db.
    + apply (kept_length_fn same_db st); auto.
    + apply (kept_ids_fn same_db st); auto.
  - intros sid. apply (kept_load same_db st); auto.
    intros k _. apply read_keeps_db.
Qed.

Lemma reading_keeps_database_witness :
  db (snd (perform Sample.store OpAll NoCallback Sample.mixed_world))
  = db Sample.mixed_world.
Proof.
  apply (reading_keeps_database Sample.store OpAll NoCallback Sample.mixed_world).
  reflexivity.
Defined.

(** X2: a store built with [logErrors] off writes nothing to the console,
    whatever the operation and whatever the client answers. *)
Theorem quiet_store_never_logs (st : Store) (op : Operation)
    (callback : Callback) (w : World) :
  logErrors st = false ->
  console (snd (perform st op callback w)) = console w
  /\ forall sid, console (snd (ValkeyStore.load st sid w)) = console w.
Proof.
  intros Hquiet.
  assert (forall (b : bool) l, (b = true -> logErrors st = true) ->
            keeps same_console (when b (log l))) as Hlog.
  { intros [] l Hb w0; [|reflexivity]. specialize (Hb eq_refl). congruence. }
  assert (forall site e, keeps same_console (emit site e)) as Hemit
    by (intros site e w0; unfold emit; destruct (listening w0); reflexivity).
  assert (forall e, keeps same_console (unhandledRejection e)) as Hunh
    by (intros e w0; reflexivity).
  assert (forall cursor, keeps same_console
            (Client.scan cursor (String.append (prefix st) "*") (scanCount st)))
    as Hscan by (intros cursor; apply scan_keeps_db_console).
  split.
  - destruct op; simpl;
      try (apply (kept_touch same_console st); auto;
           intros; apply request_same_console);
      apply (kept_optionalCb same_console); auto.
    + apply (kept_get_fn same_console st); auto.
      intros k _. apply request_same_console.
    + apply (kept_set_fn same_console st); auto;
        intros; apply request_same_console.
    + apply (kept_destroy_fn same_console st); auto;
        intros; apply request_same_console.
    + apply (kept_all_fn same_console st); auto.
      intros ks _. apply request_same_console.
    + apply (kept_length_fn same_console st); auto.
    + apply (kept_ids_fn same_console st); auto.
    + apply (kept_clear_fn same_console st); auto.
      intros ks. apply request_same_console.
  - intros sid. apply (kept_load same_console st); auto.
    intros k _. apply request_same_console.
Qed.

Lemma quiet_store_never_logs_witness :
  console (snd (perform Sample.store_quiet (OpGet (JsString "abc")) WithCallback
                  Sample.offline_world))
  = console Sample.offline_world.
Proof.
  apply (quiet_store_never_logs Sample.store_quiet (OpGet (JsString "abc"))
           WithCallback Sample.offline_world).
  reflexivity.
Defined.

(** X3: [get], [set], [destroy] and [touch] on a sid change no key but the
    key of that sid, whatever the client answers. *)
Theorem other_sessions_untouched (st : Store) (op : Operation) (sid : JsValue)
    (k : string) (callback : Callback) (w : World) :
  sid_of op = Some sid ->
  ValkeyStore.key st sid = Ok k ->
  forall k', k' <> k -> db (snd (perform st op callback w)) !! k' = db w !! k'.
Proof.
  intros Hsid Hk.
  assert ((forall (b : bool) l, keeps (same_elsewhere k) (when b (log l)))
          /\ (forall site e, keeps (same_elsewhere k) (emit site e))
          /\ (forall e, keeps (same_elsewhere k) (unhandledRejection e)))
    as (Hlog & Hemit & Hunh).
  { apply log_emit_keep; [| | |apply _]; intros; intros k' _; reflexivity. }
  assert (forall k0, ValkeyStore.key st sid = Ok k0 ->
            keeps (same_elsewhere k) (Client.get k0)) as Hget.
  { intros k0 _. apply request_same_elsewhere. reflexivity. }
  assert (forall k0 data o, ValkeyStore.key st sid = Ok k0 ->
            keeps (same_elsewhere k) (Client.set k0 data o)) as Hset.
  { intros k0 data o Hk0. assert (k0 = k) as -> by congruence.
    apply request_same_elsewhere. intros d k' Hne. simpl.
    apply lookup_insert_ne. congruence. }
  assert (forall k0, ValkeyStore.key st sid = Ok k0 ->
            keeps (same_elsewhere k) (Client.del [k0])) as Hdel.
  { intros k0 Hk0. assert (k0 = k) as -> by congruence.
    apply request_same_elsewhere. intros d k' Hne. simpl.
    apply lookup_delete_ne. congruence. }
  assert (forall k0 seconds, ValkeyStore.key st sid = Ok k0 ->
            keeps (same_elsewhere k) (Client.expire k0 seconds)) as Hexp.
  { intros k0 seconds Hk0. assert (k0 = k) as -> by congruence.
    apply request_same_elsewhere. intros d k' Hne.
    destruct (d !! k) as [e|]; [destruct (seconds <=? 0)%Z|]; simpl;
      [apply lookup_delete_ne | apply lookup_insert_ne | reflexivity]; congruence. }
  destruct op; simpl in Hsid; try discriminate; injection Hsid as ->; simpl.
  - apply (kept_optionalCb (same_elsewhere k)); auto.
    apply (kept_get_fn (same_elsewhere k) st); auto.
  - apply (kept_optionalCb (same_elsewhere k)); auto.
    apply (kept_set_fn (same_elsewhere k) st); auto.
  - apply (kept_optionalCb (same_elsewhere k)); auto.
    apply (kept_destroy_fn (same_elsewhere k) st); auto.
  - apply (kept_touch (same_elsewhere k) st); auto.
Qed.

Lemma other_sessions_untouched_witness :
  db (snd (perform Sample.store (OpDestroy (JsString "a")) NoCallback
             Sample.mixed_world)) !! "sess:b"
  = db Sample.mixed_world !! "sess:b".
Proof.
  apply (other_sessions_untouched Sample.store (OpDestroy (JsString "a"))
           (JsString "a") "sess:a" NoCallback Sample.mixed_world).
  - reflexivity.
  - reflexivity.
  - discriminate.
Defined.

(** X4: the listing operations never write. Whatever the client answers,
    [length] and [ids] issue only scans with the pattern [prefix + "*"] and
    the count hint [scanCount]; [all] issues, besides those scans, only
    multi-gets, each of at least one and at most [MAX_BATCH_SIZE] keys. *)
Theorem listing_issues_reads_only (st : Store) (callback : Callback) (w : World) :
  Forall (scan_or_bounded_mget st) (issued w (snd (ValkeyStore.all st callback w)))
  /\ Forall (store_scan st) (issued w (snd (ValkeyStore.length st callback w)))
  /\ Forall (store_scan st) (issued w (snd (ValkeyStore.ids st callback w))).
Proof.
  assert (forall P, (forall (b : bool) l, keeps (calls_only P) (when b (log l)))
                    /\ (forall site e, keeps (calls_only P) (emit site e))
                    /\ (forall e, keeps (calls_only P) (unhandledRejection e)))
    as Hquiet.
  { intros P. apply log_emit_keep; [| | |apply _]; intros; exists [];
      (split; [simpl; rewrite app_nil_r; reflexivity | constructor]). }
  destruct (Hquiet (scan_or_bounded_mget st)) as (Hlog1 & Hemit1 & Hunh1).
  destruct (Hquiet (store_scan st)) as (Hlog2 & Hemit2 & Hunh2).
  assert (forall cursor, keeps (calls_only (store_scan st))
            (Client.scan cursor (String.append (prefix st) "*") (scanCount st)))
    as Hscan by (intros cursor; apply scan_calls_only; eexists; reflexivity).
  split; [|split]; apply calls_only_issued.
  - apply (kept_optionalCb (calls_only (scan_or_bounded_mget st))); auto.
    apply (kept_all_fn (calls_only (scan_or_bounded_mget st)) st); auto.
    + intros cursor. apply scan_calls_only. left. eexists. reflexivity.
    + intros ks Hlen. apply request_calls_only. right. exists ks. auto.
  - apply (kept_optionalCb (calls_only (store_scan st))); auto.
    apply (kept_length_fn (calls_only (store_scan st)) st); auto.
  - apply (kept_optionalCb (calls_only (store_scan st))); auto.
    apply (kept_ids_fn (calls_only (store_scan st)) st); auto.
Qed.

#[global] Instance same_faults_preorder : PreOrder same_faults.
Proof.
  split; [intros w; reflexivity | intros w1 w2 w3; unfold same_faults; congruence].
Qed.

Lemma request_same_faults {A : Type} (c : ClientCall)
    (act : gmap string Entry -> A * gmap string Entry) :
  keeps same_faults (Client.request c act).
Proof.
  intros w. unfold Client.request. destruct (faults w c); [reflexivity|].
  destruct (act (db w)). reflexivity.
Qed.

(** The fault table of the client double is not the store's to change. *)
Lemma perform_keeps_faults (st : Store) (op : Operation) (callback : Callback)
    (w : World) :
  faults (snd (perform st op callback w)) = faults w.
Proof.
  assert ((forall (b : bool) l, keeps same_faults (when b (log l)))
          /\ (forall site e, keeps same_faults (emit site e))
          /\ (forall e, keeps same_faults (unhandledRejection e)))
    as (Hlog & Hemit & Hunh).
  { apply log_emit_keep; [| | |apply _]; intros; reflexivity. }
  assert (forall cursor, keeps same_faults
            (Client.scan cursor (String.append (prefix st) "*") (scanCount st)))
    as Hscan.
  { intros cursor w0. unfold Client.scan. destruct (scanReplies w0); reflexivity. }
  destruct op; simpl;
    try (apply (kept_touch same_faults st); auto;
         intros; apply request_same_faults);
    apply (kept_optionalCb same_faults); auto.
  - apply (kept_get_fn same_faults st); auto. intros; apply request_same_faults.
  - apply (kept_set_fn same_faults st); auto; intros; apply request_same_faults.
  - apply (kept_destroy_fn same_faults st); auto; intros; apply request_same_faults.
  - apply (kept_all_fn same_faults st); auto. intros; apply request_same_faults.
  - apply (kept_length_fn same_faults st); auto.
  - apply (kept_ids_fn same_faults st); auto.
  - apply (kept_clear_fn same_faults st); auto. intros; apply request_same_faults.
Qed.

(** ** Destroy *)

Lemma destroy_fn_deletes (st : Store) (sid : JsValue) (k : string) (w : World) :
  ValkeyStore.key st sid = Ok k ->
  faults w (CallDel [k]) = None ->
  ValkeyStore.destroy_fn st sid w
  = (FnCalledBack None DUndefined,
     with_db (delete k (db w)) (record_call (CallDel [k]) w)).
Proof.
  intros Hk Hf. unfold ValkeyStore.destroy_fn. rewrite Hk.
  unfold bind, Client.del, Client.request. rewrite Hf. reflexivity.
Qed.

(** X5: for a valid sid and a client that answers, [destroy] issues exactly
    one delete of the key of the sid, succeeds whether or not the key was
    there (the database is unchanged when it was not), emits nothing, and
    a [get] right after yields null. *)
Theorem destroy_removes_key (st : Store) (sid : JsValue) (k : string)
    (w : World) (callback : Callback) :
  ValkeyStore.key st sid = Ok k ->
  (forall c, faults w c = None) ->
  exists w1,
    ValkeyStore.destroy st sid callback w = (succeeded callback DUndefined, w1)
    /\ issued w w1 = [CallDel [k]]
    /\ db w1 = delete k (db w)
    /\ (db w !! k = None -> db w1 = db w)
    /\ emitted w w1 = []
    /\ forall callback',
         fst (ValkeyStore.get st sid callback' w1) = succeeded callback' DNull.
Proof.
  intros Hk Hf. eexists. split; [|split; [|split; [|split; [|split]]]].
  - apply optionalCb_success. apply (destroy_fn_deletes st sid k); auto.
  - apply (issued_one w).
  - reflexivity.
  - intros Hnone. simpl. apply delete_id. exact Hnone.
  - unfold emitted. simpl. apply drop_all.
  - intros callback'. unfold ValkeyStore.get.
    erewrite optionalCb_success; [reflexivity|].
    apply (get_fn_absent st sid k); [exact Hk | apply Hf |].
    simpl. apply lookup_delete_eq.
Qed.

Lemma destroy_removes_key_witness :
  exists w1,
    ValkeyStore.destroy Sample.store (JsString "missing") WithCallback
      Sample.mixed_world
    = (succeeded WithCallback DUndefined, w1)
    /\ issued Sample.mixed_world w1 = [CallDel ["sess:missing"]]
    /\ db w1 = db Sample.mixed_world.
Proof.
  destruct (destroy_removes_key Sample.store (JsString "missing") "sess:missing"
              Sample.mixed_world WithCallback eq_refl (fun _ => eq_refl))
    as (w1 & Hrun & Hcalls & _ & Hsame & _).
  exists w1. split; [exact Hrun|]. split; [exact Hcalls|].
  apply Hsame. vm_compute. reflexivity.
Defined.

(** X6: for a valid sid and a client that answers, [set] then [destroy]
    then [get] yields null, whatever the record and whichever way [set]
    went (write, delete, or serialization failure). *)
Theorem set_destroy_get (st : Store) (sid : JsValue) (k : string)
    (session : SessionData) (w : World) (c1 c2 c3 : Callback) :
  ValkeyStore.key st sid = Ok k ->
  (forall c, faults w c = None) ->
  fst (ValkeyStore.get st sid c3
         (snd (ValkeyStore.destroy st sid c2
                 (snd (ValkeyStore.set st sid session c1 w)))))
  = succeeded c3 DNull.
Proof.
  intros Hk Hf.
  set (w1 := snd (ValkeyStore.set st sid session c1 w)).
  assert (forall c, faults w1 c = None) as Hf1.
  { intros c. pose proof (perform_keeps_faults st (OpSet sid session) c1 w) as Hsame.
    simpl in Hsame. unfold w1. rewrite Hsame. apply Hf. }
  unfold ValkeyStore.destroy.
  rewrite (optionalCb_success _ c2 w1 _ _ (destroy_fn_deletes st sid k w1 Hk (Hf1 _))).
  unfold ValkeyStore.get. simpl snd.
  erewrite optionalCb_success; [reflexivity|].
  apply (get_fn_absent st sid k); [exact Hk | apply Hf1 |].
  simpl. apply lookup_delete_eq.
Qed.

Lemma set_destroy_get_witness :
  fst (ValkeyStore.get Sample.store (JsString "abc") NoCallback
         (snd (ValkeyStore.destroy Sample.store (JsString "abc") NoCallback
                 (snd (ValkeyStore.set Sample.store (JsString "abc") Sample.plain
                         NoCallback Sample.empty_world)))))
  = succeeded NoCallback DNull.
Proof.
  apply (set_destroy_get Sample.store (JsString "abc") "sess:abc" Sample.plain
           Sample.empty_world NoCallback NoCallback NoCallback eq_refl).
  intros c. reflexivity.
Defined.

(** ** Failures of the client and of the serializer *)

Lemma catch_async_world (st : Store) (e : JsError) (w : World) :
  listening w = true ->
  ValkeyStore.catch_async st e w
  = (FnCalledBack (Some e) DUndefined, reported st e w).
Proof.
  intros Hl. rewrite (catch_async_heard st e w Hl). unfold reported, when, log.
  destruct (logErrors st); simpl; [reflexivity|].
  rewrite app_nil_r. reflexivity.
Qed.

Lemma catch_async_unheard (st : Store) (e : JsError) (w : World) :
  listening w = false ->
  ValkeyStore.catch_async st e w = (FnNeverCalledBack, dropped st e w).
Proof.
  intros Hl. unfold ValkeyStore.catch_async, bind.
  rewrite (handleError_unheard st e w Hl). unfold dropped, when, log.
  destruct (logErrors st); simpl; [reflexivity|].
  rewrite app_nil_r. reflexivity.
Qed.

Lemma request_faults {A : Type} (c : ClientCall)
    (act : gmap string Entry -> A * gmap string Entry) (w : World) (e : JsError) :
  faults w c = Some e ->
  Client.request c act w = (Err e, record_call c w).
Proof. intros Hf. unfold Client.request. rewrite Hf. reflexivity. Qed.

(** The request that an operation on one key sends first. *)
Lemma fn_of_faulting (st : Store) (op : Operation) (sid : JsValue) (k : string)
    (e : JsError) (w : World) :
  sid_of op = Some sid ->
  ValkeyStore.key st sid = Ok k ->
  (forall session, op = OpSet sid session ->
     exists data, stringify (serializer st) session = Ok data) ->
  (forall c, faults w c = Some e) ->
  exists c,
    fn_of st op w = ValkeyStore.catch_async st e (record_call c w).
Proof.
  intros Hsid Hk Hser Hf.
  destruct op as [s|s session|s|s session| | | |]; simpl in Hsid;
    try discriminate; injection Hsid as ->; simpl.
  - exists (CallGet k). unfold ValkeyStore.get_fn. rewrite Hk.
    unfold bind, Client.get. rewrite (request_faults _ _ w e (Hf _)). reflexivity.
  - unfold ValkeyStore.set_fn. rewrite Hk. unfold bind.
    destruct ((ValkeyStore.getTTL st w session <=? 0)%Z && negb (disableTTL st)).
    + exists (CallDel [k]). unfold Client.del.
      rewrite (request_faults _ _ w e (Hf _)). reflexivity.
    + destruct (Hser session eq_refl) as (data & ->). eexists.
      unfold Client.set. rewrite (request_faults _ _ w e (Hf _)). reflexivity.
  - exists (CallDel [k]). unfold ValkeyStore.destroy_fn. rewrite Hk.
    unfold bind, Client.del. rewrite (request_faults _ _ w e (Hf _)). reflexivity.
  - eexists. unfold ValkeyStore.touch_fn. rewrite Hk.
    unfold bind, Client.expire. rewrite (request_faults _ _ w e (Hf _)). reflexivity.
Qed.

(** X7: on a store with an "error" listener attached, when the client
    refuses the request of [get], [set], [destroy] or [touch] (touch
    enabled, the record serializable), the operation fails with the
    client's error as it is, after exactly one request (nothing is
    retried), leaves the database as it was, and logs the error exactly
    when [logErrors] is on. *)
Theorem client_fault_propagates (st : Store) (op : Operation) (sid : JsValue)
    (k : string) (e : JsError) (callback : Callback) (w : World) :
  sid_of op = Some sid ->
  ValkeyStore.key st sid = Ok k ->
  is_touch op && disableTouch st = false ->
  (forall session, op = OpSet sid session ->
     exists data, stringify (serializer st) session = Ok data) ->
  (forall c, faults w c = Some e) ->
  listening w = true ->
  fst (perform st op callback w) = failed callback e
  /\ (exists c, issued w (snd (perform st op callback w)) = [c])
  /\ db (snd (perform st op callback w)) = db w
  /\ console (snd (perform st op callback w))
     = (console w ++ (if logErrors st then [ConsoleError e] else []))%list.
Proof.
  intros Hsid Hk Htouch Hser Hf Hl.
  destruct (fn_of_faulting st op sid k e w Hsid Hk Hser Hf) as (c & Hfn).
  rewrite catch_async_world in Hfn by exact Hl.
  rewrite perform_optionalCb by exact Htouch.
  rewrite (optionalCb_failure _ callback w _ e Hfn Hl).
  split; [reflexivity|]. split; [exists c|split];
    destruct callback; unfold issued; simpl; rewrite ?drop_app_length; reflexivity.
Qed.

Lemma client_fault_propagates_witness :
  fst (perform Sample.store (OpDestroy (JsString "abc")) WithCallback
         Sample.offline_world)
  = failed WithCallback (RequestError "connection closed")
  /\ console (snd (perform Sample.store (OpDestroy (JsString "abc")) WithCallback
                     Sample.offline_world))
     = [ConsoleError (RequestError "connection closed")].
Proof.
  destruct (client_fault_propagates Sample.store (OpDestroy (JsString "abc"))
              (JsString "abc") "sess:abc" (RequestError "connection closed")
              WithCallback Sample.offline_world)
    as (Hfail & _ & _ & Hlog); try reflexivity.
  - intros session [=].
  - split; [exact Hfail | exact Hlog].
Defined.

Lemma set_fn_unserializable (st : Store) (sid : JsValue) (k : string)
    (session : SessionData) (e : JsError) (w : World) :
  ValkeyStore.key st sid = Ok k ->
  (disableTTL st = true \/ 0 < ValkeyStore.getTTL st w session) ->
  stringify (serializer st) session = Err e ->
  ValkeyStore.set_fn st sid session w = ValkeyStore.catch_sync st e w.
Proof.
  intros Hk Hcase Hs. unfold ValkeyStore.set_fn. rewrite Hk. unfold bind.
  assert ((ValkeyStore.getTTL st w session <=? 0)%Z && negb (disableTTL st)
          = false) as ->.
  { destruct Hcase as [-> | Hpos]; [apply andb_false_r|].
    apply andb_false_intro1. apply Z.leb_gt. exact Hpos. }
  rewrite Hs. reflexivity.
Qed.

(** X8: on a store with an "error" listener attached, when [stringify]
    throws on a record that [set] would write (the TTL positive, or
    [disableTTL] set), [set] fails with that error without sending
    anything to the client. *)
Theorem set_serialization_failure (st : Store) (sid : JsValue) (k : string)
    (session : SessionData) (e : JsError) (callback : Callback) (w : World) :
  ValkeyStore.key st sid = Ok k ->
  (disableTTL st = true \/ 0 < ValkeyStore.getTTL st w session) ->
  stringify (serializer st) session = Err e ->
  listening w = true ->
  fst (ValkeyStore.set st sid session callback w) = failed callback e
  /\ issued w (snd (ValkeyStore.set st sid session callback w)) = []
  /\ db (snd (ValkeyStore.set st sid session callback w)) = db w.
Proof.
  intros Hk Hcase Hs Hl.
  pose proof (set_fn_unserializable st sid k session e w Hk Hcase Hs) as Hfn.
  rewrite (catch_sync_heard st e w Hl), (catch_async_world st e w Hl) in Hfn.
  unfold ValkeyStore.set.
  rewrite (optionalCb_failure _ callback w _ e Hfn Hl).
  split; [reflexivity|].
  destruct callback; unfold issued; simpl; rewrite drop_all; split; reflexivity.
Qed.

Lemma set_serialization_failure_witness :
  fst (ValkeyStore.set Sample.store_throwing (JsString "abc") Sample.plain
         NoCallback Sample.empty_world)
  = failed NoCallback (TypeError "Converting circular structure")
  /\ issued Sample.empty_world
       (snd (ValkeyStore.set Sample.store_throwing (JsString "abc") Sample.plain
               NoCallback Sample.empty_world)) = []
  /\ db (snd (ValkeyStore.set Sample.store_throwing (JsString "abc") Sample.plain
                NoCallback Sample.empty_world)) = db Sample.empty_world.
Proof.
  apply (set_serialization_failure Sample.store_throwing (JsString "abc")
           "sess:abc" Sample.plain (TypeError "Converting circular structure")
           NoCallback Sample.empty_world).
  - reflexivity.
  - right. vm_compute. reflexivity.
  - reflexivity.
  - reflexivity.
Defined.

(** *** On a store that nobody listens to *)

Lemma optionalCb_undelivered (fn : M FnResult) (callback : Callback)
    (w w1 : World) :
  fn w = (FnNeverCalledBack, w1) ->
  optionalCb fn callback true w = (undelivered callback, w1).
Proof.
  intros Hfn. unfold optionalCb, bind. destruct callback; rewrite Hfn; reflexivity.
Qed.

Lemma optionalCb_threw (fn : M FnResult) (callback : Callback)
    (w w1 : World) (e : JsError) :
  fn w = (FnThrew e, w1) ->
  optionalCb fn callback true w
  = ({| callbackArgs := []; returned := Rejected e |}, w1).
Proof.
  intros Hfn. unfold optionalCb, bind. destruct callback; rewrite Hfn; reflexivity.
Qed.

Lemma mute_cb (data : Data) : mute (cb None data).
Proof. intros w _ e d. discriminate. Qed.

Lemma mute_threw (e : JsError) : mute (ret (FnThrew e)).
Proof. intros w _ e' d. discriminate. Qed.

Lemma mute_catch_async (st : Store) (error : JsError) :
  mute (ValkeyStore.catch_async st error).
Proof.
  intros w Hl e d. rewrite (catch_async_unheard st error w Hl). discriminate.
Qed.

Lemma mute_catch_sync (st : Store) (error : JsError) :
  mute (ValkeyStore.catch_sync st error).
Proof.
  intros w Hl e d. unfold ValkeyStore.catch_sync, bind.
  rewrite (handleError_unheard st error w Hl). discriminate.
Qed.

Lemma mute_catch_in_then (st : Store) (error : JsError) :
  mute (ValkeyStore.catch_in_then st error).
Proof.
  intros w Hl e d. unfold ValkeyStore.catch_in_then, bind.
  rewrite (handleError_unheard st error w Hl).
  apply mute_catch_async.
  destruct (silent_log (logErrors st) (ConsoleError error) w) as (_ & ->).
  exact Hl.
Qed.

Lemma mute_bind {A : Type} (m : M A) (k : A -> M FnResult) :
  silent m -> (forall a, mute (k a)) -> mute (bind m k).
Proof.
  intros Hm Hk w Hl. unfold bind. destruct (Hm w) as (_ & Hli).
  destruct (m w) as [a w1]. simpl in Hli. apply Hk. congruence.
Qed.

Lemma mute_scanKeys (st : Store) (pattern : string)
    (onComplete : list string -> M FnResult) :
  (forall keys, mute (onComplete keys)) ->
  mute (bind (ValkeyStore.scanKeys st pattern onComplete)
          (fun r => match r with
                    | Ok done => ret done
                    | Err error => ValkeyStore.catch_async st error
                    end)).
Proof.
  intros Hc w Hl. unfold bind, ValkeyStore.scanKeys.
  destruct (silent_scanKeys_loop st pattern
              (S (List.length (scanReplies w))) (ValkeyStore.initialCursor w) [] w)
    as (_ & Hli).
  destruct (ValkeyStore.scanKeys_loop _ _ _ _ _ w) as [[keys|e'] w1];
    simpl in Hli.
  - specialize (Hc keys w1). destruct (onComplete keys w1) as [r w2].
    apply Hc. congruence.
  - apply mute_catch_async. congruence.
Qed.

#[local] Hint Resolve mute_cb mute_threw mute_catch_async mute_catch_sync
  mute_catch_in_then : frames.

Lemma mute_fn_of (st : Store) (op : Operation) : mute (fn_of st op).
Proof.
  destruct op as [sid|sid session|sid|sid session| | | |]; simpl.
  - unfold ValkeyStore.get_fn. destruct (ValkeyStore.key st sid) as [k|e];
      [|apply mute_threw].
    apply mute_bind; [apply silent_request|].
    intros [[data|]|e]; auto with frames.
    destruct (String.eqb data EmptyString); auto with frames.
    destruct (parse (serializer st) data); auto with frames.
  - unfold ValkeyStore.set_fn. destruct (ValkeyStore.key st sid) as [k|e];
      [|apply mute_threw].
    apply mute_bind; [apply silent_getTTL|]. intros ttl.
    destruct ((ttl <=? 0)%Z && negb (disableTTL st)).
    + apply mute_bind; [apply silent_request|].
      intros [[]|e]; auto with frames.
    + destruct (stringify (serializer st) session) as [data|e]; auto with frames.
      apply mute_bind; [apply silent_request|].
      intros [[]|e]; auto with frames.
  - unfold ValkeyStore.destroy_fn. destruct (ValkeyStore.key st sid) as [k|e];
      [|apply mute_threw].
    apply mute_bind; [apply silent_request|].
    intros [[]|e]; auto with frames.
  - unfold ValkeyStore.touch_fn. destruct (ValkeyStore.key st sid) as [k|e];
      [|apply mute_threw].
    apply mute_bind; [apply silent_getTTL|]. intros ttl.
    apply mute_bind; [apply silent_request|].
    intros [[]|e]; auto with frames.
  - unfold ValkeyStore.all_fn. apply mute_bind; [apply silent_all_scan|].
    intros [acc|e]; auto with frames.
  - apply mute_scanKeys. auto with frames.
  - apply mute_scanKeys. auto with frames.
  - apply mute_scanKeys. intros keys.
    destruct (List.length keys =? 0)%nat; auto with frames.
    apply mute_bind; [apply silent_request|].
    intros [[]|e]; auto with frames.
Qed.

(** X29: on a store with no "error" listener, as it is after its
    construction, no operation ever hands an error to the callback, and
    none delivers an "error" event: every failure that [handleError]
    takes stops at its [emit]. A promise that rejects there does so with
    what the closure threw: the error of [key], or the one of
    [stringify] that [handleError] threw again. *)
Theorem unheard_store_delivers_no_error (st : Store) (op : Operation)
    (callback : Callback) (w : World) :
  listening w = false ->
  (forall e data,
     ~ In (Some e, data) (callbackArgs (fst (perform st op callback w))))
  /\ emitted w (snd (perform st op callback w)) = []
  /\ (forall e, returned (fst (perform st op callback w)) = Rejected e ->
        fst (fn_of st op w) = FnThrew e).
Proof.
  intros Hl. unfold emitted.
  destruct (is_touch op && disableTouch st) eqn:Htouch.
  - destruct op; try discriminate. simpl in Htouch. simpl.
    unfold ValkeyStore.touch. rewrite Htouch. simpl. rewrite drop_all.
    split; [|split; [reflexivity | discriminate]].
    destruct callback; simpl; intros e data [[=]|[]] || intros e data [].
  - rewrite !perform_optionalCb by exact Htouch.
    destruct (reports_fn_of st op w) as (Hev & _ & _).
    pose proof (mute_fn_of st op w Hl) as Hmute.
    destruct (fn_of st op w) as [r w1] eqn:Hfn. simpl in Hev, Hmute.
    destruct r as [e' | [e'|] data' |]; simpl in Hev; rewrite ?app_nil_r in Hev.
    + rewrite (optionalCb_threw _ callback w w1 e' Hfn). simpl.
      rewrite Hev, drop_all. split; [intros e data []|].
      split; [reflexivity|]. intros e [= ->]. reflexivity.
    + destruct (Hmute e' data'). reflexivity.
    + rewrite (optionalCb_success _ callback w w1 data' Hfn). simpl.
      rewrite Hev, drop_all. split; [|split; [reflexivity|]].
      * destruct callback; simpl; [intros e data [] | intros e data [[=]|[]]].
      * destruct callback; discriminate.
    + rewrite (optionalCb_undelivered _ callback w w1 Hfn). simpl.
      rewrite Hev, drop_all. split; [|split; [reflexivity|]].
      * destruct callback; intros e data [].
      * destruct callback; discriminate.
Qed.

Lemma unheard_store_delivers_no_error_witness :
  emitted (Sample.unheard Sample.failing_scan_world)
    (snd (perform Sample.store OpLength NoCallback
            (Sample.unheard Sample.failing_scan_world))) = []
  /\ returned (fst (perform Sample.store OpLength NoCallback
                      (Sample.unheard Sample.failing_scan_world))) = Pending.
Proof.
  split; [|reflexivity].
  apply (unheard_store_delivers_no_error Sample.store OpLength NoCallback
           (Sample.unheard Sample.failing_scan_world) eq_refl).
Defined.

(** X26: on a store with no "error" listener, as it is after its
    construction, when the client refuses the request of [get], [set],
    [destroy] or [touch] (touch enabled, the record serializable), the
    failure reaches nobody: [handleError] logs it when [logErrors] is on
    and throws at its [emit], so the callback is never invoked, the
    promise of a call without callback never settles, no event is
    delivered, and the error is left as a rejection that nothing
    handles. *)
Theorem unheard_client_fault_is_dropped (st : Store) (op : Operation)
    (sid : JsValue) (k : string) (e : JsError) (callback : Callback)
    (w : World) :
  sid_of op = Some sid ->
  ValkeyStore.key st sid = Ok k ->
  is_touch op && disableTouch st = false ->
  (forall session, op = OpSet sid session ->
     exists data, stringify (serializer st) session = Ok data) ->
  (forall c, faults w c = Some e) ->
  listening w = false ->
  fst (perform st op callback w) = undelivered callback
  /\ emitted w (snd (perform st op callback w)) = []
  /\ unhandled (snd (perform st op callback w)) = (unhandled w ++ [e])%list
  /\ console (snd (perform st op callback w))
     = (console w ++ (if logErrors st then [ConsoleError e] else []))%list
  /\ db (snd (perform st op callback w)) = db w.
Proof.
  intros Hsid Hk Htouch Hser Hf Hl.
  destruct (fn_of_faulting st op sid k e w Hsid Hk Hser Hf) as (c & Hfn).
  rewrite catch_async_unheard in Hfn by exact Hl.
  rewrite perform_optionalCb by exact Htouch.
  rewrite (optionalCb_undelivered _ callback w _ Hfn).
  unfold emitted. simpl. rewrite drop_all. repeat split.
Qed.

Lemma unheard_client_fault_is_dropped_witness :
  fst (perform Sample.store (OpGet (JsString "abc")) WithCallback
         (Sample.unheard Sample.offline_world))
  = undelivered WithCallback
  /\ unhandled (snd (perform Sample.store (OpGet (JsString "abc")) WithCallback
                       (Sample.unheard Sample.offline_world)))
     = [RequestError "connection closed"]
  /\ console (snd (perform Sample.store (OpGet (JsString "abc")) WithCallback
                     (Sample.unheard Sample.offline_world)))
     = [ConsoleError (RequestError "connection closed")].
Proof.
  destruct (unheard_client_fault_is_dropped Sample.store (OpGet (JsString "abc"))
              (JsString "abc") "sess:abc" (RequestError "connection closed")
              WithCallback (Sample.unheard Sample.offline_world))
    as (Hout & _ & Hunh & Hlog & _); try reflexivity.
  - intros session [=].
  - split; [exact Hout|]. split; [exact Hunh | exact Hlog].
Defined.

(** X27: on a store with no "error" listener, when [stringify] throws on a
    record that [set] would write, [handleError] throws out of the
    closure of [set]: the promise that [set] returns rejects with that
    error, with a callback or without one; the callback is not invoked,
    no event is delivered and nothing is sent to the client. *)
Theorem unheard_serialization_failure_rejects (st : Store) (sid : JsValue)
    (k : string) (session : SessionData) (e : JsError) (callback : Callback)
    (w : World) :
  ValkeyStore.key st sid = Ok k ->
  (disableTTL st = true \/ 0 < ValkeyStore.getTTL st w session) ->
  stringify (serializer st) session = Err e ->
  listening w = false ->
  fst (ValkeyStore.set st sid session callback w)
  = {| callbackArgs := []; returned := Rejected e |}
  /\ emitted w (snd (ValkeyStore.set st sid session callback w)) = []
  /\ issued w (snd (ValkeyStore.set st sid session callback w)) = []
  /\ unhandled (snd (ValkeyStore.set st sid session callback w)) = unhandled w
  /\ console (snd (ValkeyStore.set st sid session callback w))
     = (console w ++ (if logErrors st then [ConsoleError e] else []))%list.
Proof.
  intros Hk Hcase Hs Hl.
  pose proof (set_fn_unserializable st sid k session e w Hk Hcase Hs) as Hfn.
  unfold ValkeyStore.catch_sync, bind in Hfn.
  rewrite (handleError_unheard st e w Hl) in Hfn.
  unfold ValkeyStore.set. rewrite (optionalCb_threw _ callback w _ e Hfn).
  unfold emitted, issued, when, log.
  destruct (logErrors st); simpl; rewrite !drop_all, ?app_nil_r; repeat split.
Qed.

Lemma unheard_serialization_failure_rejects_witness :
  fst (ValkeyStore.set Sample.store_throwing (JsString "abc") Sample.plain
         WithCallback (Sample.unheard Sample.empty_world))
  = {| callbackArgs := [];
       returned := Rejected (TypeError "Converting circular structure") |}.
Proof.
  refine (proj1 (unheard_serialization_failure_rejects Sample.store_throwing
            (JsString "abc") "sess:abc" Sample.plain
            (TypeError "Converting circular structure") WithCallback
            (Sample.unheard Sample.empty_world) eq_refl _ eq_refl eq_refl)).
  right. vm_compute. reflexivity.
Defined.

(** X28: on a store with no "error" listener, when [parse] throws on the
    stored value, [get] handles the error twice and delivers it to
    nobody: [handleError] throws in the [catch] block inside the [then]
    handler, the [catch] handler chained to it calls [handleError] again,
    which throws again; the error is logged twice when [logErrors] is on,
    the callback is never invoked, the promise of a call without callback
    never settles, and the error is left as a rejection that nothing
    handles. *)
Theorem unheard_parse_throw_is_handled_twice (st : Store) (sid : JsValue)
    (k : string) (entry : Entry) (e : JsError) (callback : Callback)
    (w : World) :
  ValkeyStore.key st sid = Ok k ->
  faults w (CallGet k) = None ->
  db w !! k = Some entry ->
  value entry <> EmptyString ->
  parse (serializer st) (value entry) = ParseThrow e ->
  listening w = false ->
  fst (ValkeyStore.get st sid callback w) = undelivered callback
  /\ emitted w (snd (ValkeyStore.get st sid callback w)) = []
  /\ unhandled (snd (ValkeyStore.get st sid callback w))
     = (unhandled w ++ [e])%list
  /\ console (snd (ValkeyStore.get st sid callback w))
     = (console w
        ++ (if logErrors st then [ConsoleError e; ConsoleError e] else []))%list.
Proof.
  intros Hk Hf Hdb Hne Hparse Hl.
  pose proof (get_fn_present st sid k w entry Hk Hf Hdb) as Hfn.
  cbv zeta in Hfn.
  destruct (String.eqb_spec (value entry) EmptyString) as [|_]; [contradiction|].
  rewrite Hparse in Hfn. unfold ValkeyStore.catch_in_then, bind in Hfn.
  rewrite handleError_unheard in Hfn by exact Hl.
  rewrite catch_async_unheard in Hfn
    by (unfold when, log; destruct (logErrors st); exact Hl).
  unfold ValkeyStore.get. rewrite (optionalCb_undelivered _ callback w _ Hfn).
  unfold emitted, when, log, dropped.
  destruct (logErrors st); simpl; rewrite ?drop_all, <- ?app_assoc, ?app_nil_r;
    repeat split.
Qed.

Lemma unheard_parse_throw_is_handled_twice_witness :
  fst (ValkeyStore.get Sample.store (JsString "b") WithCallback
         (Sample.unheard Sample.mixed_world))
  = undelivered WithCallback
  /\ console (snd (ValkeyStore.get Sample.store (JsString "b") WithCallback
                     (Sample.unheard Sample.mixed_world)))
     = [ConsoleError (Error "Unexpected token");
        ConsoleError (Error "Unexpected token")].
Proof.
  destruct (unheard_parse_throw_is_handled_twice Sample.store (JsString "b")
              "sess:b" {| value := "garbage"; expiry := None |}
              (Error "Unexpected token") WithCallback
              (Sample.unheard Sample.mixed_world))
    as (Hout & _ & _ & Hlog).
  - reflexivity.
  - reflexivity.
  - vm_compute. reflexivity.
  - discriminate.
  - reflexivity.
  - reflexivity.
  - split; [exact Hout | exact Hlog].
Defined.

(** ** Get and load *)

(** X9: for a valid sid and a client that answers, [get] of a key that is
    missing, or that holds the empty string, yields null after one read,
    with no error, no event and no change. *)
Theorem get_missing_is_null (st : Store) (sid : JsValue) (k : string)
    (callback : Callback) (w : World) :
  ValkeyStore.key st sid = Ok k ->
  faults w (CallGet k) = None ->
  stored (db w) k = None \/ stored (db w) k = Some EmptyString ->
  exists w1,
    ValkeyStore.get st sid callback w = (succeeded callback DNull, w1)
    /\ issued w w1 = [CallGet k]
    /\ emitted w w1 = []
    /\ db w1 = db w.
Proof.
  intros Hk Hf Hst. exists (record_call (CallGet k) w).
  split; [|split; [apply issued_one | split; [|reflexivity]]].
  - apply optionalCb_success. unfold stored in Hst.
    destruct (db w !! k) as [entry|] eqn:Hdb.
    + destruct Hst as [[=] | [= Hv]].
      rewrite (get_fn_present st sid k w entry Hk Hf Hdb), Hv. reflexivity.
    + apply (get_fn_absent st sid k); assumption.
  - unfold emitted. simpl. apply drop_all.
Qed.

Lemma get_missing_is_null_witness :
  exists w1,
    ValkeyStore.get Sample.store (JsString "a") WithCallback Sample.blank_world
    = (succeeded WithCallback DNull, w1)
    /\ issued Sample.blank_world w1 = [CallGet "sess:a"]
    /\ emitted Sample.blank_world w1 = []
    /\ db w1 = db Sample.blank_world.
Proof.
  apply (get_missing_is_null Sample.store (JsString "a") "sess:a" WithCallback
           Sample.blank_world).
  - reflexivity.
  - reflexivity.
  - right. vm_compute. reflexivity.
Defined.

(** X10: unlike [all], [get] does not pass over a stored value that does not
    parse: on a store with an "error" listener attached, when [parse]
    throws, or answers with a promise that rejects, [get] fails with that
    error, and leaves the entry where it is. *)
Theorem get_unparsable_fails (st : Store) (sid : JsValue) (k : string)
    (entry : Entry) (e : JsError) (callback : Callback) (w : World) :
  ValkeyStore.key st sid = Ok k ->
  faults w (CallGet k) = None ->
  db w !! k = Some entry ->
  value entry <> EmptyString ->
  (parse (serializer st) (value entry) = ParseThrow e
   \/ parse (serializer st) (value entry) = ParseReject e) ->
  listening w = true ->
  fst (ValkeyStore.get st sid callback w) = failed callback e
  /\ db (snd (ValkeyStore.get st sid callback w)) = db w
  /\ In (ByHandleError, e) (emitted w (snd (ValkeyStore.get st sid callback w))).
Proof.
  intros Hk Hf Hdb Hne Hparse Hl.
  assert (ValkeyStore.get_fn st sid w
          = ValkeyStore.catch_async st e (record_call (CallGet k) w)) as Hfn.
  { rewrite (get_fn_present st sid k w entry Hk Hf Hdb).
    destruct (String.eqb_spec (value entry) EmptyString) as [|_]; [contradiction|].
    destruct Hparse as [-> | ->]; cbv zeta;
      [apply catch_in_then_heard; exact Hl | reflexivity]. }
  rewrite catch_async_world in Hfn by exact Hl. unfold ValkeyStore.get.
  rewrite (optionalCb_failure _ callback w _ e Hfn Hl).
  split; [reflexivity|].
  destruct callback; unfold emitted; simpl;
    rewrite <- ?app_assoc, ?drop_app_length;
    (split; [reflexivity | simpl; auto]).
Qed.

Lemma get_unparsable_fails_witness :
  fst (ValkeyStore.get Sample.store (JsString "b") NoCallback Sample.mixed_world)
  = failed NoCallback (Error "Unexpected token")
  /\ db (snd (ValkeyStore.get Sample.store (JsString "b") NoCallback
                Sample.mixed_world)) = db Sample.mixed_world.
Proof.
  destruct (get_unparsable_fails Sample.store (JsString "b") "sess:b"
              {| value := "garbage"; expiry := None |} (Error "Unexpected token")
              NoCallback Sample.mixed_world) as (Hfail & Hdb & _).
  - reflexivity.
  - reflexivity.
  - vm_compute. reflexivity.
  - discriminate.
  - left. reflexivity.
  - reflexivity.
  - split; [exact Hfail | exact Hdb].
Defined.

Lemma get_fn_leaves_none_unhandled (st : Store) (sid : JsValue) (k : string)
    (w : World) :
  ValkeyStore.key st sid = Ok k ->
  listening w = true ->
  unhandled (snd (ValkeyStore.get_fn st sid w)) = unhandled w.
Proof.
  intros Hk Hl. unfold ValkeyStore.get_fn. rewrite Hk.
  unfold bind, Client.get, Client.request.
  destruct (faults w (CallGet k)) as [e|].
  - rewrite catch_async_world by exact Hl. reflexivity.
  - simpl. destruct (db w !! k) as [entry|]; simpl; [|reflexivity].
    destruct (String.eqb (value entry) EmptyString); [reflexivity|].
    destruct (parse (serializer st) (value entry)); try reflexivity.
    + rewrite catch_in_then_heard, catch_async_world by exact Hl. reflexivity.
    + rewrite catch_async_world by exact Hl. reflexivity.
Qed.

(** X11: for a valid sid, on a store with an "error" listener attached,
    [load] invokes its callback exactly once, with what [get] would hand
    to a callback except that null becomes undefined: never null, and an
    error comes with no data; no rejection is left unhandled, and the
    world ends up as after that [get]. *)
Theorem load_calls_back_once (st : Store) (sid : JsValue) (k : string) (w : World) :
  ValkeyStore.key st sid = Ok k ->
  listening w = true ->
  exists err data,
    callbackArgs (fst (ValkeyStore.get st sid WithCallback w)) = [(err, data)]
    /\ ValkeyStore.load_callbackArgs (fst (ValkeyStore.load st sid w))
       = [(err, match data with DNull => DUndefined | _ => data end)]
    /\ match data with DNull => DUndefined | _ => data end <> DNull
    /\ (err <> None -> data = DUndefined)
    /\ ValkeyStore.load_unhandledRejection (fst (ValkeyStore.load st sid w)) = None
    /\ unhandled (snd (ValkeyStore.load st sid w)) = unhandled w
    /\ snd (ValkeyStore.load st sid w) = snd (ValkeyStore.get st sid WithCallback w).
Proof.
  intros Hk Hl.
  assert (calls_back (fn_of st (OpGet sid))) as Hcalls.
  { apply calls_back_fn_of. intros sid0 [= <-]. eauto. }
  destruct (reports_fn_of st (OpGet sid) w) as (_ & Hwell & _).
  specialize (Hcalls w Hl). simpl in Hcalls, Hwell.
  pose proof (get_fn_leaves_none_unhandled st sid k w Hk Hl) as Hunh.
  unfold ValkeyStore.load, ValkeyStore.get, optionalCb, bind.
  destruct (ValkeyStore.get_fn st sid w) as [[e | err data |] w1]; simpl in *;
    try contradiction.
  exists err, data. destruct err as [e|]; simpl in Hwell.
  - subst data. repeat split; auto; discriminate.
  - repeat split; auto; try (destruct data; reflexivity || discriminate); congruence.
Qed.

Lemma load_calls_back_once_witness :
  ValkeyStore.load_callbackArgs
    (fst (ValkeyStore.load Sample.store (JsString "missing") Sample.mixed_world))
  = [(None, DUndefined)].
Proof.
  destruct (load_calls_back_once Sample.store (JsString "missing") "sess:missing"
              Sample.mixed_world eq_refl eq_refl)
    as (err & data & Hget & Hload & _).
  rewrite Hload. vm_compute in Hget. injection Hget as <- <-. reflexivity.
Defined.

(** ** Touch *)

(** X12: with touch enabled, a valid sid, a client that answers and a
    derived TTL > 0, [touch] sends exactly one [expire(key, ttl)] and no
    write: every stored value is what it was, the key of the sid gets the
    new expiry if it is there, and nothing changes if it is not. *)
Theorem touch_resets_expiry_only (st : Store) (sid : JsValue) (k : string)
    (session : SessionData) (callback : Callback) (w : World) :
  disableTouch st = false ->
  ValkeyStore.key st sid = Ok k ->
  faults w (CallExpire k (ValkeyStore.getTTL st w session)) = None ->
  0 < ValkeyStore.getTTL st w session ->
  exists w1,
    ValkeyStore.touch st sid session callback w
    = (succeeded callback DUndefined, w1)
    /\ issued w w1 = [CallExpire k (ValkeyStore.getTTL st w session)]
    /\ (forall k', stored (db w1) k' = stored (db w) k')
    /\ (forall entry, db w !! k = Some entry ->
          db w1 !! k = Some {| value := value entry;
                               expiry := Some (ValkeyStore.getTTL st w session) |})
    /\ (db w !! k = None -> db w1 = db w).
Proof.
  intros Hon Hk Hf Hpos. unfold ValkeyStore.touch. rewrite Hon.
  set (ttl := ValkeyStore.getTTL st w session) in *.
  assert ((ttl <=? 0)%Z = false) as Hle by (apply Z.leb_gt; exact Hpos).
  destruct (db w !! k) as [entry|] eqn:Hdb.
  - exists (with_db (<[k := {| value := value entry; expiry := Some ttl |}]> (db w))
              (record_call (CallExpire k ttl) w)).
    split; [|split; [unfold issued; simpl; rewrite drop_app_length; reflexivity | split; [|split]]].
    + apply optionalCb_success. unfold ValkeyStore.touch_fn. rewrite Hk.
      unfold bind, Client.expire, Client.request. fold ttl.
      rewrite Hf, Hdb, Hle. reflexivity.
    + intros k'. unfold stored. simpl.
      destruct (decide (k = k')) as [<-|Hne].
      * rewrite lookup_insert_eq, Hdb. reflexivity.
      * rewrite lookup_insert_ne by exact Hne. reflexivity.
    + intros entry' [= <-]. simpl. apply lookup_insert_eq.
    + discriminate.
  - exists (with_db (db w) (record_call (CallExpire k ttl) w)).
    split; [|split; [unfold issued; simpl; rewrite drop_app_length; reflexivity | split; [|split]]].
    + apply optionalCb_success. unfold ValkeyStore.touch_fn. rewrite Hk.
      unfold bind, Client.expire, Client.request. fold ttl.
      rewrite Hf, Hdb. reflexivity.
    + reflexivity.
    + discriminate.
    + reflexivity.
Qed.

Lemma touch_resets_expiry_only_witness :
  exists w1,
    ValkeyStore.touch Sample.store (JsString "a") Sample.plain NoCallback
      Sample.mixed_world
    = (succeeded NoCallback DUndefined, w1)
    /\ issued Sample.mixed_world w1 = [CallExpire "sess:a" 86400]
    /\ db w1 !! "sess:a" = Some {| value := "{foo:bar}"; expiry := Some 86400 |}.
Proof.
  destruct (touch_resets_expiry_only Sample.store (JsString "a") "sess:a"
              Sample.plain NoCallback Sample.mixed_world)
    as (w1 & Hrun & Hcalls & _ & Hkey & _); try reflexivity.
  exists w1. split; [exact Hrun|]. split; [exact Hcalls|].
  apply (Hkey {| value := "{foo:bar}"; expiry := None |}). vm_compute. reflexivity.
Defined.

(** ** Counting, listing and clearing *)

Lemma scanKeys_completes {A : Type} (st : Store) (pattern : string)
    (onComplete : list string -> M A) (steps : list (Cursor * list string))
    (c : Cursor) (ks : list string) (rest : list ScanReply) (w : World) :
  Forall unfinished steps ->
  ValkeyStore.isCursorFinished c = true ->
  scanReplies w = (map reply_of steps ++ ScanOk c ks :: rest)%list ->
  ValkeyStore.scanKeys st pattern onComplete w
  = (let (a, w') :=
       onComplete (concat (map snd steps) ++ ks)%list
         (after_scans w
            (scan_calls st pattern (ValkeyStore.initialCursor w :: map fst steps))
            rest) in
     (Ok a, w')).
Proof.
  intros Hun Hfin Hscript. unfold ValkeyStore.scanKeys.
  rewrite (scanKeys_loop_finishes st pattern c ks rest steps Hun Hfin);
    [reflexivity | rewrite Hscript, length_app, length_map; simpl; lia
    | exact Hscript].
Qed.

Lemma scanKeys_aborts {A : Type} (st : Store) (pattern : string)
    (onComplete : list string -> M A) (steps : list (Cursor * list string))
    (e : JsError) (rest : list ScanReply) (w : World) :
  Forall unfinished steps ->
  scanReplies w = (map reply_of steps ++ ScanFail e :: rest)%list ->
  ValkeyStore.scanKeys st pattern onComplete w
  = (Err e,
     after_scans w
       (scan_calls st pattern (ValkeyStore.initialCursor w :: map fst steps)) rest).
Proof.
  intros Hun Hscript. unfold ValkeyStore.scanKeys.
  rewrite (scanKeys_loop_fails st pattern e rest steps Hun);
    [reflexivity | rewrite Hscript, length_app, length_map; simpl; lia
    | exact Hscript].
Qed.

(** X13: when the scan completes, [length] yields the number of keys that
    the scan steps returned, counted step by step (a key returned by two
    steps counts twice), after scan calls only. *)
Theorem length_counts_scanned_keys (st : Store)
    (steps : list (Cursor * list string)) (c : Cursor) (ks : list string)
    (rest : list ScanReply) (callback : Callback) (w : World) :
  Forall unfinished steps ->
  ValkeyStore.isCursorFinished c = true ->
  scanReplies w = (map reply_of steps ++ ScanOk c ks :: rest)%list ->
  exists w1,
    ValkeyStore.length st callback w
    = (succeeded callback
         (DNumber (Z.of_nat (list_sum (map (fun s => List.length (snd s)) steps)
                             + List.length ks))), w1)
    /\ issued w w1
       = scan_calls st (String.append (prefix st) "*")
           (ValkeyStore.initialCursor w :: map fst steps)
    /\ db w1 = db w.
Proof.
  intros Hun Hfin Hscript. eexists. split; [|split].
  - apply optionalCb_success. unfold ValkeyStore.length_fn, bind.
    rewrite (scanKeys_completes st _ _ steps c ks rest w Hun Hfin Hscript).
    unfold cb, ret. rewrite length_app. repeat f_equal.
    clear. induction steps as [|[c1 ks1] steps IH]; simpl; [reflexivity|].
    rewrite length_app, IH. reflexivity.
  - apply issued_after_scans.
  - reflexivity.
Qed.

Lemma length_counts_scanned_keys_witness :
  exists w1,
    ValkeyStore.length Sample.store NoCallback Sample.mixed_world
    = (succeeded NoCallback (DNumber 2), w1)
    /\ issued Sample.mixed_world w1
       = [CallScan (SimpleCursor "0") "sess:*" 100;
          CallScan (SimpleCursor "5") "sess:*" 100]
    /\ db w1 = db Sample.mixed_world.
Proof.
  refine (length_counts_scanned_keys Sample.store
            [(SimpleCursor "5", ["sess:a"])] (SimpleCursor "0") ["sess:b"] []
            NoCallback Sample.mixed_world _ eq_refl eq_refl).
  constructor; [reflexivity | constructor].
Defined.

(** X14: when the scan completes with keys that start with the prefix,
    [ids] yields, in scan order, one sid per key, and putting the prefix
    back in front of each gives the scanned keys again. *)
Theorem ids_strips_prefix (st : Store) (steps : list (Cursor * list string))
    (c : Cursor) (ks : list string) (rest : list ScanReply)
    (callback : Callback) (w : World) :
  Forall unfinished steps ->
  ValkeyStore.isCursorFinished c = true ->
  scanReplies w = (map reply_of steps ++ ScanOk c ks :: rest)%list ->
  under_prefix st (concat (map snd steps) ++ ks) ->
  exists sessionIds w1,
    ValkeyStore.ids st callback w = (succeeded callback (DStrings sessionIds), w1)
    /\ map (String.append (prefix st)) sessionIds
       = (concat (map snd steps) ++ ks)%list
    /\ db w1 = db w.
Proof.
  intros Hun Hfin Hscript Hp.
  exists (map (replace_first (prefix st)) (concat (map snd steps) ++ ks)).
  eexists. split; [|split].
  - apply optionalCb_success. unfold ValkeyStore.ids_fn, bind.
    rewrite (scanKeys_completes st _ _ steps c ks rest w Hun Hfin Hscript).
    reflexivity.
  - rewrite map_map. revert Hp. generalize (concat (map snd steps) ++ ks)%list.
    intros keys Hp. induction keys as [|k keys IH]; [reflexivity|]. simpl.
    rewrite (replace_first_prefix _ _ (Hp k (or_introl eq_refl))), IH;
      [reflexivity | intros k' Hin; apply Hp; right; exact Hin].
  - reflexivity.
Qed.

Lemma ids_strips_prefix_witness :
  exists sessionIds w1,
    ValkeyStore.ids Sample.store WithCallback Sample.mixed_world
    = (succeeded WithCallback (DStrings sessionIds), w1)
    /\ map (String.append "sess:") sessionIds = ["sess:a"; "sess:b"]
    /\ db w1 = db Sample.mixed_world.
Proof.
  refine (ids_strips_prefix Sample.store
            [(SimpleCursor "5", ["sess:a"])] (SimpleCursor "0") ["sess:b"] []
            WithCallback Sample.mixed_world _ eq_refl eq_refl _).
  - constructor; [reflexivity | constructor].
  - intros k [<- | [<- | []]]; reflexivity.
Defined.

(** X15: when the scan completes with at least one key and the client
    answers the delete, [clear] sends, after the scans, exactly one delete
    carrying every scanned key: none of them is left, and every other key
    holds what it held. *)
Theorem clear_deletes_scanned_keys (st : Store)
    (steps : list (Cursor * list string)) (c : Cursor) (ks : list string)
    (rest : list ScanReply) (callback : Callback) (w : World) :
  Forall unfinished steps ->
  ValkeyStore.isCursorFinished c = true ->
  scanReplies w = (map reply_of steps ++ ScanOk c ks :: rest)%list ->
  (concat (map snd steps) ++ ks)%list <> [] ->
  faults w (CallDel (concat (map snd steps) ++ ks)%list) = None ->
  exists w1,
    ValkeyStore.clear st callback w = (succeeded callback DUndefined, w1)
    /\ issued w w1
       = (scan_calls st (String.append (prefix st) "*")
            (ValkeyStore.initialCursor w :: map fst steps)
          ++ [CallDel (concat (map snd steps) ++ ks)%list])%list
    /\ (forall k, In k (concat (map snd steps) ++ ks)%list -> db w1 !! k = None)
    /\ (forall k, ~ In k (concat (map snd steps) ++ ks)%list -> db w1 !! k = db w !! k).
Proof.
  intros Hun Hfin Hscript Hne Hf.
  set (keys := (concat (map snd steps) ++ ks)%list) in *.
  exists (with_db (foldr (fun k acc => delete k acc) (db w) keys)
            (record_call (CallDel keys)
               (after_scans w
                  (scan_calls st (String.append (prefix st) "*")
                     (ValkeyStore.initialCursor w :: map fst steps)) rest))).
  split; [|split; [|split]].
  - apply optionalCb_success. unfold ValkeyStore.clear_fn, bind.
    rewrite (scanKeys_completes st _ _ steps c ks rest w Hun Hfin Hscript).
    fold keys. destruct keys as [|k0 keys0] eqn:Hkeys; [contradiction|].
    unfold bind, Client.del, Client.request. simpl. rewrite Hf. reflexivity.
  - unfold issued. simpl. rewrite <- app_assoc, drop_app_length. reflexivity.
  - intros k Hin. simpl. apply lookup_foldr_delete, list_elem_of_In, Hin.
  - intros k Hout. simpl. apply lookup_foldr_delete_not_elem_of.
    rewrite list_elem_of_In. exact Hout.
Qed.

Lemma clear_deletes_scanned_keys_witness :
  exists w1,
    ValkeyStore.clear Sample.store NoCallback Sample.mixed_world
    = (succeeded NoCallback DUndefined, w1)
    /\ issued Sample.mixed_world w1
       = [CallScan (SimpleCursor "0") "sess:*" 100;
          CallScan (SimpleCursor "5") "sess:*" 100;
          CallDel ["sess:a"; "sess:b"]]
    /\ db w1 !! "sess:a" = None.
Proof.
  destruct (clear_deletes_scanned_keys Sample.store
              [(SimpleCursor "5", ["sess:a"])] (SimpleCursor "0") ["sess:b"] []
              NoCallback Sample.mixed_world)
    as (w1 & Hrun & Hcalls & Hgone & _); try reflexivity.
  - constructor; [reflexivity | constructor].
  - discriminate.
  - exists w1. split; [exact Hrun|]. split; [exact Hcalls|].
    apply Hgone. simpl. auto.
Defined.

(** X16: when the scan completes without a single key, [clear] succeeds
    without sending a delete: scans are all the client sees. *)
Theorem clear_nothing_found (st : Store) (steps : list (Cursor * list string))
    (c : Cursor) (rest : list ScanReply) (callback : Callback) (w : World) :
  Forall unfinished steps ->
  ValkeyStore.isCursorFinished c = true ->
  scanReplies w = (map reply_of steps ++ ScanOk c [] :: rest)%list ->
  Forall (fun step => snd step = []) steps ->
  exists w1,
    ValkeyStore.clear st callback w = (succeeded callback DUndefined, w1)
    /\ issued w w1
       = scan_calls st (String.append (prefix st) "*")
           (ValkeyStore.initialCursor w :: map fst steps)
    /\ db w1 = db w.
Proof.
  intros Hun Hfin Hscript Hempty. eexists. split; [|split].
  - apply optionalCb_success. unfold ValkeyStore.clear_fn, bind.
    rewrite (scanKeys_completes st _ _ steps c [] rest w Hun Hfin Hscript).
    assert ((concat (map snd steps) ++ [])%list = []) as ->.
    { rewrite app_nil_r. clear - Hempty.
      induction Hempty as [|[c1 ks1] steps Hks _ IH]; [reflexivity|].
      simpl in *. subst ks1. exact IH. }
    reflexivity.
  - apply issued_after_scans.
  - reflexivity.
Qed.

Lemma clear_nothing_found_witness :
  exists w1,
    ValkeyStore.clear Sample.store WithCallback
      (Sample.world Sample.mixed_db [ScanOk (SimpleCursor "0") []])
    = (succeeded WithCallback DUndefined, w1)
    /\ issued (Sample.world Sample.mixed_db [ScanOk (SimpleCursor "0") []]) w1
       = [CallScan (SimpleCursor "0") "sess:*" 100]
    /\ db w1 = Sample.mixed_db.
Proof.
  refine (clear_nothing_found Sample.store [] (SimpleCursor "0") [] WithCallback
            (Sample.world Sample.mixed_db _) _ eq_refl eq_refl _); constructor.
Defined.

(** X17: on a store with an "error" listener attached, when a scan step
    fails before the scan is complete, [length], [ids] and [clear] fail
    with that error; the keys collected so far are dropped: [clear]
    deletes none of them, and only scans were sent. *)
Theorem enumeration_fails_with_scan (st : Store) (op : Operation)
    (steps : list (Cursor * list string)) (e : JsError) (rest : list ScanReply)
    (callback : Callback) (w : World) :
  In op [OpLength; OpIds; OpClear] ->
  Forall unfinished steps ->
  scanReplies w = (map reply_of steps ++ ScanFail e :: rest)%list ->
  listening w = true ->
  fst (perform st op callback w) = failed callback e
  /\ issued w (snd (perform st op callback w))
     = scan_calls st (String.append (prefix st) "*")
         (ValkeyStore.initialCursor w :: map fst steps)
  /\ db (snd (perform st op callback w)) = db w.
Proof.
  intros Hop Hun Hscript Hl.
  assert (fn_of st op w
          = ValkeyStore.catch_async st e
              (after_scans w
                 (scan_calls st (String.append (prefix st) "*")
                    (ValkeyStore.initialCursor w :: map fst steps)) rest)) as Hfn.
  { simpl in Hop. destruct Hop as [<- | [<- | [<- | []]]]; simpl;
      unfold ValkeyStore.length_fn, ValkeyStore.ids_fn, ValkeyStore.clear_fn, bind;
      rewrite (scanKeys_aborts st _ _ steps e rest w Hun Hscript); reflexivity. }
  rewrite catch_async_world in Hfn by exact Hl.
  assert (perform st op callback = optionalCb (fn_of st op) callback true) as ->.
  { simpl in Hop. destruct Hop as [<- | [<- | [<- | []]]]; reflexivity. }
  rewrite (optionalCb_failure _ callback w _ e Hfn Hl).
  split; [reflexivity|].
  destruct callback; unfold issued; simpl; rewrite drop_app_length;
    split; reflexivity.
Qed.

Lemma enumeration_fails_with_scan_witness :
  fst (perform Sample.store OpClear NoCallback
         (Sample.world Sample.mixed_db
            [ScanOk (SimpleCursor "5") ["sess:a"];
             ScanFail (RequestError "connection closed")]))
  = failed NoCallback (RequestError "connection closed")
  /\ db (snd (perform Sample.store OpClear NoCallback
                (Sample.world Sample.mixed_db
                   [ScanOk (SimpleCursor "5") ["sess:a"];
                    ScanFail (RequestError "connection closed")])))
     = Sample.mixed_db.
Proof.
  destruct (enumeration_fails_with_scan Sample.store OpClear
              [(SimpleCursor "5", ["sess:a"])]
              (RequestError "connection closed") [] NoCallback
              (Sample.world Sample.mixed_db
                 [ScanOk (SimpleCursor "5") ["sess:a"];
                  ScanFail (RequestError "connection closed")]))
    as (Hfail & _ & Hdb).
  - simpl. auto.
  - constructor; [reflexivity | constructor].
  - reflexivity.
  - reflexivity.
  - split; [exact Hfail | exact Hdb].
Defined.

(** ** The scan loops *)

Lemma scanKeys_loop_extends (st : Store) (pattern : string) (fuel : nat) :
  forall cursor keys w,
    exists cs,
      calls (snd (ValkeyStore.scanKeys_loop fuel st pattern cursor keys w))
      = (calls w ++ cs)%list.
Proof.
  induction fuel as [|fuel IH]; intros cursor keys w; simpl.
  - exists []. rewrite app_nil_r. reflexivity.
  - unfold bind, Client.scan.
    destruct (scanReplies w) as [|[c ks | e] rest]; simpl;
      try (eexists; reflexivity).
    destruct (ValkeyStore.isCursorFinished c); [eexists; reflexivity|].
    destruct (IH c (keys ++ ks)%list
                (with_scanReplies rest
                   (record_call (CallScan cursor pattern (scanCount st)) w)))
      as (cs & Hcs).
    rewrite Hcs. simpl. rewrite <- app_assoc. eexists. reflexivity.
Qed.

Lemma scanKeys_loop_first (st : Store) (pattern : string) (fuel : nat)
    (cursor : Cursor) (keys : list string) (w : World) :
  exists cs,
    calls (snd (ValkeyStore.scanKeys_loop (S fuel) st pattern cursor keys w))
    = (calls w ++ CallScan cursor pattern (scanCount st) :: cs)%list.
Proof.
  simpl. unfold bind, Client.scan.
  destruct (scanReplies w) as [|[c ks | e] rest]; simpl;
    try (exists []; reflexivity).
  destruct (ValkeyStore.isCursorFinished c); [exists []; reflexivity|].
  destruct (scanKeys_loop_extends st pattern fuel c (keys ++ ks)%list
              (with_scanReplies rest
                 (record_call (CallScan cursor pattern (scanCount st)) w)))
    as (cs & Hcs).
  exists cs. rewrite Hcs. simpl. rewrite <- app_assoc. reflexivity.
Qed.

(** X18: the scan loop tests the cursor after the step, not before: in
    single-node mode the initial cursor "0" already passes the completion
    test, and still [scanKeys] sends a first scan with it, whatever the
    client answers. *)
Theorem scanKeys_scans_before_testing (st : Store) (pattern : string) (w : World) :
  (isCluster w = false ->
   ValkeyStore.isCursorFinished (ValkeyStore.initialCursor w) = true)
  /\ exists cs,
       issued w (snd (ValkeyStore.scanKeys st pattern ret w))
       = CallScan (ValkeyStore.initialCursor w) pattern (scanCount st) :: cs.
Proof.
  split.
  - intros Hsingle. unfold ValkeyStore.initialCursor. rewrite Hsingle. reflexivity.
  - unfold ValkeyStore.scanKeys.
    destruct (scanKeys_loop_first st pattern (List.length (scanReplies w))
                (ValkeyStore.initialCursor w) [] w) as (cs & Hcs).
    exists cs. unfold issued.
    destruct (ValkeyStore.scanKeys_loop _ _ _ _ _ w) as [[keys|e] w1];
      simpl in *; rewrite Hcs, drop_app_length; reflexivity.
Qed.

Lemma scanKeys_scans_before_testing_witness :
  ValkeyStore.isCursorFinished (ValkeyStore.initialCursor Sample.empty_world) = true.
Proof.
  apply (proj1 (scanKeys_scans_before_testing Sample.store "sess:*"
                  Sample.empty_world)).
  reflexivity.
Defined.

Lemma run_batches_app {A : Type} (h : list string -> A -> Result A)
    (batches1 batches2 : list (list string)) :
  forall acc,
    run_batches h acc (batches1 ++ batches2)
    = match run_batches h acc batches1 with
      | Ok acc' => run_batches h acc' batches2
      | Err e => Err e
      end.
Proof.
  induction batches1 as [|ks batches1 IH]; intros acc; simpl; [reflexivity|].
  destruct (0 <? List.length ks)%nat; [|apply IH].
  destruct (h ks acc); [apply IH | reflexivity].
Qed.

Lemma scanAndProcessKeys_loop_runs {A : Type} (st : Store) (pattern : string)
    (h : list string -> A -> Result A) (last : ScanReply) (rest : list ScanReply)
    (steps : list (Cursor * list string)) :
  Forall unfinished steps ->
  forall fuel cursor acc acc' w,
    (List.length steps < fuel)%nat ->
    scanReplies w = (map reply_of steps ++ last :: rest)%list ->
    run_batches h acc (map snd steps) = Ok acc' ->
    ValkeyStore.scanAndProcessKeys_loop fuel st pattern
      (fun ks a => ret (h ks a)) cursor acc w
    = (match last with
       | ScanFail e => Err e
       | ScanOk c ks =>
           match run_batches h acc' [ks] with
           | Err e => Err e
           | Ok a =>
               if ValkeyStore.isCursorFinished c then Ok a
               else fst (ValkeyStore.scanAndProcessKeys_loop
                           (fuel - S (List.length steps)) st pattern
                           (fun ks a => ret (h ks a)) c a
                           (after_scans w
                              (scan_calls st pattern (cursor :: map fst steps))
                              rest))
           end
       end,
       match last with
       | ScanFail e =>
           after_scans w (scan_calls st pattern (cursor :: map fst steps)) rest
       | ScanOk c ks =>
           match run_batches h acc' [ks] with
           | Err e =>
               after_scans w (scan_calls st pattern (cursor :: map fst steps)) rest
           | Ok a =>
               if ValkeyStore.isCursorFinished c
               then after_scans w (scan_calls st pattern (cursor :: map fst steps))
                      rest
               else snd (ValkeyStore.scanAndProcessKeys_loop
                           (fuel - S (List.length steps)) st pattern
                           (fun ks a => ret (h ks a)) c a
                           (after_scans w
                              (scan_calls st pattern (cursor :: map fst steps))
                              rest))
           end
       end).
Proof.
  intros Hun. induction Hun as [|[c1 ks1] steps Hc1 Hun IH];
    intros fuel cursor acc acc' w Hfuel Hscript Hrun;
    (destruct fuel as [|fuel]; [simpl in Hfuel; lia|]);
    simpl in Hscript; simpl ValkeyStore.scanAndProcessKeys_loop; unfold bind;
    rewrite (scan_answers _ _ _ _ _ w Hscript); cbv beta iota.
  - simpl in Hrun. injection Hrun as <-.
    destruct last as [c ks | e]; [|reflexivity].
    simpl run_batches. simpl List.length. rewrite Nat.sub_0_r.
    change (with_scanReplies rest (record_call (CallScan cursor pattern (scanCount st)) w))
      with (after_scans w (scan_calls st pattern [cursor]) rest).
    destruct (0 <? List.length ks)%nat; unfold ret;
      [destruct (h ks acc) as [a|e]; [|reflexivity]|];
      destruct (ValkeyStore.isCursorFinished c); try reflexivity;
      destruct (ValkeyStore.scanAndProcessKeys_loop _ _ _ _ _ _ _); reflexivity.
  - change (reply_of (c1, ks1)) with (ScanOk c1 ks1). cbv beta iota.
    simpl in Hrun. unfold unfinished in Hc1. simpl in Hc1.
    assert (exists acc1,
              (if (0 <? List.length ks1)%nat then ret (h ks1 acc) else ret (Ok acc))
                (with_scanReplies (map reply_of steps ++ last :: rest)
                   (record_call (CallScan cursor pattern (scanCount st)) w))
              = (Ok acc1,
                 with_scanReplies (map reply_of steps ++ last :: rest)
                   (record_call (CallScan cursor pattern (scanCount st)) w))
              /\ run_batches h acc1 (map snd steps) = Ok acc') as (acc1 & -> & Hrun1).
    { destruct (0 <? List.length ks1)%nat.
      - destruct (h ks1 acc) as [a|e]; [|discriminate]. exists a. auto.
      - exists acc. auto. }
    rewrite Hc1.
    rewrite (IH fuel c1 acc1 acc'
               (with_scanReplies (map reply_of steps ++ last :: rest)
                  (record_call (CallScan cursor pattern (scanCount st)) w))
               ltac:(simpl in Hfuel; lia) eq_refl Hrun1).
    rewrite after_scans_step. simpl List.length.
    replace (S fuel - S (S (List.length steps)))%nat
      with (fuel - S (List.length steps))%nat by lia.
    reflexivity.
Qed.

(** X19: [scanAndProcessKeys] hands each non-empty batch to the handler
    once, in scan order, and no empty batch; when every call of the handler
    succeeds and the last cursor passes the completion test, it returns
    what the handler made of them, after one scan per step. *)
Theorem scanAndProcessKeys_feeds_batches {A : Type} (st : Store) (pattern : string)
    (h : list string -> A -> Result A) (steps : list (Cursor * list string))
    (c : Cursor) (ks : list string) (rest : list ScanReply) (acc a : A)
    (w : World) :
  Forall unfinished steps ->
  ValkeyStore.isCursorFinished c = true ->
  scanReplies w = (map reply_of steps ++ ScanOk c ks :: rest)%list ->
  run_batches h acc (map snd steps ++ [ks]) = Ok a ->
  ValkeyStore.scanAndProcessKeys st pattern (fun ks a => ret (h ks a)) acc w
  = (Ok a,
     after_scans w
       (scan_calls st pattern (ValkeyStore.initialCursor w :: map fst steps)) rest).
Proof.
  intros Hun Hfin Hscript Hrun. rewrite run_batches_app in Hrun.
  destruct (run_batches h acc (map snd steps)) as [acc'|e] eqn:Hsteps;
    [|discriminate].
  unfold ValkeyStore.scanAndProcessKeys.
  rewrite (scanAndProcessKeys_loop_runs st pattern h (ScanOk c ks) rest steps Hun
             _ _ acc acc' w); [| rewrite Hscript, length_app, length_map; simpl; lia
                              | exact Hscript | exact Hsteps].
  rewrite Hrun, Hfin. reflexivity.
Qed.

Lemma scanAndProcessKeys_feeds_batches_witness :
  ValkeyStore.scanAndProcessKeys Sample.store "sess:*"
    (fun ks a => ret (Ok (a ++ [ks])%list)) []
    (Sample.world ∅ [ScanOk (SimpleCursor "5") ["sess:a"];
                     ScanOk (SimpleCursor "9") [];
                     ScanOk (SimpleCursor "0") ["sess:b"; "sess:c"]])
  = (Ok [["sess:a"]; ["sess:b"; "sess:c"]],
     after_scans
       (Sample.world ∅ [ScanOk (SimpleCursor "5") ["sess:a"];
                        ScanOk (SimpleCursor "9") [];
                        ScanOk (SimpleCursor "0") ["sess:b"; "sess:c"]])
       [CallScan (SimpleCursor "0") "sess:*" 100;
        CallScan (SimpleCursor "5") "sess:*" 100;
        CallScan (SimpleCursor "9") "sess:*" 100] []).
Proof.
  apply (scanAndProcessKeys_feeds_batches Sample.store "sess:*"
           (fun ks a => Ok (a ++ [ks])%list)
           [(SimpleCursor "5", ["sess:a"]); (SimpleCursor "9", [])]
           (SimpleCursor "0") ["sess:b"; "sess:c"] [] []).
  - repeat constructor.
  - reflexivity.
  - reflexivity.
  - reflexivity.
Defined.

(** X20: when the handler fails on a batch, [scanAndProcessKeys] fails with
    that error right there: no further scan is sent, and the replies that
    the client still had are left unread. *)
Theorem scanAndProcessKeys_stops_at_failure {A : Type} (st : Store)
    (pattern : string) (h : list string -> A -> Result A)
    (steps : list (Cursor * list string)) (c : Cursor) (ks : list string)
    (rest : list ScanReply) (acc acc' : A) (e : JsError) (w : World) :
  Forall unfinished steps ->
  scanReplies w = (map reply_of steps ++ ScanOk c ks :: rest)%list ->
  run_batches h acc (map snd steps) = Ok acc' ->
  ks <> [] ->
  h ks acc' = Err e ->
  ValkeyStore.scanAndProcessKeys st pattern (fun ks a => ret (h ks a)) acc w
  = (Err e,
     after_scans w
       (scan_calls st pattern (ValkeyStore.initialCursor w :: map fst steps)) rest).
Proof.
  intros Hun Hscript Hsteps Hne Hfail. unfold ValkeyStore.scanAndProcessKeys.
  rewrite (scanAndProcessKeys_loop_runs st pattern h (ScanOk c ks) rest steps Hun
             _ _ acc acc' w); [| rewrite Hscript, length_app, length_map; simpl; lia
                              | exact Hscript | exact Hsteps].
  simpl. destruct ks as [|k ks]; [contradiction|]. simpl. rewrite Hfail. reflexivity.
Qed.

Lemma scanAndProcessKeys_stops_at_failure_witness :
  ValkeyStore.scanAndProcessKeys Sample.store "sess:*"
    (fun ks (a : nat) => ret (Err (Error "handler failed"))) 0%nat
    (Sample.world ∅ [ScanOk (SimpleCursor "5") ["sess:a"];
                     ScanOk (SimpleCursor "0") ["sess:b"]])
  = (Err (Error "handler failed"),
     after_scans
       (Sample.world ∅ [ScanOk (SimpleCursor "5") ["sess:a"];
                        ScanOk (SimpleCursor "0") ["sess:b"]])
       [CallScan (SimpleCursor "0") "sess:*" 100]
       [ScanOk (SimpleCursor "0") ["sess:b"]]).
Proof.
  apply (scanAndProcessKeys_stops_at_failure Sample.store "sess:*"
           (fun ks (a : nat) => Err (Error "handler failed"))
           [] (SimpleCursor "5") ["sess:a"] [ScanOk (SimpleCursor "0") ["sess:b"]]
           0%nat 0%nat).
  - constructor.
  - reflexivity.
  - reflexivity.
  - discriminate.
  - reflexivity.
Defined.

(** ** Keys and configuration *)

Lemma length_append (p s : string) :
  String.length (String.append p s) = (String.length p + String.length s)%nat.
Proof.
  induction p as [|a p IH]; [reflexivity|].
  change (S (String.length (String.append p s))
          = S (String.length p + String.length s)).
  rewrite IH. reflexivity.
Qed.

(** X21: [key] can be undone and does not collide: stripping the prefix off
    the key of a valid sid, as [ids] and [all] do, gives the sid back; two
    sids have the same key only if they are the same; and the key is at
    most 255 characters longer than the prefix. *)
Theorem key_round_trip (st : Store) (sid1 sid2 : JsValue) (k1 k2 : string) :
  ValkeyStore.key st sid1 = Ok k1 ->
  ValkeyStore.key st sid2 = Ok k2 ->
  sid1 = JsString (replace_first (prefix st) k1)
  /\ (k1 = k2 -> sid1 = sid2)
  /\ String.prefix (prefix st) k1 = true
  /\ (String.length (prefix st) < String.length k1
      <= String.length (prefix st) + 255)%nat.
Proof.
  intros H1 H2.
  destruct (key_Ok_valid st sid1 k1 H1) as (s1 & -> & -> & Hv1).
  destruct (key_Ok_valid st sid2 k2 H2) as (s2 & -> & -> & Hv2).
  split; [|split; [|split]].
  - rewrite replace_first_app. reflexivity.
  - intros Heq. f_equal.
    rewrite <- (replace_first_app (prefix st) s1), <- (replace_first_app (prefix st) s2).
    congruence.
  - apply prefix_app.
  - rewrite length_append.
    assert (s1 <> EmptyString) as Hne by (intros ->; apply Hv1; constructor).
    assert (~ (255 < String.length s1)%nat) as Hlen
      by (intros Hlong; apply Hv1, invalid_long, Hlong).
    destruct s1; [contradiction|]. simpl in *. lia.
Qed.

Lemma key_round_trip_witness :
  JsString "abc" = JsString (replace_first (prefix Sample.store) "sess:abc").
Proof.
  exact (proj1 (key_round_trip Sample.store (JsString "abc") (JsString "abc")
                  "sess:abc" "sess:abc" eq_refl eq_refl)).
Defined.

(** The constructor replaces every falsy option by its default: the
    prefix of a store is never empty (an empty or missing one is "sess:"),
    a numeric ttl and the scan count are never 0 (0 or missing gives 86400
    and 100), and [logErrors] is off only when [false] was passed. Options
    that are not falsy are taken as they are. *)
Lemma constructor_defaults (json : Serializer) (options : ValkeyStoreOptions) :
  let st := ValkeyStore.constructor json options in
  prefix st <> EmptyString
  /\ (forall p, opt_prefix options = Some p -> p <> EmptyString -> prefix st = p)
  /\ (opt_prefix options = None \/ opt_prefix options = Some EmptyString ->
      prefix st = "sess:")
  /\ ttl st <> TtlNumber 0
  /\ (forall t, opt_ttl options = Some t -> t <> TtlNumber 0 -> ttl st = t)
  /\ (opt_ttl options = None \/ opt_ttl options = Some (TtlNumber 0) ->
      ttl st = TtlNumber 86400)
  /\ scanCount st <> 0
  /\ (opt_scanCount options = None \/ opt_scanCount options = Some 0 ->
      scanCount st = 100)
  /\ (logErrors st = false <-> opt_logErrors options = Some false)
  /\ (disableTTL st = true <-> opt_disableTTL options = Some true)
  /\ (disableTouch st = true <-> opt_disableTouch options = Some true).
Proof.
  destruct options as [p t dttl dtouch n le ser]. cbv zeta. simpl.
  repeat split.
  - destruct p as [p|]; [|discriminate].
    destruct (String.eqb_spec p EmptyString); [discriminate | assumption].
  - intros p' [= ->] Hne.
    destruct (String.eqb_spec p' EmptyString); [contradiction | reflexivity].
  - intros [-> | ->]; reflexivity.
  - destruct t as [[n0|f]|]; try discriminate.
    destruct (Z.eqb_spec n0 0); [discriminate | congruence].
  - intros t' [= ->] Hne. destruct t' as [n0|f]; [|reflexivity].
    destruct (Z.eqb_spec n0 0); [congruence | reflexivity].
  - intros [-> | ->]; reflexivity.
  - destruct n as [n0|]; [|discriminate].
    destruct (Z.eqb_spec n0 0); [discriminate | assumption].
  - intros [-> | ->]; reflexivity.
  - destruct le as [[]|]; [discriminate | reflexivity | discriminate].
  - intros ->. reflexivity.
  - destruct dttl as [[]|]; [reflexivity | discriminate | discriminate].
  - intros ->. reflexivity.
  - destruct dtouch as [[]|]; [reflexivity | discriminate | discriminate].
  - intros ->. reflexivity.
Qed.

(** X22: a numeric ttl of 0 cannot be configured: the store built from it
    gives a record without cookie lifetime the default TTL 86400, so [set]
    writes it (with that expiry) instead of deleting it. *)
Theorem ttl_zero_is_default (json : Serializer) (options : ValkeyStoreOptions)
    (sid : JsValue) (k data : string) (session : SessionData)
    (callback : Callback) (w : World) :
  opt_ttl options = Some (TtlNumber 0) ->
  opt_disableTTL options = None \/ opt_disableTTL options = Some false ->
  cookie session = None ->
  ValkeyStore.key (ValkeyStore.constructor json options) sid = Ok k ->
  stringify (serializer (ValkeyStore.constructor json options)) session = Ok data ->
  faults w (CallSet k data (Some 86400)) = None ->
  ValkeyStore.getTTL (ValkeyStore.constructor json options) w session = 86400
  /\ issued w (snd (ValkeyStore.set (ValkeyStore.constructor json options) sid
                      session callback w))
     = [CallSet k data (Some 86400)].
Proof.
  intros Httl Hdis Hcookie Hk Hs Hf.
  set (st := ValkeyStore.constructor json options) in *.
  assert (disableTTL st = false) as Hd.
  { unfold st. simpl. destruct Hdis as [-> | ->]; reflexivity. }
  assert (ValkeyStore.getTTL st w session = 86400) as Hget.
  { unfold ValkeyStore.getTTL, ValkeyStore.default_ttl. rewrite Hd, Hcookie.
    unfold st. simpl. rewrite Httl. reflexivity. }
  split; [exact Hget|].
  assert (0 < ValkeyStore.getTTL st w session) as Hpos by (rewrite Hget; lia).
  pose proof (set_fn_writes st sid k data session w Hk (or_intror Hpos) Hs)
    as Hset.
  cbv zeta in Hset. rewrite Hget in Hset. simpl in Hset.
  unfold ValkeyStore.set. rewrite (optionalCb_success _ callback w _ _ (Hset Hf)).
  unfold issued. simpl. rewrite drop_app_length. reflexivity.
Qed.

Lemma ttl_zero_is_default_witness :
  ValkeyStore.getTTL
    (ValkeyStore.constructor Sample.codec
       {| opt_prefix := None; opt_ttl := Some (TtlNumber 0);
          opt_disableTTL := None; opt_disableTouch := None;
          opt_scanCount := None; opt_logErrors := None;
          opt_serializer := None |})
    Sample.empty_world {| cookie := None; fields := [] |} = 86400.
Proof.
  apply (proj1 (ttl_zero_is_default Sample.codec
                  {| opt_prefix := None; opt_ttl := Some (TtlNumber 0);
                     opt_disableTTL := None; opt_disableTouch := None;
                     opt_scanCount := None; opt_logErrors := None;
                     opt_serializer := None |}
                  (JsString "abc") "sess:abc" "{foo:bar}"
                  {| cookie := None; fields := [] |} NoCallback Sample.empty_world
                  eq_refl (or_introl eq_refl) eq_refl eq_refl eq_refl eq_refl)).
Defined.

(** ** Lifetimes below one second *)

(** X23: a record whose only lifetime is a [cookie.maxAge] under one second
    (negative included, 0 excluded as it is falsy) has a TTL of 0 or less,
    so [set] stores nothing for it: it sends one delete of the key, and a
    [get] right after yields null. *)
Theorem short_maxAge_is_not_stored (st : Store) (sid : JsValue) (k : string)
    (session : SessionData) (c : Cookie) (ms : Z) (callback : Callback)
    (w : World) :
  disableTTL st = false ->
  ValkeyStore.key st sid = Ok k ->
  (forall call, faults w call = None) ->
  cookie session = Some c ->
  ValkeyStore.truthy_expires (expires c) = false ->
  maxAge c = MaxAgeNumber ms ->
  ms <> 0 -> ms < 1000 ->
  issued w (snd (ValkeyStore.set st sid session callback w)) = [CallDel [k]]
  /\ fst (ValkeyStore.set st sid session callback w) = succeeded callback DUndefined
  /\ forall callback',
       fst (ValkeyStore.get st sid callback'
              (snd (ValkeyStore.set st sid session callback w)))
       = succeeded callback' DNull.
Proof.
  intros Hd Hk Hf Hc Hexp Hmax Hnz Hshort.
  assert (ValkeyStore.getTTL st w session <= 0) as Hle.
  { unfold ValkeyStore.getTTL. rewrite Hd, Hc, Hexp, Hmax. simpl.
    destruct (Z.eqb_spec ms 0); [contradiction|]. simpl.
    pose proof (floor_div_1000 ms). lia. }
  unfold ValkeyStore.set.
  rewrite (optionalCb_success _ callback w _ _
             (set_fn_deletes st sid k session w Hk Hd Hle (Hf _))).
  split; [apply (issued_one w)|]. split; [reflexivity|].
  intros callback'. unfold ValkeyStore.get. simpl snd.
  erewrite optionalCb_success; [reflexivity|].
  apply (get_fn_absent st sid k); [exact Hk | apply Hf |].
  simpl. apply lookup_delete_eq.
Qed.

Lemma short_maxAge_is_not_stored_witness :
  issued Sample.empty_world
    (snd (ValkeyStore.set Sample.store (JsString "abc") (Sample.with_maxAge 999)
            NoCallback Sample.empty_world))
  = [CallDel ["sess:abc"]].
Proof.
  apply (proj1 (short_maxAge_is_not_stored Sample.store (JsString "abc")
                  "sess:abc" (Sample.with_maxAge 999)
                  {| expires := ExpiresUndefined; maxAge := MaxAgeNumber 999 |}
                  999 NoCallback Sample.empty_world eq_refl eq_refl
                  (fun _ => eq_refl) eq_refl eq_refl eq_refl
                  ltac:(discriminate) ltac:(reflexivity))).
Defined.

(** X24: [touch] with a record whose [cookie.expires] is not after now
    sends [expire(key, 0)], the TTL being clamped at 0: with the client
    answering, the key is gone afterwards, as after a [set] of that record. *)
Theorem touch_expired_removes_key (st : Store) (sid : JsValue) (k : string)
    (session : SessionData) (c : Cookie) (callback : Callback) (w : World) :
  disableTouch st = false ->
  disableTTL st = false ->
  ValkeyStore.key st sid = Ok k ->
  (forall call, faults w call = None) ->
  cookie session = Some c ->
  ValkeyStore.truthy_expires (expires c) = true ->
  ValkeyStore.getTime w (expires c) <= now w ->
  issued w (snd (ValkeyStore.touch st sid session callback w)) = [CallExpire k 0]
  /\ db (snd (ValkeyStore.touch st sid session callback w)) !! k = None
  /\ forall k', k' <> k ->
       db (snd (ValkeyStore.touch st sid session callback w)) !! k' = db w !! k'.
Proof.
  intros Hon Hd Hk Hf Hc Hexp Hpast.
  assert (ValkeyStore.getTTL st w session = 0) as Httl.
  { unfold ValkeyStore.getTTL. rewrite Hd, Hc, Hexp.
    pose proof (floor_div_1000 (ValkeyStore.getTime w (expires c) - now w)). lia. }
  unfold ValkeyStore.touch. rewrite Hon.
  assert (exists w1,
            ValkeyStore.touch_fn st sid session w = (FnCalledBack None DUndefined, w1)
            /\ calls w1 = (calls w ++ [CallExpire k 0])%list
            /\ db w1 = delete k (db w)) as (w1 & Hfn & Hcalls & Hdb).
  { unfold ValkeyStore.touch_fn. rewrite Hk. unfold bind. rewrite Httl.
    unfold Client.expire, Client.request. rewrite Hf.
    destruct (db w !! k) as [entry|] eqn:Hlook; simpl.
    - eexists. split; [reflexivity|]. split; reflexivity.
    - eexists. split; [reflexivity|]. split; [reflexivity|].
      simpl. symmetry. apply delete_id, Hlook. }
  rewrite (optionalCb_success _ callback w _ _ Hfn). simpl.
  split; [unfold issued; rewrite Hcalls, drop_app_length; reflexivity|].
  rewrite Hdb. split; [apply lookup_delete_eq|].
  intros k' Hne. apply lookup_delete_ne. congruence.
Qed.

Lemma touch_expired_removes_key_witness :
  issued Sample.mixed_world
    (snd (ValkeyStore.touch Sample.store (JsString "a") (Sample.with_expires 5)
            NoCallback Sample.mixed_world))
  = [CallExpire "sess:a" 0]
  /\ db (snd (ValkeyStore.touch Sample.store (JsString "a") (Sample.with_expires 5)
                NoCallback Sample.mixed_world)) !! "sess:a" = None.
Proof.
  destruct (touch_expired_removes_key Sample.store (JsString "a") "sess:a"
              (Sample.with_expires 5)
              {| expires := ExpiresDate 5; maxAge := MaxAgeUndefined |}
              NoCallback Sample.mixed_world eq_refl eq_refl eq_refl
              (fun _ => eq_refl) eq_refl eq_refl ltac:(vm_compute; discriminate))
    as (Hcalls & Hgone & _).
  split; [exact Hcalls | exact Hgone].
Defined.
